(** * Task ordering and completion state of the NexGen TaskPad backend

    A shallow embedding of the three task handlers of the Express server
    ([POST /api/tasks], [PATCH /api/tasks/:task_id],
    [DELETE /api/tasks/:task_id]), of the Zod input schemas they parse the
    request body with, and of the part of PostgreSQL they talk to: the
    [tasks] table, the statements the handlers send, and the transaction
    state of the pooled connection.

    Conventions.
    - A request is served on one connection ([conn]); the handlers are
      state transformers on it, written in a small monad that has a value,
      an early [return res.status(..)] and a thrown exception.
    - Requests are served one at a time, and the pool then hands each of
      them the connection the previous one released, with the transaction
      that handler may have left open on it. The idle timeout of the pool
      is not modelled.
    - [order_index] is an [INTEGER] column and the timestamps are [BIGINT]
      columns; both are modelled by [Z] and are assumed to stay inside
      their SQL ranges, the timestamps also inside the range of a
      JavaScript [Date]. The foreign keys of [tasks] are not modelled.
    - A string of the model is a JavaScript string given by its UTF-16
      code units, one character for each, so that [String.length] is the
      [length] that [min] and [max] of Zod count. Code units above 255,
      and the code unit 0, which PostgreSQL refuses in a text value, are
      outside the model.
    - The tables are as the [CREATE TABLE] statements describe them, with
      [id] as the primary key of [tasks] (where the statement has
      [PRIMARY SKEY]).
    - [Date.now()] and [generateId()] are inputs of a request. *)

From Stdlib Require Import ZArith List String Bool Lia Arith.
Import ListNotations.
Open Scope string_scope.
Open Scope list_scope.
Open Scope Z_scope.

Set Implicit Arguments.

(* ===================================================================== *)
(** * The [tasks] table *)
(* ===================================================================== *)

(** One row of [tasks], column by column as in [CREATE TABLE tasks]. *)
Record task := mkTask {
  id : string;
  user_id : string;
  category_id : option string;
  title : string;
  description : option string;
  due_date_at : option Z;
  priority : string;
  is_completed : bool;
  completed_at : option Z;
  order_index : Z;
  created_at : Z;
  updated_at : Z
}.

(** One row of [categories]; the task handlers only read this table. *)
Record category := mkCategory {
  cat_id : string;
  cat_user_id : string
}.

Inductive column :=
| col_id | col_user_id | col_category_id | col_title | col_description
| col_due_date_at | col_priority | col_is_completed | col_completed_at
| col_order_index | col_created_at | col_updated_at.

Definition column_eqb (a b : column) : bool :=
  match a, b with
  | col_id, col_id | col_user_id, col_user_id
  | col_category_id, col_category_id | col_title, col_title
  | col_description, col_description | col_due_date_at, col_due_date_at
  | col_priority, col_priority | col_is_completed, col_is_completed
  | col_completed_at, col_completed_at | col_order_index, col_order_index
  | col_created_at, col_created_at | col_updated_at, col_updated_at => true
  | _, _ => false
  end.

(** A value bound to a statement parameter, or stored in a column. *)
Inductive sqlval :=
| VNull
| VInt (n : Z)
| VBool (b : bool)
| VText (s : string).

(** Typed views of a value, by column type. [None] is a type error or a
    [NOT NULL] violation. *)
Definition as_text (v : sqlval) : option string :=
  match v with VText s => Some s | _ => None end.

Definition as_int (v : sqlval) : option Z :=
  match v with VInt n => Some n | _ => None end.

Definition as_bool (v : sqlval) : option bool :=
  match v with VBool b => Some b | _ => None end.

Definition as_text_null (v : sqlval) : option (option string) :=
  match v with VNull => Some None | VText s => Some (Some s) | _ => None end.

Definition as_int_null (v : sqlval) : option (option Z) :=
  match v with VNull => Some None | VInt n => Some (Some n) | _ => None end.

Definition text_or_null (o : option string) : sqlval :=
  match o with Some s => VText s | None => VNull end.

Definition int_or_null (o : option Z) : sqlval :=
  match o with Some n => VInt n | None => VNull end.

(** Typed assignments to the columns of one row. *)
Definition with_id (x : string) (t : task) : task :=
  mkTask x (user_id t) (category_id t) (title t) (description t)
    (due_date_at t) (priority t) (is_completed t) (completed_at t)
    (order_index t) (created_at t) (updated_at t).

Definition with_user_id (x : string) (t : task) : task :=
  mkTask (id t) x (category_id t) (title t) (description t)
    (due_date_at t) (priority t) (is_completed t) (completed_at t)
    (order_index t) (created_at t) (updated_at t).

Definition with_category_id (x : option string) (t : task) : task :=
  mkTask (id t) (user_id t) x (title t) (description t)
    (due_date_at t) (priority t) (is_completed t) (completed_at t)
    (order_index t) (created_at t) (updated_at t).

Definition with_title (x : string) (t : task) : task :=
  mkTask (id t) (user_id t) (category_id t) x (description t)
    (due_date_at t) (priority t) (is_completed t) (completed_at t)
    (order_index t) (created_at t) (updated_at t).

Definition with_description (x : option string) (t : task) : task :=
  mkTask (id t) (user_id t) (category_id t) (title t) x
    (due_date_at t) (priority t) (is_completed t) (completed_at t)
    (order_index t) (created_at t) (updated_at t).

Definition with_due_date_at (x : option Z) (t : task) : task :=
  mkTask (id t) (user_id t) (category_id t) (title t) (description t)
    x (priority t) (is_completed t) (completed_at t)
    (order_index t) (created_at t) (updated_at t).

Definition with_priority (x : string) (t : task) : task :=
  mkTask (id t) (user_id t) (category_id t) (title t) (description t)
    (due_date_at t) x (is_completed t) (completed_at t)
    (order_index t) (created_at t) (updated_at t).

Definition with_is_completed (x : bool) (t : task) : task :=
  mkTask (id t) (user_id t) (category_id t) (title t) (description t)
    (due_date_at t) (priority t) x (completed_at t)
    (order_index t) (created_at t) (updated_at t).

Definition with_completed_at (x : option Z) (t : task) : task :=
  mkTask (id t) (user_id t) (category_id t) (title t) (description t)
    (due_date_at t) (priority t) (is_completed t) x
    (order_index t) (created_at t) (updated_at t).

Definition with_order_index (x : Z) (t : task) : task :=
  mkTask (id t) (user_id t) (category_id t) (title t) (description t)
    (due_date_at t) (priority t) (is_completed t) (completed_at t)
    x (created_at t) (updated_at t).

Definition with_created_at (x : Z) (t : task) : task :=
  mkTask (id t) (user_id t) (category_id t) (title t) (description t)
    (due_date_at t) (priority t) (is_completed t) (completed_at t)
    (order_index t) x (updated_at t).

Definition with_updated_at (x : Z) (t : task) : task :=
  mkTask (id t) (user_id t) (category_id t) (title t) (description t)
    (due_date_at t) (priority t) (is_completed t) (completed_at t)
    (order_index t) (created_at t) x.

(** [SET c = v] on one row: the value has to fit the type of the column. *)
Definition set_column (c : column) (v : sqlval) (t : task) : option task :=
  match c with
  | col_id => option_map (fun x => with_id x t) (as_text v)
  | col_user_id => option_map (fun x => with_user_id x t) (as_text v)
  | col_category_id =>
      option_map (fun x => with_category_id x t) (as_text_null v)
  | col_title => option_map (fun x => with_title x t) (as_text v)
  | col_description =>
      option_map (fun x => with_description x t) (as_text_null v)
  | col_due_date_at =>
      option_map (fun x => with_due_date_at x t) (as_int_null v)
  | col_priority => option_map (fun x => with_priority x t) (as_text v)
  | col_is_completed => option_map (fun x => with_is_completed x t) (as_bool v)
  | col_completed_at =>
      option_map (fun x => with_completed_at x t) (as_int_null v)
  | col_order_index => option_map (fun x => with_order_index x t) (as_int v)
  | col_created_at => option_map (fun x => with_created_at x t) (as_int v)
  | col_updated_at => option_map (fun x => with_updated_at x t) (as_int v)
  end.

(** ** Statements with a fixed text *)

(** [WHERE user_id = $1 AND is_completed = FALSE]: the active partition. *)
Definition is_active (userId : string) (t : task) : bool :=
  String.eqb (user_id t) userId && negb (is_completed t).

(** [WHERE id = $1 AND user_id = $2]. *)
Definition is_task (task_id userId : string) (t : task) : bool :=
  String.eqb (id t) task_id && String.eqb (user_id t) userId.

Definition sql_update (cond : task -> bool) (f : task -> task)
  (tbl : list task) : list task :=
  map (fun t => if cond t then f t else t) tbl.

Definition sql_delete (cond : task -> bool) (tbl : list task) : list task :=
  filter (fun t => negb (cond t)) tbl.

(** [SELECT MAX(order_index) FROM tasks WHERE user_id = $1 AND
    is_completed = FALSE]: [NULL] on no row. *)
Fixpoint max_of (l : list Z) : option Z :=
  match l with
  | [] => None
  | x :: l' =>
      match max_of l' with
      | None => Some x
      | Some m => Some (Z.max x m)
      end
  end.

Definition select_max_order_index (userId : string) (tbl : list task)
  : option Z :=
  max_of (map order_index (filter (is_active userId) tbl)).

(** ** Statements assembled at run time *)

(** The right-hand side of one [SET] item: [$n] or the literal [NULL]. *)
Inductive set_rhs :=
| Placeholder (n : nat)
| NullLiteral.

Definition set_item : Type := column * set_rhs.

Definition set_item_eqb (a b : set_item) : bool :=
  column_eqb (fst a) (fst b) &&
  match snd a, snd b with
  | Placeholder n, Placeholder m => Nat.eqb n m
  | NullLiteral, NullLiteral => true
  | _, _ => false
  end.

(** [$n] refers to the n-th bound parameter, counting from 1. *)
Definition param (params : list sqlval) (n : nat) : option sqlval :=
  match n with
  | O => None
  | S k => nth_error params k
  end.

Definition rhs_value (params : list sqlval) (r : set_rhs) : option sqlval :=
  match r with
  | Placeholder n => param params n
  | NullLiteral => Some VNull
  end.

Fixpoint has_dup (l : list column) : bool :=
  match l with
  | [] => false
  | c :: l' => existsb (column_eqb c) l' || has_dup l'
  end.

(** The highest [$n] of a [SET] list. *)
Fixpoint max_placeholder (items : list set_item) : nat :=
  match items with
  | [] => O
  | (_, Placeholder n) :: l => Nat.max n (max_placeholder l)
  | (_, NullLiteral) :: l => max_placeholder l
  end.

(** The [SET] list applied to one row, left to right. *)
Fixpoint apply_set (items : list set_item) (params : list sqlval) (t : task)
  : option task :=
  match items with
  | [] => Some t
  | (c, r) :: l =>
      match rhs_value params r with
      | None => None
      | Some v =>
          match set_column c v t with
          | None => None
          | Some t' => apply_set l params t'
          end
      end
  end.

Fixpoint update_rows (cond : task -> bool) (f : task -> option task)
  (tbl : list task) : option (list task) :=
  match tbl with
  | [] => Some []
  | t :: l =>
      match update_rows cond f l with
      | None => None
      | Some l' =>
          if cond t then
            match f t with
            | None => None
            | Some t' => Some (t' :: l')
            end
          else Some (t :: l')
      end
  end.

(** [UPDATE tasks SET <items> WHERE id = $1 AND user_id = $2 RETURNING ..]
    with the parameters bound. PostgreSQL rejects the statement when two
    items assign the same column ("multiple assignments to same column"),
    and the bind step fails when the number of parameters differs from the
    highest placeholder. The result is the new table and the returned
    rows; [None] is an error raised by the server. *)
Definition exec_update_task (items : list set_item) (params : list sqlval)
  (tbl : list task) : option (list task * list task) :=
  if has_dup (map fst items) then None
  else if negb (Nat.eqb (List.length params) (Nat.max 2 (max_placeholder items)))
  then None
  else
    match param params 1, param params 2 with
    | Some (VText task_id), Some (VText userId) =>
        match update_rows (is_task task_id userId)
                (apply_set items params) tbl with
        | None => None
        | Some tbl' => Some (tbl', filter (is_task task_id userId) tbl')
        end
    | _, _ => None
    end.

(** A row built from the column list and the values of an [INSERT]. An
    omitted column takes its default ([priority], [is_completed]) or
    [NULL]. *)
Fixpoint lookup_col (c : column) (l : list (column * sqlval)) : option sqlval :=
  match l with
  | [] => None
  | (c', v) :: l' => if column_eqb c c' then Some v else lookup_col c l'
  end.

Definition col_or (d : sqlval) (c : column) (l : list (column * sqlval))
  : sqlval :=
  match lookup_col c l with Some v => v | None => d end.

Definition row_of (l : list (column * sqlval)) : option task :=
  match as_text (col_or VNull col_id l),
        as_text (col_or VNull col_user_id l),
        as_text_null (col_or VNull col_category_id l),
        as_text (col_or VNull col_title l),
        as_text_null (col_or VNull col_description l),
        as_int_null (col_or VNull col_due_date_at l) with
  | Some a, Some b, Some c, Some d, Some e, Some f =>
      match as_text (col_or (VText "medium") col_priority l),
            as_bool (col_or (VBool false) col_is_completed l),
            as_int_null (col_or VNull col_completed_at l),
            as_int (col_or VNull col_order_index l),
            as_int (col_or VNull col_created_at l),
            as_int (col_or VNull col_updated_at l) with
      | Some g, Some h, Some i, Some j, Some k, Some m =>
          Some (mkTask a b c d e f g h i j k m)
      | _, _, _, _, _, _ => None
      end
  | _, _, _, _, _, _ => None
  end.

Fixpoint all_some {A : Type} (l : list (option A)) : option (list A) :=
  match l with
  | [] => Some []
  | None :: _ => None
  | Some a :: l' => option_map (cons a) (all_some l')
  end.

(** [INSERT INTO tasks (<columns>) VALUES ($.., ..) RETURNING ..]. The
    statement is rejected when the [VALUES] list is not as long as the
    column list ("INSERT has more target columns than expressions"), the
    bind step fails when the number of parameters differs from the highest
    placeholder, and the primary key rejects a second row with the same
    [id]. *)
Definition exec_insert_task (columns : list column) (values : list nat)
  (params : list sqlval) (tbl : list task) : option (list task * list task) :=
  if negb (Nat.eqb (List.length columns) (List.length values)) then None
  else if negb (Nat.eqb (List.length params) (fold_right Nat.max O values))
  then None
  else
    match all_some (map (param params) values) with
    | None => None
    | Some vs =>
        match row_of (combine columns vs) with
        | None => None
        | Some row =>
            if existsb (fun t => String.eqb (id t) (id row)) tbl then None
            else Some (tbl ++ [row], [row])
        end
    end.

(* ===================================================================== *)
(** * The pooled connection *)
(* ===================================================================== *)

(** What one connection sees: the committed rows of [categories] and of
    [tasks] and, while a transaction is open, the rows of both tables as
    the transaction has them. [client.release()] returns the connection to
    the pool as it is. *)
Record conn := mkConn {
  committed_categories : list category;
  committed : list task;
  pending : option (list category * list task)
}.

(** A connection with no transaction open. *)
Definition idle (cats : list category) (tbl : list task) : conn :=
  mkConn cats tbl None.

(** The rows of [tasks], resp. of [categories], that a statement on this
    connection reads. *)
Definition view (c : conn) : list task :=
  match pending c with
  | Some (_, tbl) => tbl
  | None => committed c
  end.

Definition categories (c : conn) : list category :=
  match pending c with
  | Some (cats, _) => cats
  | None => committed_categories c
  end.

(** A statement that writes [tasks]: inside the open transaction if there
    is one, committed at once otherwise. *)
Definition write (tbl : list task) (c : conn) : conn :=
  match pending c with
  | Some (cats, _) =>
      mkConn (committed_categories c) (committed c) (Some (cats, tbl))
  | None => mkConn (committed_categories c) tbl None
  end.

(** [BEGIN] inside a transaction is answered by a warning and changes
    nothing. *)
Definition begin_conn (c : conn) : conn :=
  match pending c with
  | Some _ => c
  | None =>
      mkConn (committed_categories c) (committed c)
        (Some (committed_categories c, committed c))
  end.

Definition commit_conn (c : conn) : conn :=
  match pending c with
  | Some (cats, tbl) => mkConn cats tbl None
  | None => c
  end.

Definition rollback_conn (c : conn) : conn :=
  mkConn (committed_categories c) (committed c) None.

(** ** Responses *)

Inductive error_message :=
| ValidationError            (* 'Validation Error', code VALIDATION_FAILED *)
| CategoryNotFound           (* code CATEGORY_NOT_FOUND *)
| TaskNotFound               (* 'Task not found or does not belong to user.' *)
| OrderIndexNegative         (* 'Order index cannot be negative.' *)
| OrderIndexOutOfBounds (newIndex maxAllowable : Z)
| InternalServerError.

Inductive response :=
| Json (status : Z) (row : task)
| NoContent                                   (* 204 *)
| Failure (status : Z) (message : error_message).

(** ** The handler monad *)

Inductive exn := ZodError | DatabaseError | TypeError.

Inductive outcome (A : Type) :=
| Val (a : A)
| Return (r : response)
| Throw (e : exn).

Arguments Val {A} a.
Arguments Return {A} r.
Arguments Throw {A} e.

Definition M (A : Type) : Type := conn -> outcome A * conn.

Definition ret {A : Type} (a : A) : M A := fun c => (Val a, c).

Definition bind {A B : Type} (m : M A) (k : A -> M B) : M B :=
  fun c =>
    match m c with
    | (Val a, c') => k a c'
    | (Return r, c') => (Return r, c')
    | (Throw e, c') => (Throw e, c')
    end.

Notation "x <- m ;; k" := (bind m (fun x => k))
  (at level 61, m at next level, right associativity).
Notation "m ;; k" := (bind m (fun _ => k))
  (at level 61, right associativity).

(** [return res.status(..).json(..)] *)
Definition reply {A : Type} (r : response) : M A := fun c => (Return r, c).

Definition throw {A : Type} (e : exn) : M A := fun c => (Throw e, c).

(** [schema.parse(..)] throws a [ZodError] on an invalid input. *)
Definition parse {A : Type} (o : option A) : M A :=
  match o with
  | Some a => ret a
  | None => throw ZodError
  end.

Definition BEGIN : M unit := fun c => (Val tt, begin_conn c).
Definition COMMIT : M unit := fun c => (Val tt, commit_conn c).
Definition ROLLBACK : M unit := fun c => (Val tt, rollback_conn c).

(** [client.query] of a [SELECT] on [tasks], resp. [categories]. *)
Definition query {A : Type} (f : list task -> A) : M A :=
  fun c => (Val (f (view c)), c).

Definition query_categories {A : Type} (f : list category -> A) : M A :=
  fun c => (Val (f (categories c)), c).

(** [client.query] of a fixed [UPDATE] or [DELETE]. *)
Definition execute (f : list task -> list task) : M unit :=
  fun c => (Val tt, write (f (view c)) c).

(** [client.query] of a statement that may be rejected and that returns
    rows. *)
Definition execute_returning
  (f : list task -> option (list task * list task)) : M (list task) :=
  fun c =>
    match f (view c) with
    | Some (tbl, rows) => (Val rows, write tbl c)
    | None => (Throw DatabaseError, c)
    end.

(** [try { body } catch (error) { handler }]: the three handlers roll back
    in their [catch] block and answer by the kind of the error. *)
Definition try_catch (body : M response) (handler : exn -> response)
  : conn -> response * conn :=
  fun c =>
    match body c with
    | (Val r, c') => (r, c')
    | (Return r, c') => (r, c')
    | (Throw e, c') => (handler e, rollback_conn c')
    end.

(* ===================================================================== *)
(** * The input schemas (Zod) *)
(* ===================================================================== *)

(** A JSON value of the request body. [JFrac] is a number that is not an
    integer, [JOther] an array or an object. *)
Inductive json :=
| JNull
| JBool (b : bool)
| JInt (n : Z)
| JFrac
| JStr (s : string)
| JOther.

(** A key parsed by [z.coerce.date()]: absent, [null], or a value given by
    what [new Date(value)] makes of it: the time in milliseconds, or [None]
    for an invalid date. *)
Inductive date_field :=
| DAbsent
| DNull
| DValue (coerced : option Z).

(** The keys of a request body that the task schemas know; [None] is an
    absent key. *)
Record body := mkBody {
  b_category_id : option json;
  b_title : option json;
  b_description : option json;
  b_due_date_at : date_field;
  b_priority : option json;
  b_is_completed : option json;
  b_completed_at : date_field;
  b_order_index : option json
}.

(** [z.string()] with [.min(lo)] and [.max(hi)]. *)
Definition z_string (lo : nat) (hi : option nat) (j : json) : option string :=
  match j with
  | JStr s =>
      if Nat.leb lo (String.length s) &&
         match hi with
         | Some h => Nat.leb (String.length s) h
         | None => true
         end
      then Some s else None
  | _ => None
  end.

(** [taskPriorityEnum] *)
Definition z_priority (j : json) : option string :=
  match j with
  | JStr s =>
      if String.eqb s "low" || String.eqb s "medium" || String.eqb s "high"
      then Some s else None
  | _ => None
  end.

Definition z_boolean (j : json) : option bool :=
  match j with JBool b => Some b | _ => None end.

(** [z.number().int().nonnegative()] *)
Definition z_index (j : json) : option Z :=
  match j with
  | JInt n => if 0 <=? n then Some n else None
  | _ => None
  end.

(** [.nullable()], [.optional()] and a required key. The outer [option] of
    a parsed optional key is [undefined], the inner one of a nullable key
    is [null]. *)
Definition z_nullable {A : Type} (p : json -> option A) (j : json)
  : option (option A) :=
  match j with
  | JNull => Some None
  | _ => option_map Some (p j)
  end.

Definition z_optional {A : Type} (p : json -> option A) (o : option json)
  : option (option A) :=
  match o with
  | None => Some None
  | Some j => option_map Some (p j)
  end.

Definition z_required {A : Type} (p : json -> option A) (o : option json)
  : option A :=
  match o with
  | None => None
  | Some j => p j
  end.

(** [z.coerce.date().nullable().optional()] *)
Definition z_date (d : date_field) : option (option (option Z)) :=
  match d with
  | DAbsent => Some None
  | DNull => Some (Some None)
  | DValue (Some ms) => Some (Some (Some ms))
  | DValue None => None
  end.

Record CreateTaskInput := mkCreateTaskInput {
  new_category_id : option (option string);
  new_title : string;
  new_description : option (option string);
  new_due_date_at : option (option Z);
  new_priority : option string;
  new_order_index : Z
}.

Definition createTaskInputSchema (b : body) : option CreateTaskInput :=
  match z_optional (z_nullable (z_string 0 None)) (b_category_id b),
        z_required (z_string 1 (Some 255%nat)) (b_title b),
        z_optional (z_nullable (z_string 0 (Some 5000%nat))) (b_description b),
        z_date (b_due_date_at b),
        z_optional z_priority (b_priority b),
        z_required z_index (b_order_index b) with
  | Some c, Some t, Some d, Some due, Some p, Some i =>
      Some (mkCreateTaskInput c t d due p i)
  | _, _, _, _, _, _ => None
  end.

Record UpdateTaskInput := mkUpdateTaskInput {
  upd_category_id : option (option string);
  upd_title : option string;
  upd_description : option (option string);
  upd_due_date_at : option (option Z);
  upd_priority : option string;
  upd_is_completed : option bool;
  upd_completed_at : option (option Z);
  upd_order_index : option Z
}.

Definition updateTaskInputSchema (b : body) : option UpdateTaskInput :=
  match z_optional (z_nullable (z_string 0 None)) (b_category_id b),
        z_optional (z_string 1 (Some 255%nat)) (b_title b),
        z_optional (z_nullable (z_string 0 (Some 5000%nat))) (b_description b),
        z_date (b_due_date_at b) with
  | Some c, Some t, Some d, Some due =>
      match z_optional z_priority (b_priority b),
            z_optional z_boolean (b_is_completed b),
            z_date (b_completed_at b),
            z_optional z_index (b_order_index b) with
      | Some p, Some done, Some at_, Some i =>
          Some (mkUpdateTaskInput c t d due p done at_ i)
      | _, _, _, _ => None
      end
  | _, _, _, _ => None
  end.

(* ===================================================================== *)
(** * The handlers *)
(* ===================================================================== *)

(** [taskSchema.parse] of a returned row. The strings, the boolean and
    the integer of a row are what the schema asks for and every timestamp
    becomes a date, so that the parse throws exactly on a [priority]
    outside [taskPriorityEnum]. *)
Definition taskSchema (row : task) : bool :=
  String.eqb (priority row) "low" || String.eqb (priority row) "medium" ||
  String.eqb (priority row) "high".

(** [fromUnixTimestamp] of a number: 0 is falsy and gives [null]. *)
Definition fromUnixTimestamp (timestamp : Z) : option Z :=
  if timestamp =? 0 then None else Some timestamp.

(** [fromUnixTimestamp(Number(x))] of a nullable column: [Number(null)]
    is 0. *)
Definition fromUnixTimestamp_Number (x : option Z) : option Z :=
  match x with
  | Some timestamp => fromUnixTimestamp timestamp
  | None => None
  end.

(** [rows[0]] of a query result; reading a column of [undefined] throws. *)
Definition first_row (rows : list task) : M task :=
  match rows with
  | row :: _ => ret row
  | [] => throw TypeError
  end.

(** [SELECT 1 FROM categories WHERE id = $1 AND user_id = $2] *)
Definition select_category (category_id userId : string)
  (cats : list category) : list category :=
  filter (fun k => String.eqb (cat_id k) category_id &&
                   String.eqb (cat_user_id k) userId) cats.

(** [x || null] and [x || 'medium'] on a string that may be [undefined] or
    [null]: the empty string is falsy. *)
Definition truthy (o : option (option string)) : option string :=
  match o with
  | Some (Some s) => if String.eqb s EmptyString then None else Some s
  | _ => None
  end.

(** [toUnixTimestamp] of a parsed date key. *)
Definition toUnixTimestamp (d : option (option Z)) : sqlval :=
  match d with
  | Some (Some ms) => VInt ms
  | _ => VNull
  end.

(** [x || -1] on the [max] column of a [SELECT MAX(..)] row: [null] and the
    number 0 are both falsy. *)
Definition or_minus_one (m : option Z) : Z :=
  match m with
  | None => -1
  | Some n => if n =? 0 then -1 else n
  end.

(** ** POST /api/tasks *)

(** The column list and the [VALUES] list of [insertTaskQuery]. *)
Definition insertTaskQuery_columns : list column :=
  [col_id; col_user_id; col_category_id; col_title; col_description;
   col_due_date_at; col_priority; col_is_completed; col_completed_at;
   col_order_index; col_created_at; col_updated_at].

Definition insertTaskQuery_values : list nat :=
  [1; 2; 3; 4; 5; 6; 7; 8; 9; 10; 11]%nat.

(** The array of parameters passed with [insertTaskQuery]. *)
Definition insertTaskParams (taskId userId : string) (input : CreateTaskInput)
  (now : Z) : list sqlval :=
  [ VText taskId;
    VText userId;
    match new_category_id input with
    | Some (Some s) => VText s
    | _ => VNull
    end;
    VText (new_title input);
    text_or_null (truthy (new_description input));
    toUnixTimestamp (new_due_date_at input);
    VText (match new_priority input with Some p => p | None => "medium" end);
    VBool false;
    VNull;
    VInt 0;
    VInt now;
    VInt now ].

(** The body of the 201 answer is the returned row with
    [fromUnixTimestamp(Number(..))] on its timestamps, passed through
    [taskSchema.parse]: a [due_date_at] or [completed_at] of 0 is answered
    as [null]; [created_at] and [updated_at] are not nullable and
    [z.coerce.date()] makes the date of 0 of a [null]. *)
Definition create_task (userId : string) (b : body) (taskId : string)
  (now : Z) : conn -> response * conn :=
  try_catch
    (input <- parse (createTaskInputSchema b) ;;
     match truthy (new_category_id input) with
     | Some category_id =>
         categoryResult <- query_categories (select_category category_id userId) ;;
         match categoryResult with
         | [] => reply (Failure 400 CategoryNotFound)
         | _ :: _ => ret tt
         end
     | None => ret tt
     end ;;
     BEGIN ;;
     execute (sql_update (is_active userId)
                (fun t => with_order_index (order_index t + 1) t)) ;;
     taskResult <- execute_returning
       (exec_insert_task insertTaskQuery_columns insertTaskQuery_values
          (insertTaskParams taskId userId input now)) ;;
     COMMIT ;;
     row <- first_row taskResult ;;
     let answer :=
       with_completed_at (fromUnixTimestamp_Number (completed_at row))
         (with_due_date_at (fromUnixTimestamp_Number (due_date_at row))
            row) in
     (if taskSchema answer then ret tt else throw ZodError) ;;
     ret (Json 201 answer))
    (fun error =>
       match error with
       | ZodError => Failure 400 ValidationError
       | _ => Failure 500 InternalServerError
       end).

(** ** PATCH /api/tasks/:task_id *)

(** [queryParts], [queryParams] and [paramIndex]. *)
Record query_builder := mkBuilder {
  queryParts : list set_item;
  queryParams : list sqlval;
  paramIndex : nat
}.

(** [queryParts.push(`c = $${paramIndex++}`); queryParams.push(v)] *)
Definition push (c : column) (v : sqlval) (q : query_builder)
  : query_builder :=
  mkBuilder (queryParts q ++ [(c, Placeholder (paramIndex q))])
            (queryParams q ++ [v])
            (S (paramIndex q)).

(** [queryParts.push(`c = NULL`)] *)
Definition push_null (c : column) (q : query_builder) : query_builder :=
  mkBuilder (queryParts q ++ [(c, NullLiteral)]) (queryParams q)
            (paramIndex q).

(** [if (updateFields.k !== undefined) { push .. }] *)
Definition push_if {A : Type} (o : option A) (c : column) (f : A -> sqlval)
  (q : query_builder) : query_builder :=
  match o with
  | Some a => push c (f a) q
  | None => q
  end.

(** The block [if (updateFields.is_completed !== undefined) { .. }]. *)
Definition completion_part (userId : string) (updateFields : UpdateTaskInput)
  (currentTask : task) (now : Z) (q : query_builder) : M query_builder :=
  match upd_is_completed updateFields with
  | None => ret q
  | Some newIsCompleted =>
      let oldIsCompleted := is_completed currentTask in
      let q := push col_is_completed (VBool newIsCompleted) q in
      match newIsCompleted, oldIsCompleted with
      | true, false =>
          ret (push col_completed_at (VInt now) q)
      | false, true =>
          let q := push_null col_completed_at q in
          maxOrderResult <- query (select_max_order_index userId) ;;
          let newOrderIndexForIncomplete := or_minus_one maxOrderResult + 1 in
          ret (push col_order_index (VInt newOrderIndexForIncomplete) q)
      | true, true =>
          ret q
      | false, false =>
          ret (push_null col_completed_at q)
      end
  end.

(** The condition of the reorder block: [order_index] is provided, differs
    from the stored one, and the task is or remains incomplete. *)
Definition reorder_requested (updateFields : UpdateTaskInput)
  (currentTask : task) : option Z :=
  match upd_order_index updateFields with
  | Some newIndex =>
      if negb (newIndex =? order_index currentTask) &&
         match upd_is_completed updateFields with
         | Some false => true
         | Some true => false
         | None => negb (is_completed currentTask)
         end
      then Some newIndex else None
  | None => None
  end.

(** [UPDATE tasks SET order_index = order_index + 1 WHERE user_id = $1 AND
    is_completed = FALSE AND order_index >= $2 AND order_index < $3 AND
    id != $4] with [[userId, newIndex, oldIndex, task_id]]. *)
Definition shift_down (userId : string) (newIndex oldIndex : Z)
  (task_id : string) : list task -> list task :=
  sql_update
    (fun t => is_active userId t && (newIndex <=? order_index t) &&
              (order_index t <? oldIndex) && negb (String.eqb (id t) task_id))
    (fun t => with_order_index (order_index t + 1) t).

(** [UPDATE tasks SET order_index = order_index - 1 WHERE user_id = $1 AND
    is_completed = FALSE AND order_index > $2 AND order_index <= $3 AND
    id != $4] with [[userId, oldIndex, newIndex, task_id]]. *)
Definition shift_up (userId : string) (oldIndex newIndex : Z)
  (task_id : string) : list task -> list task :=
  sql_update
    (fun t => is_active userId t && (oldIndex <? order_index t) &&
              (order_index t <=? newIndex) && negb (String.eqb (id t) task_id))
    (fun t => with_order_index (order_index t - 1) t).

(** The block [if (updateFields.order_index !== undefined && ..) { .. }]. *)
Definition reorder_part (userId task_id : string)
  (updateFields : UpdateTaskInput) (currentTask : task) (q : query_builder)
  : M query_builder :=
  match reorder_requested updateFields currentTask with
  | None => ret q
  | Some newIndex =>
      let oldIndex := order_index currentTask in
      if newIndex <? 0 then reply (Failure 400 OrderIndexNegative)
      else
        maxOrderResult <- query (select_max_order_index userId) ;;
        let maxOrderIndex := or_minus_one maxOrderResult in
        if maxOrderIndex + 1 <? newIndex
        then reply (Failure 400
                      (OrderIndexOutOfBounds newIndex (maxOrderIndex + 1)))
        else
          BEGIN ;;
          (if newIndex <? oldIndex
           then execute (shift_down userId newIndex oldIndex task_id)
           else execute (shift_up userId oldIndex newIndex task_id)) ;;
          ret (push col_order_index (VInt newIndex) q)
  end.

(** The handler from [let queryParts = []] on: the SET list, the UPDATE
    and the answer. The columns of the returned row are text, booleans,
    numbers and, for a BIGINT, the digits as text, which
    [fromUnixTimestamp] takes for a date whatever the number: the body of a
    200 answer is the row as it is stored, if [taskSchema.parse] lets it
    through. *)
Definition build_and_run_update (userId task_id : string)
  (updateFields : UpdateTaskInput) (currentTask : task) (now : Z)
  : M response :=
  let q := mkBuilder [] [VText task_id; VText userId] 3 in
  let q := push_if (upd_title updateFields) col_title VText q in
  let q := push_if (upd_description updateFields) col_description
             text_or_null q in
  let q := push_if (upd_due_date_at updateFields) col_due_date_at
             int_or_null q in
  let q := push_if (upd_priority updateFields) col_priority VText q in
  q <- completion_part userId updateFields currentTask now q ;;
  q <- reorder_part userId task_id updateFields currentTask q ;;
  let q := push_if (upd_category_id updateFields) col_category_id
             text_or_null q in
  let q := push col_updated_at (VInt now) q in
  result <- execute_returning
    (exec_update_task (queryParts q) (queryParams q)) ;;
  match result with
  | [] => ROLLBACK ;; reply (Failure 404 TaskNotFound)
  | row :: _ =>
      (if existsb
            (set_item_eqb (col_order_index, Placeholder (paramIndex q - 1)))
            (queryParts q)
       then COMMIT else ret tt) ;;
      (if taskSchema row then ret tt else throw ZodError) ;;
      ret (Json 200 row)
  end.

Definition update_task (userId task_id : string) (b : body) (now : Z)
  : conn -> response * conn :=
  try_catch
    (updateFields <- parse (updateTaskInputSchema b) ;;
     currentTaskResult <- query (filter (is_task task_id userId)) ;;
     match currentTaskResult with
     | [] => reply (Failure 404 TaskNotFound)
     | currentTask :: _ =>
         match upd_category_id updateFields with
         | Some (Some category_id) =>
             categoryResult <-
               query_categories (select_category category_id userId) ;;
             match categoryResult with
             | [] => reply (Failure 400 CategoryNotFound)
             | _ :: _ => ret tt
             end
         | _ => ret tt
         end ;;
         build_and_run_update userId task_id updateFields currentTask now
     end)
    (fun error =>
       match error with
       | ZodError => Failure 400 ValidationError
       | _ => Failure 500 InternalServerError
       end).

(** ** DELETE /api/tasks/:task_id *)

(** [client.query] of a [DELETE]; the value is [rowCount]. *)
Definition execute_delete (cond : task -> bool) : M nat :=
  fun c => (Val (List.length (filter cond (view c))),
            write (sql_delete cond (view c)) c).

Definition delete_task (userId task_id : string) : conn -> response * conn :=
  try_catch
    (BEGIN ;;
     taskToDeleteResult <- query (filter (is_task task_id userId)) ;;
     match taskToDeleteResult with
     | [] => ROLLBACK ;; reply (Failure 404 TaskNotFound)
     | taskToDelete :: _ =>
         rowCount <- execute_delete (is_task task_id userId) ;;
         if Nat.eqb rowCount 0
         then ROLLBACK ;; reply (Failure 404 TaskNotFound)
         else
           (if negb (is_completed taskToDelete)
            then execute (sql_update
                   (fun t => is_active userId t &&
                             (order_index taskToDelete <? order_index t))
                   (fun t => with_order_index (order_index t - 1) t))
            else ret tt) ;;
           COMMIT ;;
           ret NoContent
     end)
    (fun _ => Failure 500 InternalServerError).

(** ** Requests one after the other on the pooled connection *)

Inductive request :=
| POST_tasks (userId : string) (b : body) (taskId : string) (now : Z)
| PATCH_task (userId task_id : string) (b : body) (now : Z)
| DELETE_task (userId task_id : string).

Definition handle (r : request) (c : conn) : response * conn :=
  match r with
  | POST_tasks userId b taskId now => create_task userId b taskId now c
  | PATCH_task userId task_id b now => update_task userId task_id b now c
  | DELETE_task userId task_id => delete_task userId task_id c
  end.

Fixpoint run (rs : list request) (c : conn) : conn :=
  match rs with
  | [] => c
  | r :: rs' => run rs' (snd (handle r c))
  end.

Unset Implicit Arguments.

(* ===================================================================== *)
(** * Properties of the ordering *)
(* ===================================================================== *)

(** The [order_index] values of a user's incomplete tasks. *)
Definition active_indices (userId : string) (tbl : list task) : list Z :=
  map order_index (filter (is_active userId) tbl).

(** Invariant I1: the active indices are exactly [0 .. N-1], each once. *)
Definition dense (userId : string) (tbl : list task) : Prop :=
  NoDup (active_indices userId tbl) /\
  forall z, In z (active_indices userId tbl) <->
            0 <= z < Z.of_nat (List.length (active_indices userId tbl)).

(** Invariant I3 on one row. *)
Definition completion_consistent (t : task) : Prop :=
  is_completed t = true <-> completed_at t <> None.

(** What a deletion leaves as the index of a remaining row [t], when the
    deleted row was [gone]. *)
Definition index_after_delete (userId : string) (gone t : task) : Z :=
  if negb (is_completed gone) && is_active userId t &&
     (order_index gone <? order_index t)
  then order_index t - 1
  else order_index t.

(** What an accepted reorder of the row [task_id] from [oldIndex] to
    [newIndex] leaves as the index of a row [t]. *)
Definition index_after_reorder (userId task_id : string)
  (oldIndex newIndex : Z) (t : task) : Z :=
  if is_task task_id userId t then newIndex
  else if is_active userId t && (newIndex <=? order_index t) &&
          (order_index t <? oldIndex)
  then order_index t + 1
  else if is_active userId t && (oldIndex <? order_index t) &&
          (order_index t <=? newIndex)
  then order_index t - 1
  else order_index t.

(** ** Sample data *)

Definition sample (i u : string) (done : bool) (at_ : option Z) (k : Z)
  : task :=
  mkTask i u None i None None "medium" done at_ k 1678886600000 1678886600000.

Definition no_keys : body :=
  mkBody None None None DAbsent None None DAbsent None.

Definition with_key_is_completed (v : bool) (b : body) : body :=
  mkBody (b_category_id b) (b_title b) (b_description b) (b_due_date_at b)
    (b_priority b) (Some (JBool v)) (b_completed_at b) (b_order_index b).

Definition with_key_order_index (n : Z) (b : body) : body :=
  mkBody (b_category_id b) (b_title b) (b_description b) (b_due_date_at b)
    (b_priority b) (b_is_completed b) (b_completed_at b) (Some (JInt n)).

Definition with_key_title (s : string) (b : body) : body :=
  mkBody (b_category_id b) (Some (JStr s)) (b_description b)
    (b_due_date_at b) (b_priority b) (b_is_completed b) (b_completed_at b)
    (b_order_index b).

Definition with_key_completed_at (d : date_field) (b : body) : body :=
  mkBody (b_category_id b) (b_title b) (b_description b) (b_due_date_at b)
    (b_priority b) (b_is_completed b) d (b_order_index b).

(** Three active tasks and a completed one of the user ["u"]. *)
Definition abc_d : list task :=
  [ sample "A" "u" false None 0;
    sample "B" "u" false None 1;
    sample "C" "u" false None 2;
    sample "D" "u" true (Some 1679000000000) 5 ].

(** One active task and a completed one. *)
Definition a_d : list task :=
  [ sample "A" "u" false None 0;
    sample "D" "u" true (Some 1679000000000) 5 ].

(** The ids and indices of the incomplete rows of a user. *)
Definition active_view (userId : string) (tbl : list task)
  : list (string * Z) :=
  map (fun t => (id t, order_index t)) (filter (is_active userId) tbl).

(** ** The meaning of a SET list *)

(** The items of a SET list with their placeholders replaced by the bound
    values. *)
Fixpoint resolve (items : list set_item) (params : list sqlval)
  : option (list (column * sqlval)) :=
  match items with
  | [] => Some []
  | (c, r) :: l =>
      match rhs_value params r, resolve l params with
      | Some v, Some a => Some ((c, v) :: a)
      | _, _ => None
      end
  end.

Fixpoint assign_all (a : list (column * sqlval)) (t : task) : option task :=
  match a with
  | [] => Some t
  | (c, v) :: l =>
      match set_column c v t with
      | None => None
      | Some t' => assign_all l t'
      end
  end.

(** A builder that stands for the assignments [a] of the UPDATE of the row
    [task_id] of [userId]. *)
Record builds (task_id userId : string) (q : query_builder)
  (a : list (column * sqlval)) : Prop := mkBuilds {
  builds_index : paramIndex q = S (List.length (queryParams q));
  builds_where :
    exists rest, queryParams q = VText task_id :: VText userId :: rest;
  builds_range :
    Forall (fun it : set_item =>
              match snd it with
              | Placeholder n => (3 <= n < paramIndex q)%nat
              | NullLiteral => True
              end) (queryParts q);
  builds_values : resolve (queryParts q) (queryParams q) = Some a
}.

Definition assignment_if {A : Type} (o : option A) (c : column)
  (f : A -> sqlval) : list (column * sqlval) :=
  match o with
  | Some x => [(c, f x)]
  | None => []
  end.

(** The assignments of the completion block; [appended] is the index
    computed for a task that becomes incomplete. *)
Definition completion_assignments (f : UpdateTaskInput) (currentTask : task)
  (now appended : Z) : list (column * sqlval) :=
  match upd_is_completed f with
  | None => []
  | Some true =>
      if is_completed currentTask
      then [(col_is_completed, VBool true)]
      else [(col_is_completed, VBool true); (col_completed_at, VInt now)]
  | Some false =>
      if is_completed currentTask
      then [(col_is_completed, VBool false); (col_completed_at, VNull);
            (col_order_index, VInt appended)]
      else [(col_is_completed, VBool false); (col_completed_at, VNull)]
  end.

Definition update_assignments (f : UpdateTaskInput) (currentTask : task)
  (now appended : Z) (moved : option Z) : list (column * sqlval) :=
  ((((((assignment_if (upd_title f) col_title VText ++
        assignment_if (upd_description f) col_description text_or_null) ++
       assignment_if (upd_due_date_at f) col_due_date_at int_or_null) ++
      assignment_if (upd_priority f) col_priority VText) ++
     completion_assignments f currentTask now appended) ++
    assignment_if moved col_order_index VInt) ++
   assignment_if (upd_category_id f) col_category_id text_or_null) ++
  [(col_updated_at, VInt now)].

(** ** The row an accepted update leaves *)

Definition set_if {A : Type} (o : option A) (f : A -> task -> task)
  (t : task) : task :=
  match o with
  | Some x => f x t
  | None => t
  end.

Definition completion_row (f : UpdateTaskInput) (currentTask : task)
  (now appended : Z) (t : task) : task :=
  match upd_is_completed f with
  | None => t
  | Some true =>
      if is_completed currentTask
      then with_is_completed true t
      else with_completed_at (Some now) (with_is_completed true t)
  | Some false =>
      if is_completed currentTask
      then with_order_index appended
             (with_completed_at None (with_is_completed false t))
      else with_completed_at None (with_is_completed false t)
  end.

Definition updated_row (f : UpdateTaskInput) (currentTask : task)
  (now appended : Z) (moved : option Z) (t : task) : task :=
  with_updated_at now
    (set_if (upd_category_id f) with_category_id
       (set_if moved with_order_index
          (completion_row f currentTask now appended
             (set_if (upd_priority f) with_priority
                (set_if (upd_due_date_at f) with_due_date_at
                   (set_if (upd_description f) with_description
                      (set_if (upd_title f) with_title t))))))).

(** The shift an accepted reorder sends before the UPDATE. *)
Definition reorder_shift (userId task_id : string) (oldIndex newIndex : Z)
  : list task -> list task :=
  if newIndex <? oldIndex
  then shift_down userId newIndex oldIndex task_id
  else shift_up userId oldIndex newIndex task_id.

(** The table an accepted PATCH leaves, from the table [tbl] it read. *)
Definition patched (userId task_id : string) (f : UpdateTaskInput)
  (currentTask : task) (now : Z) (tbl : list task) : list task :=
  let appended := or_minus_one (select_max_order_index userId tbl) + 1 in
  match reorder_requested f currentTask with
  | None =>
      sql_update (is_task task_id userId)
        (updated_row f currentTask now appended None) tbl
  | Some newIndex =>
      sql_update (is_task task_id userId)
        (updated_row f currentTask now appended (Some newIndex))
        (reorder_shift userId task_id (order_index currentTask) newIndex tbl)
  end.

(** The connection with the rows [tbl] of [tasks] in a transaction: the
    open one if there is one, a new one otherwise. *)
Definition in_transaction (tbl : list task) (c : conn) : conn :=
  mkConn (committed_categories c) (committed c) (Some (categories c, tbl)).

(** The connection after the UPDATE of a PATCH: a reorder opens a
    transaction and the handler does not commit it. *)
Definition patched_conn (userId task_id : string) (f : UpdateTaskInput)
  (currentTask : task) (now : Z) (c : conn) : conn :=
  match reorder_requested f currentTask with
  | None => write (patched userId task_id f currentTask now (view c)) c
  | Some _ =>
      in_transaction (patched userId task_id f currentTask now (view c)) c
  end.

(** The row that the UPDATE of a PATCH returns. *)
Definition returned_row (userId : string) (f : UpdateTaskInput)
  (currentTask : task) (now : Z) (c : conn) : task :=
  updated_row f currentTask now
    (or_minus_one (select_max_order_index userId (view c)) + 1)
    (reorder_requested f currentTask) currentTask.

(** The four ways a PATCH ends: refused with the connection untouched,
    failed and rolled back, accepted, or sent and then rolled back
    because the returned row does not pass [taskSchema]. An accepted
    reorder is one of an incomplete task to an index the bounds check lets
    through. *)
Inductive patch_result (userId task_id : string) (b : body) (now : Z)
  (c : conn) : response * conn -> Prop :=
| patch_refused (status : Z) (message : error_message) :
    patch_result userId task_id b now c (Failure status message, c)
| patch_failed (status : Z) (message : error_message) :
    patch_result userId task_id b now c
      (Failure status message, rollback_conn c)
| patch_accepted (f : UpdateTaskInput) (currentTask : task)
    (rest : list task) :
    updateTaskInputSchema b = Some f ->
    filter (is_task task_id userId) (view c) = currentTask :: rest ->
    match reorder_requested f currentTask with
    | Some newIndex =>
        is_completed currentTask = false /\
        0 <= newIndex <=
          or_minus_one (select_max_order_index userId (view c)) + 1
    | None => True
    end ->
    taskSchema (returned_row userId f currentTask now c) = true ->
    patch_result userId task_id b now c
      (Json 200 (returned_row userId f currentTask now c),
       patched_conn userId task_id f currentTask now c)
| patch_unanswered (f : UpdateTaskInput) (currentTask : task)
    (rest : list task) :
    updateTaskInputSchema b = Some f ->
    filter (is_task task_id userId) (view c) = currentTask :: rest ->
    taskSchema (returned_row userId f currentTask now c) = false ->
    patch_result userId task_id b now c
      (Failure 400 ValidationError,
       rollback_conn (patched_conn userId task_id f currentTask now c)).

(** The table a DELETE of an existing task leaves. *)
Definition deleted (userId task_id : string) (gone : task)
  (tbl : list task) : list task :=
  map (fun t => with_order_index (index_after_delete userId gone t) t)
    (filter (fun t => negb (is_task task_id userId t)) tbl).

(** ** Invariants of the connection *)

(** [id] is the primary key. *)
Definition keyed (tbl : list task) : Prop := NoDup (map id tbl).

(** A property of tables that holds of the committed rows and of the rows
    of the open transaction. *)
Definition both (P : list task -> Prop) (c : conn) : Prop :=
  P (committed c) /\
  match pending c with
  | Some (_, tbl) => P tbl
  | None => True
  end.

(** Invariant I3 on a table with its key. *)
Definition consistent (tbl : list task) : Prop :=
  keyed tbl /\ Forall completion_consistent tbl.

(** What an accepted PATCH makes of one row of the table it read. *)
Definition patched_row (userId task_id : string) (f : UpdateTaskInput)
  (currentTask : task) (now appended : Z) (t : task) : task :=
  if is_task task_id userId t
  then updated_row f currentTask now appended
         (reorder_requested f currentTask) t
  else
    match reorder_requested f currentTask with
    | Some newIndex =>
        with_order_index
          (index_after_reorder userId task_id (order_index currentTask)
             newIndex t) t
    | None => t
    end.

(** Invariant I1 for every user, on a table with its key. *)
Definition ordered (tbl : list task) : Prop :=
  keyed tbl /\ forall userId, dense userId tbl.

Definition is_max (m : option Z) (z : Z) : bool :=
  match m with
  | Some x => x =? z
  | None => false
  end.

Definition at_most (m : option Z) (z : Z) : bool :=
  match m with
  | Some x => z <=? x
  | None => false
  end.

(** The requests the amended density claim covers, on the table they
    read: a PATCH that completes a task completes the one at the highest
    active index, a PATCH that makes a task incomplete does not meet a
    highest active index of 0, and a PATCH that carries an [order_index]
    for a task that is not completed carries one that is at most the
    highest active index. *)
Definition covered (r : request) (tbl : list task) : bool :=
  match r with
  | PATCH_task userId task_id b _ =>
      match updateTaskInputSchema b,
            filter (is_task task_id userId) tbl with
      | Some f, currentTask :: _ =>
          let maxActiveIndex := select_max_order_index userId tbl in
          match upd_is_completed f, is_completed currentTask with
          | Some true, false =>
              is_max maxActiveIndex (order_index currentTask)
          | Some false, true => negb (is_max maxActiveIndex 0)
          | _, _ =>
              match upd_order_index f with
              | Some newIndex =>
                  is_completed currentTask || at_most maxActiveIndex newIndex
              | None => true
              end
          end
      | _, _ => true
      end
  | _ => true
  end.

(** A sequence of covered requests, each taken on the connection the
    previous ones leave. *)
Fixpoint all_covered (rs : list request) (c : conn) : Prop :=
  match rs with
  | [] => True
  | r :: rs' =>
      covered r (view c) = true /\ all_covered rs' (snd (handle r c))
  end.

(** The category check of the POST handler fails. *)
Definition new_category_missing (userId : string) (input : CreateTaskInput)
  (c : conn) : bool :=
  match truthy (new_category_id input) with
  | Some category_id =>
      match select_category category_id userId (categories c) with
      | [] => true
      | _ :: _ => false
      end
  | None => false
  end.

(** The category check of the PATCH handler fails. *)
Definition category_missing (userId : string) (f : UpdateTaskInput)
  (c : conn) : bool :=
  match upd_category_id f with
  | Some (Some category_id) =>
      match select_category category_id userId (categories c) with
      | [] => true
      | _ :: _ => false
      end
  | _ => false
  end.

(** Sample requests: a create, a reorder of C to the top, a delete of B
    and making D incomplete. *)
Definition sample_requests : list request :=
  [ POST_tasks "u" (with_key_order_index 0 (with_key_title "Buy milk" no_keys))
      "N" 1679100000000;
    PATCH_task "u" "C" (with_key_order_index 0 no_keys) 1679100000001;
    DELETE_task "u" "B";
    PATCH_task "u" "D" (with_key_is_completed false no_keys) 1679100000002 ].

(* ===================================================================== *)
(** * Further properties of the task handlers *)
(* ===================================================================== *)

(** The caller of a request. *)
Definition request_user (r : request) : string :=
  match r with
  | POST_tasks userId _ _ _ => userId
  | PATCH_task userId _ _ _ => userId
  | DELETE_task userId _ => userId
  end.

(** The rows of the users other than [userId]. *)
Definition of_others (userId : string) (tbl : list task) : list task :=
  filter (fun t => negb (String.eqb (user_id t) userId)) tbl.

(** Invariant I4 on one row: a category reference is one to a category of
    the owner of the task. *)
Definition category_owned (cats : list category) (t : task) : Prop :=
  match category_id t with
  | None => True
  | Some cid =>
      exists k, In k cats /\ cat_id k = cid /\ cat_user_id k = user_id t
  end.

(** Invariant I4 on a connection: it holds of the committed tables, and
    of the tables as the open transaction has them. *)
Definition references_owned (c : conn) : Prop :=
  Forall (category_owned (committed_categories c)) (committed c) /\
  match pending c with
  | Some (cats, tbl) => Forall (category_owned cats) tbl
  | None => True
  end.

(** The categories of the connection [c'], read and committed, are among
    those that the connection [c] read and those that were committed on
    it. *)
Definition categories_among (c c' : conn) : Prop :=
  (categories c' = categories c \/
   categories c' = committed_categories c) /\
  (committed_categories c' = categories c \/
   committed_categories c' = committed_categories c).

(** The bounds of the schemas on the text columns of one row. *)
Definition within_schema (t : task) : Prop :=
  (1 <= String.length (title t) <= 255)%nat /\
  match description t with
  | Some d => (String.length d <= 5000)%nat
  | None => True
  end /\
  (priority t = "low" \/ priority t = "medium" \/ priority t = "high").

(** The ways a request leaves the connection: as it was, rolled back,
    after a DELETE that found its task, after an accepted PATCH, or after
    a PATCH that was sent and then rolled back because the returned row
    does not pass [taskSchema]. *)
Inductive handled (r : request) (c : conn) : conn -> Prop :=
| handled_untouched : handled r c c
| handled_rolled_back : handled r c (rollback_conn c)
| handled_deleted (task_id : string) (gone : task) (rest : list task) :
    r = DELETE_task (request_user r) task_id ->
    filter (is_task task_id (request_user r)) (view c) = gone :: rest ->
    handled r c
      (mkConn (categories c)
         (deleted (request_user r) task_id gone (view c)) None)
| handled_patched (task_id : string) (b : body) (now : Z)
    (f : UpdateTaskInput) (currentTask : task) (rest : list task) :
    r = PATCH_task (request_user r) task_id b now ->
    updateTaskInputSchema b = Some f ->
    filter (is_task task_id (request_user r)) (view c)
    = currentTask :: rest ->
    category_missing (request_user r) f c = false ->
    handled r c
      (patched_conn (request_user r) task_id f currentTask now c)
| handled_unanswered (task_id : string) (b : body) (now : Z)
    (f : UpdateTaskInput) (currentTask : task) (rest : list task) :
    r = PATCH_task (request_user r) task_id b now ->
    updateTaskInputSchema b = Some f ->
    filter (is_task task_id (request_user r)) (view c)
    = currentTask :: rest ->
    category_missing (request_user r) f c = false ->
    handled r c
      (rollback_conn
         (patched_conn (request_user r) task_id f currentTask now c)).

(** The row [t'] is the row [t] but for its [order_index]. *)
Definition kept_but_index (t t' : task) : Prop :=
  t' = with_order_index (order_index t') t.

(** The columns of a row that place it in the list of its owner. *)
Definition placement (t : task) : Z * bool * option Z :=
  (order_index t, is_completed t, completed_at t).

(* ===================================================================== *)
(** * Categories *)
(* ===================================================================== *)

(** A row of the table [categories]. *)
Record category_row := mkCategoryRow {
  cr_id : string;
  cr_user_id : string;
  cr_name : string;
  cr_created_at : Z;
  cr_updated_at : Z
}.

(** The columns of a category that the task handlers read. *)
Definition category_of (k : category_row) : category :=
  mkCategory (cr_id k) (cr_user_id k).

(** The two tables. The category handlers send single statements, no
    BEGIN, COMMIT or ROLLBACK: they are modelled on a connection on which
    no transaction is open, where every statement is committed at once.
    (On a connection on which a reorder has left its transaction open the
    statements join that transaction; the category handlers are not
    modelled there.) Of the foreign keys, the action ON DELETE SET NULL of
    [tasks.category_id] is modelled; the caller of a request is a stored
    user. [categorySchema.parse] of a returned row asks for strings and
    for dates and never throws. *)
Record database := mkDatabase {
  db_categories : list category_row;
  db_tasks : list task
}.

(** The connection of the task handlers on a database. *)
Definition connection (d : database) : conn :=
  idle (map category_of (db_categories d)) (db_tasks d).

Inductive category_error :=
| CategoryValidationError   (* 'Validation Error', code VALIDATION_FAILED *)
| DuplicateCategoryName     (* code DUPLICATE_CATEGORY_NAME *)
| CategoryNotOwned          (* 'Category not found or does not belong to user.' *)
| CategoryInternalError.

Inductive category_response :=
| CategoryJson (status : Z) (row : category_row)
| CategoryNoContent
| CategoryFailure (status : Z) (message : category_error).

(** The key of a request body that the category schemas know. *)
Record category_body := mkCategoryBody {
  cb_name : option json
}.

Definition createCategoryInputSchema (b : category_body) : option string :=
  z_required (z_string 1 (Some 255%nat)) (cb_name b).

Definition updateCategoryInputSchema (b : category_body)
  : option (option string) :=
  z_optional (z_string 1 (Some 255%nat)) (cb_name b).

(** [WHERE id = $1 AND user_id = $2] *)
Definition is_category (category_id userId : string) (k : category_row)
  : bool :=
  String.eqb (cr_id k) category_id && String.eqb (cr_user_id k) userId.

(** [SELECT id FROM categories WHERE user_id = $1 AND name = $2] *)
Definition select_category_named (userId name : string)
  (cats : list category_row) : list category_row :=
  filter (fun k => String.eqb (cr_user_id k) userId &&
                   String.eqb (cr_name k) name) cats.

(** [SELECT id FROM categories WHERE user_id = $1 AND name = $2 AND
    id != $3]; the parameter [$2] is [NULL] when the body has no name, and
    [name = NULL] holds of no row. *)
Definition select_other_category_named (userId : string)
  (name : option string) (category_id : string) (cats : list category_row)
  : list category_row :=
  match name with
  | Some n =>
      filter (fun k => String.eqb (cr_user_id k) userId &&
                       String.eqb (cr_name k) n &&
                       negb (String.eqb (cr_id k) category_id)) cats
  | None => []
  end.

(** [INSERT INTO categories (id, user_id, name, created_at, updated_at)
    VALUES ($1, $2, $3, $4, $5) RETURNING ...]: [id] is the primary key. *)
Definition insert_category (row : category_row) (cats : list category_row)
  : option (list category_row) :=
  if existsb (fun k => String.eqb (cr_id k) (cr_id row)) cats
  then None
  else Some (cats ++ [row]).

(** [UPDATE categories SET name = $1, updated_at = $2 WHERE id = $3 AND
    user_id = $4 RETURNING ...]: the column [name] is NOT NULL. *)
Definition update_category_rows (name : option string) (now : Z)
  (category_id userId : string) (cats : list category_row)
  : option (list category_row) :=
  match name with
  | Some n =>
      Some (map (fun k => if is_category category_id userId k
                          then mkCategoryRow (cr_id k) (cr_user_id k) n
                                 (cr_created_at k) now
                          else k) cats)
  | None =>
      match filter (is_category category_id userId) cats with
      | [] => Some cats
      | _ :: _ => None
      end
  end.

(** [FOREIGN KEY (category_id) REFERENCES categories(id) ON DELETE SET
    NULL] for the deleted categories [gone]. *)
Definition on_delete_set_null (gone : list category_row) (tbl : list task)
  : list task :=
  map (fun t =>
         match category_id t with
         | Some cid =>
             if existsb (fun k => String.eqb (cr_id k) cid) gone
             then with_category_id None t
             else t
         | None => t
         end) tbl.

(** POST /api/categories; [categoryId] is the value of [generateId()] and
    [now] that of [Date.now()]. *)
Definition create_category (userId : string) (b : category_body)
  (categoryId : string) (now : Z) (d : database)
  : category_response * database :=
  match createCategoryInputSchema b with
  | None => (CategoryFailure 400 CategoryValidationError, d)
  | Some name =>
      match select_category_named userId name (db_categories d) with
      | _ :: _ => (CategoryFailure 400 DuplicateCategoryName, d)
      | [] =>
          let row := mkCategoryRow categoryId userId name now now in
          match insert_category row (db_categories d) with
          | Some cats => (CategoryJson 201 row, mkDatabase cats (db_tasks d))
          | None => (CategoryFailure 500 CategoryInternalError, d)
          end
      end
  end.

(** PATCH /api/categories/:category_id *)
Definition update_category (userId category_id : string) (b : category_body)
  (now : Z) (d : database) : category_response * database :=
  match updateCategoryInputSchema b with
  | None => (CategoryFailure 400 CategoryValidationError, d)
  | Some name =>
      match filter (is_category category_id userId) (db_categories d) with
      | [] => (CategoryFailure 404 CategoryNotOwned, d)
      | _ :: _ =>
          match select_other_category_named userId name category_id
                  (db_categories d) with
          | _ :: _ => (CategoryFailure 400 DuplicateCategoryName, d)
          | [] =>
              match update_category_rows name now category_id userId
                      (db_categories d) with
              | Some cats =>
                  match filter (is_category category_id userId) cats with
                  | row :: _ =>
                      (CategoryJson 200 row, mkDatabase cats (db_tasks d))
                  | [] =>
                      (CategoryFailure 500 CategoryInternalError,
                       mkDatabase cats (db_tasks d))
                  end
              | None => (CategoryFailure 500 CategoryInternalError, d)
              end
          end
      end
  end.

(** DELETE /api/categories/:category_id *)
Definition delete_category (userId category_id : string) (d : database)
  : category_response * database :=
  let gone := filter (is_category category_id userId) (db_categories d) in
  if Nat.eqb (List.length gone) 0
  then (CategoryFailure 404 CategoryNotOwned, d)
  else
    (CategoryNoContent,
     mkDatabase
       (filter (fun k => negb (is_category category_id userId k))
          (db_categories d))
       (on_delete_set_null gone (db_tasks d))).

Inductive category_request :=
| POST_categories (userId : string) (b : category_body)
    (categoryId : string) (now : Z)
| PATCH_category (userId category_id : string) (b : category_body) (now : Z)
| DELETE_category (userId category_id : string).

Definition handle_category (r : category_request) (d : database)
  : category_response * database :=
  match r with
  | POST_categories userId b categoryId now =>
      create_category userId b categoryId now d
  | PATCH_category userId category_id b now =>
      update_category userId category_id b now d
  | DELETE_category userId category_id =>
      delete_category userId category_id d
  end.

Fixpoint run_categories (rs : list category_request) (d : database)
  : database :=
  match rs with
  | [] => d
  | r :: rs' => run_categories rs' (snd (handle_category r d))
  end.

(** ** Properties of the categories *)

(** The outcomes of a category request. *)
Inductive category_handled (d : database) : database -> Prop :=
| category_untouched : category_handled d d
| category_created (row : category_row) :
    existsb (fun k => String.eqb (cr_id k) (cr_id row)) (db_categories d)
    = false ->
    select_category_named (cr_user_id row) (cr_name row) (db_categories d)
    = [] ->
    category_handled d
      (mkDatabase (db_categories d ++ [row]) (db_tasks d))
| category_renamed (userId category_id name : string) (now : Z) :
    select_other_category_named userId (Some name) category_id
      (db_categories d) = [] ->
    category_handled d
      (mkDatabase
         (map (fun k => if is_category category_id userId k
                        then mkCategoryRow (cr_id k) (cr_user_id k) name
                               (cr_created_at k) now
                        else k) (db_categories d))
         (db_tasks d))
| category_deleted (userId category_id : string) :
    category_handled d
      (mkDatabase
         (filter (fun k => negb (is_category category_id userId k))
            (db_categories d))
         (on_delete_set_null
            (filter (is_category category_id userId) (db_categories d))
            (db_tasks d))).


(** [id] is the primary key of the categories. *)
Definition categories_keyed (cats : list category_row) : Prop :=
  NoDup (map cr_id cats).

(** No user has two categories of the same name. *)
Definition names_unique (cats : list category_row) : Prop :=
  forall k k', In k cats -> In k' cats ->
               cr_user_id k = cr_user_id k' -> cr_name k = cr_name k' ->
               cr_id k = cr_id k'.

(** Invariant I4 on a database. *)
Definition categories_owned (d : database) : Prop :=
  Forall (category_owned (map category_of (db_categories d))) (db_tasks d).

(** A few categories of two users, and tasks that use them. *)
Definition sample_categories : list category_row :=
  [ mkCategoryRow "cat_001" "u" "Work" 1678886500000 1678886500000;
    mkCategoryRow "cat_002" "u" "Personal" 1678886550000 1678886550000;
    mkCategoryRow "cat_003" "v" "Work" 1678972900000 1678972900000 ].

Definition sample_database : database :=
  mkDatabase sample_categories
    [ with_category_id (Some "cat_001") (sample "A" "u" false None 0);
      with_category_id (Some "cat_002") (sample "B" "u" false None 1);
      with_category_id (Some "cat_003") (sample "Z" "v" false None 0) ].

Definition named (s : string) : category_body :=
  mkCategoryBody (Some (JStr s)).

Definition sample_category_requests : list category_request :=
  [ POST_categories "u" (named "Health") "cat_005" 1679100000000;
    POST_categories "u" (named "Work") "cat_006" 1679100000001;
    PATCH_category "u" "cat_002" (named "Home") 1679100000002;
    PATCH_category "u" "cat_002" (named "Work") 1679100000003;
    DELETE_category "u" "cat_001";
    DELETE_category "u" "cat_003" ].

(* ===================================================================== *)
(** * The stored order *)
(* ===================================================================== *)

(** The list [l] without the element at position [index], with that
    element if there is one. *)
Definition take_out {A : Type} (index : nat) (l : list A)
  : option A * list A :=
  (nth_error l index, firstn index l ++ skipn (S index) l).

(** The list [l] with [x] put in at position [index]. *)
Definition put_in {A : Type} (index : nat) (x : A) (l : list A)
  : list A :=
  firstn index l ++ x :: skipn index l.

(** The list [l] after a move of its element at position [source] to
    position [destination]. *)
Definition moved {A : Type} (source destination : nat) (l : list A)
  : list A :=
  match take_out source l with
  | (Some removed, rest) => put_in destination removed rest
  | (None, rest) => rest
  end.

(** The incomplete tasks of a user are stored in the order [ids]: the
    task at position [i] of [ids] is the one with [order_index] [i]. *)
Definition placed (userId : string) (tbl : list task) (ids : list string)
  : Prop :=
  NoDup ids /\
  forall x i, In (x, i) (active_view userId tbl) <->
              0 <= i /\ nth_error ids (Z.to_nat i) = Some x.

(** The index a move from [source] to [destination] gives to the element
    at index [i]. *)
Definition index_after_move (source destination i : nat) : nat :=
  if Nat.eqb i source then destination
  else if Nat.leb destination i && Nat.ltb i source then S i
  else if Nat.ltb source i && Nat.leb i destination then Nat.pred i
  else i.

(** Five incomplete tasks of the user ["u"]. *)
Definition five : list task :=
  [ sample "A" "u" false None 0;
    sample "B" "u" false None 1;
    sample "C" "u" false None 2;
    sample "D" "u" false None 3;
    sample "E" "u" false None 4 ].

(** The tasks of [l] carry their positions as [order_index], counted from
    [k]. *)
Definition in_place (k : nat) (l : list task) : Prop :=
  forall i task, nth_error l i = Some task ->
                 order_index task = Z.of_nat (k + i).

(* ===================================================================== *)
(** * GET /api/tasks *)
(* ===================================================================== *)

(** A value of [req.query]: a string, or an array or an object of the
    query-string parser. A query string carries no number, boolean or
    [null]. *)
Inductive query_value :=
| QString (s : string)
| QNested.

Definition json_of_query (v : query_value) : json :=
  match v with
  | QString s => JStr s
  | QNested => JOther
  end.

(** The keys of [req.query] that [searchTasksInputSchema] knows. The two
    dates come with what [new Date(value)] makes of them. *)
Record task_query := mkTaskQuery {
  q_query : option query_value;
  q_user_id : option query_value;
  q_category_id : option query_value;
  q_priority : option query_value;
  q_is_completed : option query_value;
  q_due_date_before : date_field;
  q_due_date_after : date_field;
  q_limit : option query_value;
  q_offset : option query_value;
  q_sort_by : option query_value;
  q_sort_order : option query_value
}.

(** [z.number().int().positive()] *)
Definition z_positive (j : json) : option Z :=
  match j with
  | JInt n => if 0 <? n then Some n else None
  | _ => None
  end.

(** [z.enum(values)] *)
Definition z_enum (values : list string) (j : json) : option string :=
  match j with
  | JStr s => if existsb (String.eqb s) values then Some s else None
  | _ => None
  end.

(** [.default(d)] *)
Definition z_default {A : Type} (p : json -> option A) (d : A)
  (o : option json) : option A :=
  match o with
  | None => Some d
  | Some j => p j
  end.

(** [z.coerce.date().optional()]: [new Date(null)] is the epoch. *)
Definition z_coerce_date (d : date_field) : option (option Z) :=
  match d with
  | DAbsent => Some None
  | DNull => Some (Some 0)
  | DValue (Some ms) => Some (Some ms)
  | DValue None => None
  end.

Record SearchTasksInput := mkSearchTasksInput {
  s_query : option string;
  s_user_id : option string;
  s_category_id : option (option string);
  s_priority : option string;
  s_is_completed : option bool;
  s_due_date_before : option Z;
  s_due_date_after : option Z;
  s_limit : Z;
  s_offset : Z;
  s_sort_by : string;
  s_sort_order : string
}.

Definition sortable_columns : list string :=
  ["title"; "due_date_at"; "priority"; "created_at"; "updated_at";
   "order_index"].

Definition searchTasksInputSchema (q : task_query)
  : option SearchTasksInput :=
  let key (o : option query_value) := option_map json_of_query o in
  match z_optional (z_string 0 None) (key (q_query q)),
        z_optional (z_string 0 None) (key (q_user_id q)),
        z_optional (z_nullable (z_string 0 None)) (key (q_category_id q)),
        z_optional z_priority (key (q_priority q)),
        z_optional z_boolean (key (q_is_completed q)),
        z_coerce_date (q_due_date_before q) with
  | Some query, Some user, Some category, Some priority, Some done,
    Some before =>
      match z_coerce_date (q_due_date_after q),
            z_default z_positive 10 (key (q_limit q)),
            z_default z_index 0 (key (q_offset q)),
            z_default (z_enum sortable_columns) "created_at"
              (key (q_sort_by q)),
            z_default (z_enum ["asc"; "desc"]) "desc"
              (key (q_sort_order q)) with
      | Some after, Some limit, Some offset, Some sort_by, Some sort_order =>
          Some (mkSearchTasksInput query user category priority done before
                  after limit offset sort_by sort_order)
      | _, _, _, _, _ => None
      end
  | _, _, _, _, _, _ => None
  end.

(** ** The SELECT statement *)

(** A value pushed to [queryParams]. *)
Inductive query_param :=
| ParamNull
| ParamText (s : string)
| ParamBool (b : bool)
| ParamNumber (n : Z)
| ParamDate (ms : Z).

(** A condition of the WHERE clause; [p] is the number of its
    placeholder. *)
Inductive where_clause :=
| WhereUser (p : nat)            (* user_id = $p *)
| WhereSearch (p : nat)          (* (title ILIKE $p OR description ILIKE $p) *)
| WhereCategoryNull              (* category_id IS NULL *)
| WhereCategory (p : nat)        (* category_id = $p *)
| WherePriority (p : nat)        (* priority = $p *)
| WhereCompleted (p : nat)       (* is_completed = $p *)
| WhereIncomplete                (* is_completed = FALSE *)
| WhereDueBefore (p : nat)       (* due_date_at <= $p *)
| WhereDueAfter (p : nat).       (* due_date_at >= $p *)

(** An item of the ORDER BY clause. *)
Inductive order_item :=
| OverdueFirst (now : Z)
    (* CASE WHEN due_date_at IS NOT NULL AND due_date_at < now AND
       is_completed = FALSE THEN 0 ELSE 1 END ASC *)
| DueDateNullsLast               (* due_date_at ASC NULLS LAST *)
| PriorityRank
    (* CASE priority WHEN 'high' THEN 0 WHEN 'medium' THEN 1
       WHEN 'low' THEN 2 ELSE 3 END ASC *)
| OrderIndex                     (* order_index ASC *)
| Column (sort_by : string) (descending : bool).

(** [whereClauses], [queryParams] and [paramIndex] of the GET handler. *)
Record select_builder := mkSelect {
  whereClauses : list where_clause;
  selectParams : list query_param;
  selectIndex : nat
}.

(** [whereClauses.push(...$${paramIndex}...); queryParams.push(v);
    paramIndex++] *)
Definition push_where (clause : nat -> where_clause) (v : query_param)
  (b : select_builder) : select_builder :=
  mkSelect (whereClauses b ++ [clause (selectIndex b)])
    (selectParams b ++ [v]) (S (selectIndex b)).

(** [whereClauses.push(...)] of a condition without placeholder. *)
Definition push_literal (clause : where_clause) (b : select_builder)
  : select_builder :=
  mkSelect (whereClauses b ++ [clause]) (selectParams b) (selectIndex b).

Definition query_param_at (params : list query_param) (p : nat)
  : option query_param :=
  match p with
  | O => None
  | S k => nth_error params k
  end.

(** The parameter of a placeholder can be read as a value of the type the
    statement needs there: text for the VARCHAR columns, a boolean for
    [is_completed], an integer for the BIGINT column [due_date_at] and for
    LIMIT and OFFSET. A [Date] is sent as a timestamp text, which is no
    integer. *)
Definition text_param (params : list query_param) (p : nat) : bool :=
  match query_param_at params p with
  | Some ParamNull | Some (ParamText _) => true
  | _ => false
  end.

Definition bool_param (params : list query_param) (p : nat) : bool :=
  match query_param_at params p with
  | Some ParamNull | Some (ParamBool _) => true
  | _ => false
  end.

Definition integer_param (params : list query_param) (p : nat) : bool :=
  match query_param_at params p with
  | Some ParamNull | Some (ParamNumber _) => true
  | _ => false
  end.

Definition where_typed (params : list query_param) (w : where_clause)
  : bool :=
  match w with
  | WhereUser p | WhereSearch p | WhereCategory p | WherePriority p =>
      text_param params p
  | WhereCompleted p => bool_param params p
  | WhereDueBefore p | WhereDueAfter p => integer_param params p
  | WhereCategoryNull | WhereIncomplete => true
  end.

(** A condition on one row; a comparison with NULL does not hold.
    [ilike pattern text] is PostgreSQL's [text ILIKE pattern]. *)
Definition where_holds (ilike : string -> string -> bool)
  (params : list query_param) (w : where_clause) (t : task) : bool :=
  match w with
  | WhereUser p =>
      match query_param_at params p with
      | Some (ParamText s) => String.eqb (user_id t) s
      | _ => false
      end
  | WhereSearch p =>
      match query_param_at params p with
      | Some (ParamText pattern) =>
          ilike pattern (title t) ||
          match description t with
          | Some d => ilike pattern d
          | None => false
          end
      | _ => false
      end
  | WhereCategoryNull =>
      match category_id t with
      | None => true
      | Some _ => false
      end
  | WhereCategory p =>
      match query_param_at params p, category_id t with
      | Some (ParamText s), Some c => String.eqb c s
      | _, _ => false
      end
  | WherePriority p =>
      match query_param_at params p with
      | Some (ParamText s) => String.eqb (priority t) s
      | _ => false
      end
  | WhereCompleted p =>
      match query_param_at params p with
      | Some (ParamBool b) => Bool.eqb (is_completed t) b
      | _ => false
      end
  | WhereIncomplete => negb (is_completed t)
  | WhereDueBefore p =>
      match query_param_at params p, due_date_at t with
      | Some (ParamNumber n), Some due => due <=? n
      | _, _ => false
      end
  | WhereDueAfter p =>
      match query_param_at params p, due_date_at t with
      | Some (ParamNumber n), Some due => n <=? due
      | _, _ => false
      end
  end.

(** ** ORDER BY *)

Definition overdue_flag (now : Z) (t : task) : Z :=
  match due_date_at t with
  | Some due => if (due <? now) && negb (is_completed t) then 0 else 1
  | None => 1
  end.

Definition priority_rank (t : task) : Z :=
  if String.eqb (priority t) "high" then 0
  else if String.eqb (priority t) "medium" then 1
  else if String.eqb (priority t) "low" then 2
  else 3.

(** NULL sorts as larger than every value. *)
Definition compare_nulls_last (a b : option Z) : comparison :=
  match a, b with
  | Some x, Some y => x ?= y
  | Some _, None => Lt
  | None, Some _ => Gt
  | None, None => Eq
  end.

(** The comparison of two rows by the column [sort_by]; [collate] compares
    two texts in the collation of the database. *)
Definition compare_column (collate : string -> string -> comparison)
  (sort_by : string) (t1 t2 : task) : comparison :=
  if String.eqb sort_by "title" then collate (title t1) (title t2)
  else if String.eqb sort_by "due_date_at"
  then compare_nulls_last (due_date_at t1) (due_date_at t2)
  else if String.eqb sort_by "priority"
  then collate (priority t1) (priority t2)
  else if String.eqb sort_by "created_at"
  then created_at t1 ?= created_at t2
  else if String.eqb sort_by "updated_at"
  then updated_at t1 ?= updated_at t2
  else order_index t1 ?= order_index t2.

Definition compare_item (collate : string -> string -> comparison)
  (o : order_item) (t1 t2 : task) : comparison :=
  match o with
  | OverdueFirst now => overdue_flag now t1 ?= overdue_flag now t2
  | DueDateNullsLast => compare_nulls_last (due_date_at t1) (due_date_at t2)
  | PriorityRank => priority_rank t1 ?= priority_rank t2
  | OrderIndex => order_index t1 ?= order_index t2
  | Column sort_by descending =>
      if descending then CompOpp (compare_column collate sort_by t1 t2)
      else compare_column collate sort_by t1 t2
  end.

Fixpoint compare_rows (collate : string -> string -> comparison)
  (items : list order_item) (t1 t2 : task) : comparison :=
  match items with
  | [] => Eq
  | o :: rest =>
      match compare_item collate o t1 t2 with
      | Eq => compare_rows collate rest t1 t2
      | c => c
      end
  end.

Definition before (collate : string -> string -> comparison)
  (items : list order_item) (t1 t2 : task) : bool :=
  match compare_rows collate items t1 t2 with
  | Gt => false
  | _ => true
  end.

(** The rows in the order of the ORDER BY clause. Rows that compare equal
    come in the order of the table here; PostgreSQL leaves their order
    open, and no statement below depends on it. *)
Fixpoint insert_row (le : task -> task -> bool) (t : task)
  (sorted : list task) : list task :=
  match sorted with
  | [] => [t]
  | x :: rest => if le t x then t :: sorted else x :: insert_row le t rest
  end.

Fixpoint order_by (le : task -> task -> bool) (rows : list task)
  : list task :=
  match rows with
  | [] => []
  | t :: rest => insert_row le t (order_by le rest)
  end.

(** [SELECT ... FROM tasks WHERE ... ORDER BY ... LIMIT $n OFFSET $m]:
    [None] when a parameter is not of the type of its placeholder. *)
Definition exec_select_tasks (ilike : string -> string -> bool)
  (collate : string -> string -> comparison)
  (conditions : list where_clause) (order : list order_item)
  (limit offset : nat) (params : list query_param) (tbl : list task)
  : option (list task) :=
  match query_param_at params limit, query_param_at params offset with
  | Some (ParamNumber n), Some (ParamNumber m) =>
      if forallb (where_typed params) conditions && (0 <=? n) && (0 <=? m)
      then
        Some (firstn (Z.to_nat n)
                (skipn (Z.to_nat m)
                   (order_by (before collate order)
                      (filter (fun t => forallb (fun w =>
                                  where_holds ilike params w t) conditions)
                         tbl))))
      else None
  | _, _ => None
  end.

(** ** The handler *)

Inductive list_response :=
| Listed (rows : list task)                   (* 200 *)
| ListFailure (status : Z) (message : error_message).

(** [if (x)] on a string that may be [undefined]. *)
Definition nonempty (o : option string) : option string :=
  match o with
  | Some s => if String.eqb s EmptyString then None else Some s
  | None => None
  end.

Definition build_where (userId : string) (input : SearchTasksInput)
  : select_builder :=
  let b := mkSelect [WhereUser 1] [ParamText userId] 2 in
  let b :=
    match nonempty (s_query input) with
    | Some query =>
        push_where WhereSearch (ParamText ("%" ++ query ++ "%")%string) b
    | None => b
    end in
  let b :=
    match s_category_id input with
    | Some (Some category_id) =>
        if String.eqb category_id "null"
        then push_literal WhereCategoryNull b
        else push_where WhereCategory (ParamText category_id) b
    | Some None => push_where WhereCategory ParamNull b
    | None => b
    end in
  let b :=
    match nonempty (s_priority input) with
    | Some priority => push_where WherePriority (ParamText priority) b
    | None => b
    end in
  let b :=
    match s_is_completed input with
    | Some is_completed =>
        push_where WhereCompleted (ParamBool is_completed) b
    | None => push_literal WhereIncomplete b
    end in
  let b :=
    match s_due_date_before input with
    | Some due_date_before =>
        push_where WhereDueBefore (ParamDate due_date_before) b
    | None => b
    end in
  match s_due_date_after input with
  | Some due_date_after =>
      push_where WhereDueAfter (ParamDate due_date_after) b
  | None => b
  end.

Definition build_order (input : SearchTasksInput) (now : Z)
  : list order_item :=
  match s_is_completed input with
  | Some true =>
      [Column (s_sort_by input) (String.eqb (s_sort_order input) "desc")]
  | _ => [OverdueFirst now; DueDateNullsLast; PriorityRank; OrderIndex]
  end.

(** GET /api/tasks on the rows the connection sees; [now] is the value of
    [Date.now()]. What the statement does to the transaction of the
    connection is not modelled. *)
Definition get_tasks (ilike : string -> string -> bool)
  (collate : string -> string -> comparison) (userId : string)
  (q : task_query) (now : Z) (tbl : list task) : list_response :=
  match searchTasksInputSchema q with
  | None => ListFailure 400 ValidationError
  | Some input =>
      let b := build_where userId input in
      match exec_select_tasks ilike collate (whereClauses b)
              (build_order input now) (selectIndex b) (S (selectIndex b))
              (selectParams b ++
               [ParamNumber (s_limit input); ParamNumber (s_offset input)])
              tbl with
      | None => ListFailure 500 InternalServerError
      | Some rows =>
          if forallb taskSchema rows then Listed rows
          else ListFailure 400 ValidationError
      end
  end.

(** A query with no keys, and queries with one key. *)
Definition no_query : task_query :=
  mkTaskQuery None None None None None DAbsent DAbsent None None None None.

Definition with_query_priority (s : string) (q : task_query) : task_query :=
  mkTaskQuery (q_query q) (q_user_id q) (q_category_id q) (Some (QString s))
    (q_is_completed q) (q_due_date_before q) (q_due_date_after q)
    (q_limit q) (q_offset q) (q_sort_by q) (q_sort_order q).

Definition with_query_is_completed (s : string) (q : task_query)
  : task_query :=
  mkTaskQuery (q_query q) (q_user_id q) (q_category_id q) (q_priority q)
    (Some (QString s)) (q_due_date_before q) (q_due_date_after q)
    (q_limit q) (q_offset q) (q_sort_by q) (q_sort_order q).

(** The filters of a query that a listed row has to pass. *)
Definition passes (q : task_query) (t : task) : Prop :=
  match q_priority q with
  | Some (QString s) => priority t = s
  | _ => True
  end /\
  match q_category_id q with
  | Some (QString s) =>
      if String.eqb s "null" then category_id t = None
      else category_id t = Some s
  | _ => True
  end.

(** The key by which the incomplete tasks are listed. *)
Definition listing_key (now : Z) (t : task) : Z * option Z * Z * Z :=
  (overdue_flag now t, due_date_at t, priority_rank t, order_index t).

Definition listing_order (now : Z) : list order_item :=
  [OverdueFirst now; DueDateNullsLast; PriorityRank; OrderIndex].

(** The rows that pass the WHERE clause of a request without due dates. *)
Definition selected (ilike : string -> string -> bool) (userId : string)
  (input : SearchTasksInput) (t : task) : bool :=
  String.eqb (user_id t) userId &&
  match nonempty (s_query input) with
  | Some query =>
      ilike ("%" ++ query ++ "%")%string (title t) ||
      match description t with
      | Some d => ilike ("%" ++ query ++ "%")%string d
      | None => false
      end
  | None => true
  end &&
  match s_category_id input with
  | Some (Some c) =>
      if String.eqb c "null"
      then match category_id t with None => true | Some _ => false end
      else match category_id t with
           | Some c' => String.eqb c' c
           | None => false
           end
  | Some None => false
  | None => true
  end &&
  match nonempty (s_priority input) with
  | Some p => String.eqb (priority t) p
  | None => true
  end &&
  negb (is_completed t).

(** The order of two listing keys: by the overdue flag, then by the due
    date with the tasks without one last, then by the rank of the
    priority, then by [order_index]. *)
Definition key_le (k1 k2 : Z * option Z * Z * Z) : Prop :=
  let '(f1, d1, p1, o1) := k1 in
  let '(f2, d2, p2, o2) := k2 in
  f1 < f2 \/
  f1 = f2 /\
  (compare_nulls_last d1 d2 = Lt \/
   d1 = d2 /\ (p1 < p2 \/ p1 = p2 /\ o1 <= o2)).

(** The rows of a list come in the order of their listing keys. *)
Fixpoint listed_in_order (now : Z) (rows : list task) : Prop :=
  match rows with
  | [] => True
  | t :: rest =>
      Forall (fun t' => key_le (listing_key now t) (listing_key now t')) rest
      /\ listed_in_order now rest
  end.

(** Tasks of two users with due dates and priorities; [now] is
    1679200000000 in the examples. *)
Definition dated (i u : string) (due : option Z) (p : string) (done : bool)
  (k : Z) : task :=
  mkTask i u None i None due p done None k 1678886600000 1678886600000.

Definition dated_tasks : list task :=
  [ dated "A" "u" None "low" false 0;
    dated "B" "u" (Some 1679300000000) "medium" false 1;
    dated "C" "u" (Some 1679100000000) "low" false 2;
    dated "D" "u" None "high" false 3;
    dated "E" "u" (Some 1679000000000) "high" true 4;
    dated "Z" "v" (Some 1679000000000) "high" false 0 ].

(* ===================================================================== *)
(** * POST /api/register *)
(* ===================================================================== *)

(** A row of the table [users]; [last_active_view] is stored as NULL by
    the handler and is left out. *)
Record user_row := mkUserRow {
  u_id : string;
  u_email : string;
  u_password_hash : string;
  u_created_at : Z;
  u_updated_at : Z;
  u_last_login_at : option Z
}.

(** The tables of the registration, on a connection on which no
    transaction is open when the request comes. *)
Record accounts := mkAccounts {
  acc_users : list user_row;
  acc_categories : list category_row
}.

(** The keys of a request body that [createUserInputSchema] knows. *)
Record user_body := mkUserBody {
  ub_email : option json;
  ub_password : option json
}.

(** [z.string().email().max(255)]; [is_email] is the test of Zod for an
    email address. *)
Definition z_email (is_email : string -> bool) (j : json) : option string :=
  match z_string 0 (Some 255%nat) j with
  | Some s => if is_email s then Some s else None
  | None => None
  end.

Definition createUserInputSchema (is_email : string -> bool) (b : user_body)
  : option (string * string) :=
  match z_required (z_email is_email) (ub_email b),
        z_required (z_string 8 (Some 255%nat)) (ub_password b) with
  | Some email, Some password => Some (email, password)
  | _, _ => None
  end.

(** The object that the handler passes to [userSchema.parse]; a [None] in
    [o_password_hash] is a key that is not there. *)
Record user_object := mkUserObject {
  o_id : string;
  o_email : string;
  o_password_hash : option string;
  o_created_at : option Z;
  o_updated_at : option Z;
  o_last_login_at : option Z
}.

(** [userSchema.parse]: [password_hash] is a required string, [email] an
    email address; [z.coerce.date()] takes a date and makes the epoch of
    [null]. *)
Definition userSchema (is_email : string -> bool) (o : user_object)
  : option user_object :=
  match o_password_hash o with
  | Some _ => if is_email (o_email o) then Some o else None
  | None => None
  end.

Inductive register_error :=
| RegisterValidationError   (* 'Validation Error', code VALIDATION_FAILED *)
| EmailExists               (* code EMAIL_EXISTS *)
| RegisterInternalError.

Inductive register_response :=
| Registered (user : user_object) (token : string)        (* 201 *)
| RegisterFailure (status : Z) (message : register_error).

(** [INSERT INTO users ...]: [id] is the primary key and [email] is
    UNIQUE. *)
Definition insert_user (row : user_row) (users : list user_row)
  : option (list user_row) :=
  if existsb (fun u => String.eqb (u_id u) (u_id row) ||
                       String.eqb (u_email u) (u_email row)) users
  then None
  else Some (users ++ [row]).

Definition defaultCategories : list string :=
  ["Work"; "Personal"; "Shopping"; "Errands"].

(** The loop over [defaultCategories]; [generateId k] is the value of the
    call number [k] of [generateId()] in the request. *)
Fixpoint insert_default_categories (generateId : nat -> string) (k : nat)
  (names : list string) (userId : string) (now : Z)
  (cats : list category_row) : option (list category_row) :=
  match names with
  | [] => Some cats
  | catName :: rest =>
      match insert_category
              (mkCategoryRow (generateId k) userId catName now now) cats with
      | Some cats' =>
          insert_default_categories generateId (S k) rest userId now cats'
      | None => None
      end
  end.

(** POST /api/register; [password_hash] is the value of [bcrypt.hash],
    [token] that of [jwt.sign] and [now] that of [Date.now()]. A failing
    INSERT is rolled back by the [catch] block; the ROLLBACK that the
    [catch] block sends after the COMMIT finds no transaction. *)
Definition register (is_email : string -> bool) (b : user_body)
  (password_hash : string) (generateId : nat -> string) (now : Z)
  (token : string) (a : accounts) : register_response * accounts :=
  match createUserInputSchema is_email b with
  | None => (RegisterFailure 400 RegisterValidationError, a)
  | Some (email, password) =>
      match filter (fun u => String.eqb (u_email u) email) (acc_users a) with
      | _ :: _ => (RegisterFailure 400 EmailExists, a)
      | [] =>
          let userId := generateId 0%nat in
          match insert_user
                  (mkUserRow userId email password_hash now now (Some now))
                  (acc_users a) with
          | None => (RegisterFailure 500 RegisterInternalError, a)
          | Some users =>
              match insert_default_categories generateId 1 defaultCategories
                      userId now (acc_categories a) with
              | None => (RegisterFailure 500 RegisterInternalError, a)
              | Some cats =>
                  match userSchema is_email
                          (mkUserObject userId email None
                             (fromUnixTimestamp now) (fromUnixTimestamp now)
                             (fromUnixTimestamp now)) with
                  | Some user => (Registered user token, mkAccounts users cats)
                  | None =>
                      (RegisterFailure 400 RegisterValidationError,
                       mkAccounts users cats)
                  end
              end
          end
      end
  end.

(** The rows a registration stores. *)
Definition registered_user (email password_hash : string)
  (generateId : nat -> string) (now : Z) : user_row :=
  mkUserRow (generateId 0%nat) email password_hash now now (Some now).

Definition registered_categories (generateId : nat -> string) (now : Z)
  : list category_row :=
  [ mkCategoryRow (generateId 1%nat) (generateId 0%nat) "Work" now now;
    mkCategoryRow (generateId 2%nat) (generateId 0%nat) "Personal" now now;
    mkCategoryRow (generateId 3%nat) (generateId 0%nat) "Shopping" now now;
    mkCategoryRow (generateId 4%nat) (generateId 0%nat) "Errands" now now ].

(** The ids of a request are new and distinct. *)
Definition fresh_ids (generateId : nat -> string) (a : accounts) : Prop :=
  (forall u, In u (acc_users a) -> u_id u <> generateId 0%nat) /\
  (forall k i, In k (acc_categories a) -> cr_id k <> generateId i) /\
  NoDup [generateId 1%nat; generateId 2%nat; generateId 3%nat;
         generateId 4%nat].

Definition sample_ids (k : nat) : string :=
  match k with
  | 0%nat => "user_004"
  | 1%nat => "cat_006"
  | 2%nat => "cat_007"
  | 3%nat => "cat_008"
  | _ => "cat_009"
  end.

Definition credentials (email password : string) : user_body :=
  mkUserBody (Some (JStr email)) (Some (JStr password)).

(* ===================================================================== *)
(** * The cache of the client *)
(* ===================================================================== *)

(** [tasks_by_id], a JavaScript object used as a map: its own keys with
    their values, in the order of insertion (the ids are no array
    indices, which an object would list first). *)
Definition cache : Type := list (string * task).

(** [o[key]] *)
Definition js_get (key : string) (o : cache) : option task :=
  option_map snd (find (fun e => String.eqb (fst e) key) o).

(** [o[key] = v]: a key that is there keeps its place. *)
Fixpoint js_set (key : string) (v : task) (o : cache) : cache :=
  match o with
  | [] => [(key, v)]
  | (k, x) :: rest =>
      if String.eqb k key then (k, v) :: rest
      else (k, x) :: js_set key v rest
  end.

(** [delete o[key]] *)
Definition js_delete (key : string) (o : cache) : cache :=
  filter (fun e => negb (String.eqb (fst e) key)) o.

(** [Object.values(o)] *)
Definition Object_values (o : cache) : list task := map snd o.

(** [set_tasks]: the [reduce] over the tasks, from the empty object. *)
Definition set_tasks (tasks : list task) : cache :=
  fold_left (fun acc task => js_set (id task) task acc) tasks [].

(** [add_or_update_task]: [{ ...state.tasks_by_id, [task.id]: task }] *)
Definition add_or_update_task (task : task) (tasks_by_id : cache) : cache :=
  js_set (id task) task tasks_by_id.

(** [remove_task] *)
Definition remove_task (task_id : string) (tasks_by_id : cache) : cache :=
  js_delete task_id tasks_by_id.

(** Every task of the cache is kept under its own id, and no key comes
    twice. *)
Definition by_own_id (o : cache) : Prop :=
  NoDup (map fst o) /\ Forall (fun e => fst e = id (snd e)) o.

(* ===================================================================== *)
(** * Basic facts *)
(* ===================================================================== *)

Lemma with_order_index_same (t : task) :
  with_order_index (order_index t) t = t.
Proof. destruct t; reflexivity. Qed.

Lemma view_idle (cats : list category) (tbl : list task) :
  view (idle cats tbl) = tbl.
Proof. reflexivity. Qed.

Lemma rollback_idle (cats : list category) (tbl : list task) :
  rollback_conn (idle cats tbl) = idle cats tbl.
Proof. reflexivity. Qed.

Lemma view_in_transaction (tbl : list task) (c : conn) :
  view (in_transaction tbl c) = tbl.
Proof. reflexivity. Qed.

Lemma categories_in_transaction (tbl : list task) (c : conn) :
  categories (in_transaction tbl c) = categories c.
Proof. reflexivity. Qed.

Lemma write_in_transaction (tbl tbl' : list task) (c : conn) :
  write tbl' (in_transaction tbl c) = in_transaction tbl' c.
Proof. reflexivity. Qed.

Lemma rollback_in_transaction (tbl : list task) (c : conn) :
  rollback_conn (in_transaction tbl c) = rollback_conn c.
Proof. reflexivity. Qed.

Lemma categories_write (tbl : list task) (c : conn) :
  categories (write tbl c) = categories c.
Proof. unfold write, categories. now destruct c as [cats t [[pcats p]|]]. Qed.

Lemma view_write (tbl : list task) (c : conn) : view (write tbl c) = tbl.
Proof. unfold write, view. now destruct c as [cats t [[pcats p]|]]. Qed.

(* ===================================================================== *)
(** * DELETE /api/tasks/:task_id *)
(* ===================================================================== *)

Lemma delete_shift_rows (userId : string) (gone : task) (tbl : list task) :
  is_completed gone = false ->
  sql_update
    (fun t => is_active userId t && (order_index gone <? order_index t))
    (fun t => with_order_index (order_index t - 1) t) tbl
  = map (fun t => with_order_index (index_after_delete userId gone t) t) tbl.
Proof.
  intros Hgone. unfold sql_update, index_after_delete.
  apply map_ext. intros t. rewrite Hgone. simpl.
  destruct (is_active userId t && (order_index gone <? order_index t)).
  - reflexivity.
  - symmetry. apply with_order_index_same.
Qed.

Lemma delete_keeps_rows (userId : string) (gone : task) (tbl : list task) :
  is_completed gone = true ->
  map (fun t => with_order_index (index_after_delete userId gone t) t) tbl
  = tbl.
Proof.
  intros Hgone. unfold index_after_delete. rewrite Hgone. simpl.
  rewrite <- (map_id tbl) at 2. apply map_ext.
  intros t. apply with_order_index_same.
Qed.

(** DELETE on a connection with no transaction open. Deleting a task of
    the caller removes its row; when the deleted task was incomplete at
    index i, every incomplete task of that user with a larger index moves
    down by one and no other index changes; when it was completed no index
    changes; and an id that the caller has no task for is answered 404
    with the tables as they were. *)
Lemma delete_task_effect (cats : list category) (tbl : list task)
  (userId task_id : string) :
  match filter (is_task task_id userId) tbl with
  | [] =>
      delete_task userId task_id (idle cats tbl)
      = (Failure 404 TaskNotFound, idle cats tbl)
  | gone :: _ =>
      delete_task userId task_id (idle cats tbl)
      = (NoContent,
         idle cats
           (map (fun t => with_order_index (index_after_delete userId gone t) t)
              (filter (fun t => negb (is_task task_id userId t)) tbl))) /\
      (forall t,
          index_after_delete userId gone t =
          if is_completed gone then order_index t
          else if is_active userId t && (order_index gone <? order_index t)
          then order_index t - 1
          else order_index t)
  end.
Proof.
  unfold delete_task, try_catch, bind, BEGIN, query, execute_delete.
  cbn [begin_conn idle pending committed categories view].
  destruct (filter (is_task task_id userId) tbl) as [|gone rest] eqn:Hsel.
  - reflexivity.
  - split.
    + cbn [write pending categories committed view]. rewrite Hsel.
      cbn [List.length Nat.eqb].
      destruct (is_completed gone) eqn:Hgone;
        cbn [negb ret execute COMMIT commit_conn write view pending
             categories committed].
      * rewrite delete_keeps_rows by assumption. reflexivity.
      * rewrite <- delete_shift_rows by assumption. reflexivity.
    + intros t. unfold index_after_delete.
      destruct (is_completed gone); reflexivity.
Qed.

(** Scenario 6 of the specification: deleting B of A(0) B(1) C(2) leaves
    A(0) C(1). *)
Example delete_scenario :
  delete_task "u" "B" (idle [] abc_d)
  = (NoContent,
     idle [] [ sample "A" "u" false None 0;
               sample "C" "u" false None 1;
               sample "D" "u" true (Some 1679000000000) 5 ]).
Proof. reflexivity. Qed.

(* ===================================================================== *)
(** * POST /api/tasks *)
(* ===================================================================== *)

(** [insertTaskQuery] names twelve columns and gives eleven values:
    PostgreSQL rejects it whatever the parameters and the table are. *)
Lemma insertTaskQuery_rejected (params : list sqlval) (tbl : list task) :
  exec_insert_task insertTaskQuery_columns insertTaskQuery_values params tbl
  = None.
Proof. reflexivity. Qed.

(** The same statement with a twelfth placeholder would insert the row at
    index 0. *)
Example insert_with_twelve_values :
  exec_insert_task insertTaskQuery_columns
    (insertTaskQuery_values ++ [12%nat])
    (insertTaskParams "N" "u"
       (mkCreateTaskInput None "Buy milk" None None None 7) 1679100000000)
    []
  = Some ([mkTask "N" "u" None "Buy milk" None None "medium" false None 0
             1679100000000 1679100000000],
          [mkTask "N" "u" None "Buy milk" None None "medium" false None 0
             1679100000000 1679100000000]).
Proof. reflexivity. Qed.

(** The POST handler as a table of cases: no case answers 201. *)
Lemma create_task_run (userId : string) (b : body) (taskId : string)
  (now : Z) (c : conn) :
  create_task userId b taskId now c =
  match createTaskInputSchema b with
  | None => (Failure 400 ValidationError, rollback_conn c)
  | Some input =>
      if new_category_missing userId input c
      then (Failure 400 CategoryNotFound, c)
      else (Failure 500 InternalServerError, rollback_conn c)
  end.
Proof.
  unfold create_task, try_catch, bind, parse, new_category_missing.
  destruct (createTaskInputSchema b) as [input|]; cbn [ret throw];
    [|reflexivity].
  destruct (truthy (new_category_id input)) as [cid|].
  - unfold query_categories. cbn beta.
    destruct (select_category cid userId (categories c)); cbn;
      [reflexivity|].
    destruct c as [cats tbl [[pcats p]|]]; reflexivity.
  - cbn. destruct c as [cats tbl [[pcats p]|]]; reflexivity.
Qed.

Lemma create_task_conn (userId : string) (b : body) (taskId : string)
  (now : Z) (c : conn) :
  snd (create_task userId b taskId now c) = c \/
  snd (create_task userId b taskId now c) = rollback_conn c.
Proof.
  rewrite create_task_run.
  destruct (createTaskInputSchema b) as [input|]; [|now right].
  destruct (new_category_missing userId input c); [now left | now right].
Qed.

(** C3. No create request is answered 201. A request with a valid body
    and a known category is answered 500: the INSERT is rejected, and the
    [catch] block rolls back the shift of the other tasks. No task is
    persisted at index 0, and no index of an existing task moves: the
    committed table is as it was. *)
Theorem create_task_never_persists (userId : string) (b : body)
  (taskId : string) (now : Z) (c : conn) :
  (exists status message,
      fst (create_task userId b taskId now c) = Failure status message) /\
  (forall input,
      createTaskInputSchema b = Some input ->
      new_category_missing userId input c = false ->
      create_task userId b taskId now c
      = (Failure 500 InternalServerError, rollback_conn c)) /\
  committed (snd (create_task userId b taskId now c)) = committed c.
Proof.
  rewrite create_task_run. split; [|split].
  - destruct (createTaskInputSchema b) as [input|];
      [destruct (new_category_missing userId input c)|];
      eexists; eexists; reflexivity.
  - intros input -> ->. reflexivity.
  - destruct (createTaskInputSchema b) as [input|];
      [destruct (new_category_missing userId input c)|]; reflexivity.
Qed.

(** A create request with a valid body on the sample data: 500, and the
    three active tasks keep the indices 0, 1, 2. *)
Example create_on_sample :
  create_task "u" (with_key_order_index 0 (with_key_title "Buy milk" no_keys))
    "N" 1679100000000 (idle [] abc_d)
  = (Failure 500 InternalServerError, idle [] abc_d).
Proof. reflexivity. Qed.

(** C9. A create request whose body has no [order_index] key is answered
    400 (validation) and leaves the table as it was, although the value
    bound to the [order_index] column is the constant 0 whatever the body
    says. *)
Theorem create_task_requires_order_index (userId : string) (b : body)
  (taskId : string) (now : Z) (cats : list category) (tbl : list task) :
  b_order_index b = None ->
  create_task userId b taskId now (idle cats tbl)
  = (Failure 400 ValidationError, idle cats tbl) /\
  nth_error insertTaskQuery_columns 9 = Some col_order_index /\
  forall input,
    nth_error (insertTaskParams taskId userId input now) 9 = Some (VInt 0).
Proof.
  intros Hkey. split; [|split; reflexivity].
  unfold create_task, try_catch, bind, parse.
  assert (Hparse : createTaskInputSchema b = None).
  { unfold createTaskInputSchema. rewrite Hkey. cbn [z_required].
    destruct (z_optional _ (b_category_id b)); [|reflexivity].
    destruct (z_required _ (b_title b)); [|reflexivity].
    destruct (z_optional _ (b_description b)); [|reflexivity].
    destruct (z_date (b_due_date_at b)); [|reflexivity].
    destruct (z_optional z_priority (b_priority b)); reflexivity. }
  rewrite Hparse. reflexivity.
Qed.

Lemma create_task_requires_order_index_witness :
  create_task "u" (with_key_title "Buy milk" no_keys) "N" 1679100000000
    (idle [] abc_d)
  = (Failure 400 ValidationError, idle [] abc_d) /\
  nth_error insertTaskQuery_columns 9 = Some col_order_index /\
  forall input,
    nth_error (insertTaskParams "N" "u" input 1679100000000) 9
    = Some (VInt 0).
Proof.
  apply (create_task_requires_order_index "u"
           (with_key_title "Buy milk" no_keys) "N" 1679100000000 [] abc_d).
  reflexivity.
Defined.

(* ===================================================================== *)
(** * PATCH /api/tasks/:task_id on the sample data *)
(* ===================================================================== *)

(** C2. Completing B, the task at index 1 of A(0) B(1) C(2): B keeps its
    index 1, and C stays at index 2 instead of moving to 1. *)
Theorem complete_leaves_gap :
  map (fun t => (id t, is_completed t, order_index t))
    (view (snd (update_task "u" "B" (with_key_is_completed true no_keys)
                  1679100000000 (idle [] abc_d))))
  = [("A", false, 0); ("B", true, 1); ("C", false, 2); ("D", true, 5)].
Proof. reflexivity. Qed.

(** C4. Uncompleting D while A is the only active task, at index 0: the
    previous maximum is 0, and D is stored at index 0, not 1. With an
    [order_index] key in the same request the UPDATE assigns the column
    twice and the request is answered 500, D staying completed. *)
Theorem uncomplete_beside_single_task :
  select_max_order_index "u" a_d = Some 0 /\
  map (fun t => (id t, is_completed t, order_index t))
    (view (snd (update_task "u" "D" (with_key_is_completed false no_keys)
                  1679100000000 (idle [] a_d))))
  = [("A", false, 0); ("D", false, 0)] /\
  update_task "u" "D"
    (with_key_order_index 1 (with_key_is_completed false no_keys))
    1679100000000 (idle [] abc_d)
  = (Failure 500 InternalServerError, idle [] abc_d).
Proof. repeat split; reflexivity. Qed.

(** C5. Moving the only active task from index 0 to index 1: the maximum
    active index is 0, so 1 is within [0, maxActiveIndex + 1], and the
    request is answered 400, out of bounds. *)
Theorem reorder_single_task_rejected :
  select_max_order_index "u" a_d = Some 0 /\
  update_task "u" "A" (with_key_order_index 1 no_keys) 1679100000000
    (idle [] a_d)
  = (Failure 400 (OrderIndexOutOfBounds 1 0), idle [] a_d).
Proof. split; reflexivity. Qed.

(** C6. The same move is an in-bounds reorder from 0 to 1, and the moved
    task is not assigned the new index: A is still at index 0. And a
    reorder that is accepted, C from index 2 to index 0, is done in a
    transaction that the handler leaves open: the committed table is as it
    was. *)
Theorem reorder_single_task_not_moved :
  (0 <= 1 <= match select_max_order_index "u" a_d with
             | Some m => m + 1
             | None => 0
             end) /\
  active_view "u"
    (view (snd (update_task "u" "A" (with_key_order_index 1 no_keys)
                  1679100000000 (idle [] a_d))))
  = [("A", 0)] /\
  committed (snd (update_task "u" "C" (with_key_order_index 0 no_keys)
                    1679100000000 (idle [] abc_d)))
  = abc_d /\
  active_view "u"
    (view (snd (update_task "u" "C" (with_key_order_index 0 no_keys)
                  1679100000000 (idle [] abc_d))))
  = [("A", 1); ("B", 2); ("C", 0)].
Proof. split; [cbn; lia | repeat split; reflexivity]. Qed.

(** The dashboard sends [completed_at] with [is_completed]; the stored
    time is the one of the server. *)
Example toggle_with_client_time :
  map (fun t => (id t, completed_at t))
    (view (snd (update_task "u" "B"
                  (with_key_completed_at (DValue (Some 1))
                     (with_key_is_completed true no_keys))
                  1679100000000 (idle [] abc_d))))
  = [("A", None); ("B", Some 1679100000000); ("C", None);
     ("D", Some 1679000000000)].
Proof. reflexivity. Qed.

(** Scenarios 3, 4 and 5 of the specification: a completed task made
    incomplete while the highest active index is 2 gets index 3; moving C
    of A(0) B(1) C(2) to index 0 gives A(1) B(2) C(0); a move to index 5 is
    refused and nothing changes. *)
Example uncomplete_scenario :
  active_view "u"
    (view (snd (update_task "u" "D" (with_key_is_completed false no_keys)
                  1679100000000 (idle [] abc_d))))
  = [("A", 0); ("B", 1); ("C", 2); ("D", 3)].
Proof. reflexivity. Qed.

Example reorder_scenario :
  active_view "u"
    (view (snd (update_task "u" "C" (with_key_order_index 0 no_keys)
                  1679100000000 (idle [] abc_d))))
  = [("A", 1); ("B", 2); ("C", 0)].
Proof. reflexivity. Qed.

Example out_of_bounds_scenario :
  update_task "u" "A" (with_key_order_index 5 no_keys) 1679100000000
    (idle [] abc_d)
  = (Failure 400 (OrderIndexOutOfBounds 5 3), idle [] abc_d).
Proof. reflexivity. Qed.

(** Moving A from index 0 to index 3 = maxActiveIndex + 1 is accepted and
    leaves the indices 0, 1, 3. *)
Example reorder_to_end_plus_one :
  active_view "u"
    (view (snd (handle (PATCH_task "u" "A" (with_key_order_index 3 no_keys)
                          1679100000000) (idle [] abc_d))))
  = [("A", 3); ("B", 0); ("C", 1)].
Proof. reflexivity. Qed.

(** C1 as stated fails: from the dense indices 0, 1, 2 the reorder of A to
    index 3 is accepted (200) and leaves a gap at 2. *)
Lemma density_lost_by_reorder_to_end :
  dense "u" (view (idle [] abc_d)) /\
  (exists row,
      fst (handle (PATCH_task "u" "A" (with_key_order_index 3 no_keys)
                     1679100000000) (idle [] abc_d)) = Json 200 row) /\
  ~ dense "u"
      (view (run [PATCH_task "u" "A" (with_key_order_index 3 no_keys)
                    1679100000000] (idle [] abc_d))).
Proof.
  split; [|split].
  - split.
    + cbn. repeat constructor; cbn; intuition congruence.
    + intros z. cbn. intuition lia.
  - eexists. reflexivity.
  - intros [_ H]. specialize (H 2). cbn in H. intuition lia.
Qed.

(* ===================================================================== *)
(** * The SET list of the PATCH handler *)
(* ===================================================================== *)

Lemma column_eqb_eq (a b : column) : column_eqb a b = true <-> a = b.
Proof. destruct a, b; cbn; split; congruence. Qed.

Lemma resolve_app (l1 l2 : list set_item) (params : list sqlval) :
  resolve (l1 ++ l2) params =
  match resolve l1 params, resolve l2 params with
  | Some a, Some b => Some (a ++ b)
  | _, _ => None
  end.
Proof.
  induction l1 as [|[c r] l1 IH]; cbn.
  - destruct (resolve l2 params); reflexivity.
  - rewrite IH. destruct (rhs_value params r); [|reflexivity].
    destruct (resolve l1 params); [|reflexivity].
    destruct (resolve l2 params); reflexivity.
Qed.

Lemma param_app (params : list sqlval) (v : sqlval) (n : nat) :
  (1 <= n <= List.length params)%nat ->
  param (params ++ [v]) n = param params n.
Proof.
  intros H. destruct n as [|k]; [lia|]. cbn.
  apply nth_error_app1. lia.
Qed.

Lemma param_last (params : list sqlval) (v : sqlval) :
  param (params ++ [v]) (S (List.length params)) = Some v.
Proof.
  cbn. rewrite nth_error_app2 by lia.
  rewrite Nat.sub_diag. reflexivity.
Qed.

Lemma resolve_more_params (items : list set_item) (params : list sqlval)
  (v : sqlval) :
  Forall (fun it : set_item =>
            match snd it with
            | Placeholder n => (3 <= n < S (List.length params))%nat
            | NullLiteral => True
            end) items ->
  resolve items (params ++ [v]) = resolve items params.
Proof.
  induction 1 as [|[c r] l Hr _ IH]; cbn; [reflexivity|].
  rewrite IH. destruct r as [n|]; cbn; [|reflexivity].
  cbn in Hr. rewrite param_app by lia. reflexivity.
Qed.

Lemma apply_set_resolve (items : list set_item) (params : list sqlval)
  (a : list (column * sqlval)) :
  resolve items params = Some a ->
  forall t, apply_set items params t = assign_all a t.
Proof.
  revert a. induction items as [|[c r] l IH]; cbn; intros a H t.
  - injection H as <-. reflexivity.
  - destruct (rhs_value params r) as [v|]; [|discriminate].
    destruct (resolve l params) as [a'|]; [|discriminate].
    injection H as <-. cbn.
    destruct (set_column c v t); [|reflexivity].
    now apply IH.
Qed.

Lemma assign_all_app (a b : list (column * sqlval)) (t : task) :
  assign_all (a ++ b) t =
  match assign_all a t with
  | Some t' => assign_all b t'
  | None => None
  end.
Proof.
  revert t. induction a as [|[c v] a IH]; cbn; intros t; [reflexivity|].
  destruct (set_column c v t); [apply IH | reflexivity].
Qed.

Lemma builds_init (task_id userId : string) :
  builds task_id userId (mkBuilder [] [VText task_id; VText userId] 3) [].
Proof.
  constructor; cbn; try reflexivity.
  - now exists [].
  - constructor.
Qed.

Lemma builds_push (task_id userId : string) (q : query_builder)
  (a : list (column * sqlval)) (c : column) (v : sqlval) :
  builds task_id userId q a ->
  builds task_id userId (push c v q) (a ++ [(c, v)]).
Proof.
  intros [Hi [rest Hw] Hr Hv]. constructor; cbn.
  - rewrite length_app. cbn. lia.
  - rewrite Hw. now exists (rest ++ [v]).
  - apply Forall_app. split.
    + eapply Forall_impl; [|exact Hr].
      intros [c' [n|]]; cbn; lia.
    + constructor; [|constructor]. cbn.
      rewrite Hi, Hw. cbn. lia.
  - rewrite resolve_app. rewrite resolve_more_params.
    + rewrite Hv. cbn. rewrite Hi, param_last. reflexivity.
    + rewrite <- Hi. exact Hr.
Qed.

Lemma builds_push_null (task_id userId : string) (q : query_builder)
  (a : list (column * sqlval)) (c : column) :
  builds task_id userId q a ->
  builds task_id userId (push_null c q) (a ++ [(c, VNull)]).
Proof.
  intros [Hi Hw Hr Hv]. constructor; cbn; try assumption.
  - apply Forall_app. split; [exact Hr|].
    constructor; [exact I | constructor].
  - rewrite resolve_app, Hv. reflexivity.
Qed.

Lemma builds_push_if {A : Type} (task_id userId : string) (q : query_builder)
  (a : list (column * sqlval)) (o : option A) (c : column) (f : A -> sqlval) :
  builds task_id userId q a ->
  builds task_id userId (push_if o c f q) (a ++ assignment_if o c f).
Proof.
  intros H. destruct o as [x|]; cbn.
  - now apply builds_push.
  - now rewrite app_nil_r.
Qed.

Lemma resolve_columns (items : list set_item) (params : list sqlval)
  (a : list (column * sqlval)) :
  resolve items params = Some a -> map fst items = map fst a.
Proof.
  revert a. induction items as [|[c r] l IH]; cbn; intros a H.
  - injection H as <-. reflexivity.
  - destruct (rhs_value params r); [|discriminate].
    destruct (resolve l params) as [a'|]; [|discriminate].
    injection H as <-. cbn. f_equal. now apply IH.
Qed.

Lemma max_placeholder_app (l1 l2 : list set_item) :
  max_placeholder (l1 ++ l2)
  = Nat.max (max_placeholder l1) (max_placeholder l2).
Proof.
  induction l1 as [|[c [n|]] l1 IH]; cbn [max_placeholder app];
    [reflexivity| |exact IH].
  rewrite IH. lia.
Qed.

Lemma max_placeholder_below (items : list set_item) (k : nat) :
  Forall (fun it : set_item =>
            match snd it with
            | Placeholder n => (3 <= n < k)%nat
            | NullLiteral => True
            end) items ->
  (max_placeholder items < Nat.max 1 k)%nat.
Proof.
  induction 1 as [|[c [n|]] l Hr _ IH]; cbn [max_placeholder snd] in *; lia.
Qed.

(** The guard of the COMMIT looks for [order_index = $k] with k the
    placeholder of [updated_at], which no other item carries: it never
    holds, and the handler never commits. *)
Lemma commit_guard_false (task_id userId : string) (q : query_builder)
  (a : list (column * sqlval)) (v : sqlval) :
  builds task_id userId q a ->
  existsb
    (set_item_eqb
       (col_order_index,
        Placeholder (paramIndex (push col_updated_at v q) - 1)))
    (queryParts (push col_updated_at v q)) = false.
Proof.
  intros [Hi _ Hr _]. cbn [push paramIndex queryParts].
  rewrite existsb_app. cbn. rewrite orb_false_r.
  replace (S (paramIndex q) - 1)%nat with (paramIndex q) by lia.
  apply not_true_is_false. intros H.
  apply existsb_exists in H as [[c [n|]] [Hin Heq]].
  - rewrite Forall_forall in Hr. specialize (Hr _ Hin). cbn in Hr.
    unfold set_item_eqb in Heq. cbn in Heq.
    apply andb_prop in Heq as [_ Heq].
    apply Nat.eqb_eq in Heq. lia.
  - unfold set_item_eqb in Heq. cbn in Heq.
    apply andb_prop in Heq as [_ Heq]. discriminate.
Qed.

Lemma update_rows_total (cond : task -> bool) (f : task -> option task)
  (g : task -> task) (tbl : list task) :
  (forall t, f t = Some (g t)) ->
  update_rows cond f tbl = Some (sql_update cond g tbl).
Proof.
  intros H. induction tbl as [|t l IH]; cbn; [reflexivity|].
  rewrite IH. destruct (cond t); [rewrite H|]; reflexivity.
Qed.

Lemma update_rows_error (cond : task -> bool) (f : task -> option task)
  (tbl : list task) (t : task) :
  In t tbl -> cond t = true -> f t = None ->
  update_rows cond f tbl = None.
Proof.
  intros Hin Hc Hf. induction tbl as [|x l IH]; [contradiction|].
  cbn. destruct Hin as [->|Hin].
  - destruct (update_rows cond f l); [|reflexivity].
    now rewrite Hc, Hf.
  - now rewrite IH.
Qed.

Lemma update_rows_ext (cond : task -> bool) (f g : task -> option task)
  (tbl : list task) :
  (forall t, f t = g t) ->
  update_rows cond f tbl = update_rows cond g tbl.
Proof.
  intros H. induction tbl as [|t l IH]; cbn; [reflexivity|].
  rewrite IH, H. reflexivity.
Qed.

(** The UPDATE of the handler, once [updated_at] is pushed: rejected on a
    column assigned twice, and otherwise the assignments applied to the
    rows of the task. *)
Lemma exec_update_task_builds (task_id userId : string) (q : query_builder)
  (a : list (column * sqlval)) (now : Z) (tbl : list task) :
  builds task_id userId q a ->
  let q' := push col_updated_at (VInt now) q in
  exec_update_task (queryParts q') (queryParams q') tbl =
  if has_dup (map fst (a ++ [(col_updated_at, VInt now)])) then None
  else
    match update_rows (is_task task_id userId)
            (assign_all (a ++ [(col_updated_at, VInt now)])) tbl with
    | None => None
    | Some tbl' => Some (tbl', filter (is_task task_id userId) tbl')
    end.
Proof.
  intros Hq q'.
  pose proof (builds_push _ _ _ _ col_updated_at (VInt now) Hq) as Hq'.
  fold q' in Hq'. destruct Hq' as [Hi' [rest' Hw'] Hr' Hv'].
  unfold exec_update_task.
  rewrite (resolve_columns _ _ _ Hv').
  destruct (has_dup _); [reflexivity|].
  assert (Hlen : Nat.eqb (List.length (queryParams q'))
                   (Nat.max 2 (max_placeholder (queryParts q'))) = true).
  { apply Nat.eqb_eq. subst q'. unfold push. cbn [queryParts queryParams].
    rewrite max_placeholder_app. cbn [max_placeholder].
    destruct Hq as [Hi [rest Hw] Hr _].
    pose proof (@max_placeholder_below (queryParts q) (paramIndex q) Hr) as Hm.
    rewrite length_app. rewrite Hw in Hi. rewrite Hw.
    cbn [List.length] in *. lia. }
  rewrite Hlen. cbn [negb].
  pose proof Hv' as Hv2. rewrite Hw' in Hv2 |- *. cbn [param nth_error].
  rewrite (update_rows_ext _ _ _ tbl
             (fun t => apply_set_resolve _ _ _ Hv2 t)).
  reflexivity.
Qed.

(** ** From the assignments to the row *)

Lemma as_text_null_text_or_null (o : option string) :
  as_text_null (text_or_null o) = Some o.
Proof. destruct o; reflexivity. Qed.

Lemma as_int_null_int_or_null (o : option Z) :
  as_int_null (int_or_null o) = Some o.
Proof. destruct o; reflexivity. Qed.

Lemma assign_completion (f : UpdateTaskInput) (currentTask : task)
  (now appended : Z) (t : task) :
  assign_all (completion_assignments f currentTask now appended) t
  = Some (completion_row f currentTask now appended t).
Proof.
  unfold completion_assignments, completion_row.
  destruct (upd_is_completed f) as [[|]|], (is_completed currentTask);
    reflexivity.
Qed.

Lemma assign_update_assignments (f : UpdateTaskInput) (currentTask : task)
  (now appended : Z) (moved : option Z) (t : task) :
  assign_all (update_assignments f currentTask now appended moved) t
  = Some (updated_row f currentTask now appended moved t).
Proof.
  unfold update_assignments, updated_row.
  repeat rewrite assign_all_app.
  assert (H1 : forall x, assign_all (assignment_if (upd_title f) col_title VText) x
                         = Some (set_if (upd_title f) with_title x)).
  { intros x. destruct (upd_title f); reflexivity. }
  assert (H2 : forall x,
             assign_all (assignment_if (upd_description f) col_description
                           text_or_null) x
             = Some (set_if (upd_description f) with_description x)).
  { intros x. destruct (upd_description f) as [d|]; cbn; [|reflexivity].
    now rewrite as_text_null_text_or_null. }
  assert (H3 : forall x,
             assign_all (assignment_if (upd_due_date_at f) col_due_date_at
                           int_or_null) x
             = Some (set_if (upd_due_date_at f) with_due_date_at x)).
  { intros x. destruct (upd_due_date_at f) as [d|]; cbn; [|reflexivity].
    now rewrite as_int_null_int_or_null. }
  assert (H4 : forall x,
             assign_all (assignment_if (upd_priority f) col_priority VText) x
             = Some (set_if (upd_priority f) with_priority x)).
  { intros x. destruct (upd_priority f); reflexivity. }
  assert (H5 : forall x,
             assign_all (assignment_if moved col_order_index VInt) x
             = Some (set_if moved with_order_index x)).
  { intros x. destruct moved; reflexivity. }
  assert (H6 : forall x,
             assign_all (assignment_if (upd_category_id f) col_category_id
                           text_or_null) x
             = Some (set_if (upd_category_id f) with_category_id x)).
  { intros x. destruct (upd_category_id f) as [d|]; cbn; [|reflexivity].
    now rewrite as_text_null_text_or_null. }
  rewrite H1, H2, H3, H4, assign_completion, H5, H6. reflexivity.
Qed.

(** The UPDATE assigns a column twice exactly when the request both makes
    a completed task incomplete and asks for a reorder. *)
Lemma has_dup_update_assignments (f : UpdateTaskInput) (currentTask : task)
  (now appended : Z) (moved : option Z) :
  has_dup (map fst (update_assignments f currentTask now appended moved)) =
  match moved, upd_is_completed f with
  | Some _, Some false => is_completed currentTask
  | _, _ => false
  end.
Proof.
  unfold update_assignments, completion_assignments.
  destruct f as [c t d due p done at_ i]. cbn [upd_title upd_description
    upd_due_date_at upd_priority upd_is_completed upd_category_id].
  destruct c, t, d, due, p, done as [[|]|], moved,
    (is_completed currentTask); reflexivity.
Qed.

(** ** The blocks of the handler, run *)

Lemma completion_part_run (userId task_id : string) (f : UpdateTaskInput)
  (currentTask : task) (now : Z) (q : query_builder)
  (a : list (column * sqlval)) (c : conn) :
  builds task_id userId q a ->
  exists q',
    completion_part userId f currentTask now q c = (Val q', c) /\
    builds task_id userId q'
      (a ++ completion_assignments f currentTask now
              (or_minus_one (select_max_order_index userId (view c)) + 1)).
Proof.
  intros Hq. unfold completion_part, completion_assignments.
  destruct (upd_is_completed f) as [[|]|].
  - destruct (is_completed currentTask); eexists; (split; [reflexivity|]).
    + now apply builds_push.
    + change [(col_is_completed, VBool true); (col_completed_at, VInt now)]
        with ([(col_is_completed, VBool true)] ++
              [(col_completed_at, VInt now)]).
      rewrite app_assoc. now repeat apply builds_push.
  - destruct (is_completed currentTask); eexists; (split; [reflexivity|]).
    + match goal with
      | |- builds _ _ _ (_ ++ [?x; ?y; ?z]) =>
          change [x; y; z] with ([x] ++ [y] ++ [z])
      end.
      rewrite !app_assoc. apply builds_push. apply builds_push_null.
      now apply builds_push.
    + match goal with
      | |- builds _ _ _ (_ ++ [?x; ?y]) =>
          change [x; y] with ([x] ++ [y])
      end.
      rewrite app_assoc. apply builds_push_null. now apply builds_push.
  - eexists. split; [reflexivity|]. now rewrite app_nil_r.
Qed.

Lemma reorder_part_run (userId task_id : string) (f : UpdateTaskInput)
  (currentTask : task) (q : query_builder) (c : conn) :
  reorder_part userId task_id f currentTask q c =
  match reorder_requested f currentTask with
  | None => (Val q, c)
  | Some newIndex =>
      if newIndex <? 0 then (Return (Failure 400 OrderIndexNegative), c)
      else
        let bound := or_minus_one (select_max_order_index userId (view c)) + 1 in
        if bound <? newIndex
        then (Return (Failure 400 (OrderIndexOutOfBounds newIndex bound)), c)
        else (Val (push col_order_index (VInt newIndex) q),
              in_transaction
                (reorder_shift userId task_id (order_index currentTask)
                   newIndex (view c)) c)
  end.
Proof.
  unfold reorder_part.
  destruct (reorder_requested f currentTask) as [n|]; [|reflexivity].
  destruct (n <? 0); [reflexivity|].
  unfold bind, query. cbn zeta.
  destruct (_ <? n); [reflexivity|].
  unfold reorder_shift, BEGIN, execute, ret, write, begin_conn, view,
    in_transaction, categories.
  destruct c as [cats tbl [[pcats p]|]];
    cbn [pending committed committed_categories];
    destruct (n <? order_index currentTask); reflexivity.
Qed.

(** ** The columns of the updated row *)

Lemma set_if_keeps {A B : Type} (proj : task -> B) (o : option A)
  (f : A -> task -> task) (t : task) :
  (forall a x, proj (f a x) = proj x) ->
  proj (set_if o f t) = proj t.
Proof. intros H. destruct o; cbn; [apply H | reflexivity]. Qed.

Ltac frame_columns :=
  unfold updated_row; cbn [with_updated_at id user_id is_completed
    completed_at order_index created_at];
  repeat (rewrite set_if_keeps by (intros; reflexivity)).

Lemma id_completion_row (f : UpdateTaskInput) (currentTask : task)
  (now appended : Z) (t : task) :
  id (completion_row f currentTask now appended t) = id t.
Proof.
  unfold completion_row.
  destruct (upd_is_completed f) as [[|]|], (is_completed currentTask);
    reflexivity.
Qed.

Lemma user_id_completion_row (f : UpdateTaskInput) (currentTask : task)
  (now appended : Z) (t : task) :
  user_id (completion_row f currentTask now appended t) = user_id t.
Proof.
  unfold completion_row.
  destruct (upd_is_completed f) as [[|]|], (is_completed currentTask);
    reflexivity.
Qed.

Lemma id_updated_row (f : UpdateTaskInput) (currentTask : task)
  (now appended : Z) (moved : option Z) (t : task) :
  id (updated_row f currentTask now appended moved t) = id t.
Proof. frame_columns. rewrite id_completion_row. now frame_columns. Qed.

Lemma user_id_updated_row (f : UpdateTaskInput) (currentTask : task)
  (now appended : Z) (moved : option Z) (t : task) :
  user_id (updated_row f currentTask now appended moved t) = user_id t.
Proof. frame_columns. rewrite user_id_completion_row. now frame_columns. Qed.

Lemma is_completed_updated_row (f : UpdateTaskInput) (currentTask : task)
  (now appended : Z) (moved : option Z) (t : task) :
  is_completed (updated_row f currentTask now appended moved t) =
  match upd_is_completed f with
  | Some done => done
  | None => is_completed t
  end.
Proof.
  frame_columns. unfold completion_row.
  destruct (upd_is_completed f) as [[|]|], (is_completed currentTask);
    cbn; now frame_columns.
Qed.

Lemma completed_at_updated_row (f : UpdateTaskInput) (currentTask : task)
  (now appended : Z) (moved : option Z) (t : task) :
  completed_at (updated_row f currentTask now appended moved t) =
  match upd_is_completed f with
  | None => completed_at t
  | Some true =>
      if is_completed currentTask then completed_at t else Some now
  | Some false => None
  end.
Proof.
  frame_columns. unfold completion_row.
  destruct (upd_is_completed f) as [[|]|], (is_completed currentTask);
    cbn; now frame_columns.
Qed.

Lemma order_index_updated_row (f : UpdateTaskInput) (currentTask : task)
  (now appended : Z) (moved : option Z) (t : task) :
  order_index (updated_row f currentTask now appended moved t) =
  match moved with
  | Some newIndex => newIndex
  | None =>
      match upd_is_completed f with
      | Some false => if is_completed currentTask then appended
                      else order_index t
      | _ => order_index t
      end
  end.
Proof.
  unfold updated_row. cbn [with_updated_at order_index].
  rewrite set_if_keeps by (intros; reflexivity).
  destruct moved as [n|]; cbn [set_if]; [reflexivity|].
  unfold completion_row.
  destruct (upd_is_completed f) as [[|]|], (is_completed currentTask);
    cbn; now frame_columns.
Qed.

Lemma is_task_updated_row (task_id userId : string) (f : UpdateTaskInput)
  (currentTask : task) (now appended : Z) (moved : option Z) (t : task) :
  is_task task_id userId (updated_row f currentTask now appended moved t)
  = is_task task_id userId t.
Proof.
  unfold is_task. now rewrite id_updated_row, user_id_updated_row.
Qed.

(** ** The rows the UPDATE returns *)

Lemma filter_sql_update_same (cond : task -> bool) (g : task -> task)
  (tbl : list task) :
  (forall t, cond (g t) = cond t) ->
  filter cond (sql_update cond g tbl) = map g (filter cond tbl).
Proof.
  intros H. unfold sql_update.
  induction tbl as [|t l IH]; cbn; [reflexivity|].
  destruct (cond t) eqn:Hc.
  - cbn. rewrite H, Hc. cbn. now f_equal.
  - rewrite Hc. exact IH.
Qed.

Lemma filter_sql_update_other (cond other : task -> bool) (g : task -> task)
  (tbl : list task) :
  (forall t, other t = true -> cond t = false) ->
  (forall t, cond (g t) = cond t) ->
  filter cond (sql_update other g tbl) = filter cond tbl.
Proof.
  intros Hdis Hg. unfold sql_update.
  induction tbl as [|t l IH]; cbn; [reflexivity|].
  destruct (other t) eqn:Ho.
  - rewrite Hg, (Hdis _ Ho). exact IH.
  - destruct (cond t); now rewrite IH.
Qed.

Lemma is_task_with_order_index (task_id userId : string) (n : Z) (t : task) :
  is_task task_id userId (with_order_index n t) = is_task task_id userId t.
Proof. reflexivity. Qed.

Lemma filter_is_task_reorder_shift (userId task_id : string)
  (oldIndex newIndex : Z) (tbl : list task) :
  filter (is_task task_id userId)
    (reorder_shift userId task_id oldIndex newIndex tbl)
  = filter (is_task task_id userId) tbl.
Proof.
  unfold reorder_shift, shift_down, shift_up.
  destruct (newIndex <? oldIndex);
    apply filter_sql_update_other; try (intros; reflexivity);
    intros t H; unfold is_task;
    apply andb_prop in H as [_ H];
    apply negb_true_iff in H; now rewrite H.
Qed.

(** ** The PATCH handler, case by case *)

Lemma builds_frame (task_id userId : string) (f : UpdateTaskInput) :
  builds task_id userId
    (push_if (upd_priority f) col_priority VText
       (push_if (upd_due_date_at f) col_due_date_at int_or_null
          (push_if (upd_description f) col_description text_or_null
             (push_if (upd_title f) col_title VText
                (mkBuilder [] [VText task_id; VText userId] 3)))))
    (((assignment_if (upd_title f) col_title VText ++
       assignment_if (upd_description f) col_description text_or_null) ++
      assignment_if (upd_due_date_at f) col_due_date_at int_or_null) ++
     assignment_if (upd_priority f) col_priority VText).
Proof.
  repeat apply builds_push_if.
  apply (builds_push_if _ _ _ _ (upd_title f) col_title VText
           (builds_init task_id userId)).
Qed.

(** The UPDATE and the answer, from a builder that stands for all the
    assignments but [updated_at]. *)
Lemma run_update (task_id userId : string) (f : UpdateTaskInput)
  (currentTask : task) (now appended : Z) (moved : option Z)
  (q : query_builder) (a : list (column * sqlval)) (c : conn)
  (rest : list task) :
  builds task_id userId q a ->
  a ++ [(col_updated_at, VInt now)]
  = update_assignments f currentTask now appended moved ->
  filter (is_task task_id userId) (view c) = currentTask :: rest ->
  (result <- execute_returning
     (exec_update_task (queryParts (push col_updated_at (VInt now) q))
        (queryParams (push col_updated_at (VInt now) q))) ;;
   match result with
   | [] => ROLLBACK ;; reply (Failure 404 TaskNotFound)
   | row :: _ =>
       (if existsb
             (set_item_eqb
                (col_order_index,
                 Placeholder
                   (paramIndex (push col_updated_at (VInt now) q) - 1)))
             (queryParts (push col_updated_at (VInt now) q))
        then COMMIT else ret tt) ;;
       (if taskSchema row then ret tt else throw ZodError) ;;
       ret (Json 200 row)
   end) c
  = if match moved, upd_is_completed f with
       | Some _, Some false => is_completed currentTask
       | _, _ => false
       end
    then (Throw DatabaseError, c)
    else
      (if taskSchema
            (updated_row f currentTask now appended moved currentTask)
       then Val (Json 200
                   (updated_row f currentTask now appended moved currentTask))
       else Throw ZodError,
       write (sql_update (is_task task_id userId)
                (updated_row f currentTask now appended moved) (view c)) c).
Proof.
  intros Hq Ha Hcur.
  unfold bind at 1. unfold execute_returning.
  rewrite (exec_update_task_builds _ _ _ _ now (view c) Hq). rewrite Ha.
  rewrite has_dup_update_assignments.
  destruct (match moved, upd_is_completed f with
            | Some _, Some false => is_completed currentTask
            | _, _ => false
            end); [reflexivity|].
  rewrite (update_rows_total _ _
             (updated_row f currentTask now appended moved) (view c)
             (assign_update_assignments f currentTask now appended moved)).
  rewrite filter_sql_update_same
    by (intros; apply is_task_updated_row).
  rewrite Hcur. cbn [map].
  unfold bind at 1. rewrite (commit_guard_false _ _ _ _ (VInt now) Hq).
  unfold bind, ret, throw.
  destruct (taskSchema _); reflexivity.
Qed.

Lemma build_and_run_update_run (userId task_id : string)
  (f : UpdateTaskInput) (currentTask : task) (now : Z) (c : conn)
  (rest : list task) :
  filter (is_task task_id userId) (view c) = currentTask :: rest ->
  let appended := or_minus_one (select_max_order_index userId (view c)) + 1 in
  build_and_run_update userId task_id f currentTask now c =
  match reorder_requested f currentTask with
  | None =>
      (if taskSchema (returned_row userId f currentTask now c)
       then Val (Json 200 (returned_row userId f currentTask now c))
       else Throw ZodError,
       patched_conn userId task_id f currentTask now c)
  | Some newIndex =>
      if newIndex <? 0 then (Return (Failure 400 OrderIndexNegative), c)
      else if appended <? newIndex
      then (Return (Failure 400 (OrderIndexOutOfBounds newIndex appended)), c)
      else if is_completed currentTask
      then (Throw DatabaseError,
            in_transaction
              (reorder_shift userId task_id (order_index currentTask)
                 newIndex (view c)) c)
      else
        (if taskSchema (returned_row userId f currentTask now c)
         then Val (Json 200 (returned_row userId f currentTask now c))
         else Throw ZodError,
         patched_conn userId task_id f currentTask now c)
  end.
Proof.
  intros Hcur appended.
  unfold build_and_run_update. cbn zeta.
  destruct (completion_part_run userId task_id f currentTask now _ _ c
              (builds_frame task_id userId f)) as [q5 [Hrun Hq5]].
  fold appended in Hq5.
  unfold bind at 1. rewrite Hrun.
  unfold bind at 1. rewrite reorder_part_run.
  unfold patched_conn, patched, returned_row. fold appended.
  destruct (reorder_requested f currentTask) as [n|] eqn:Hreq.
  - destruct (n <? 0); [reflexivity|].
    cbn zeta. fold appended.
    destruct (appended <? n); [reflexivity|].
    pose proof (builds_push_if _ _ _ _ (upd_category_id f) col_category_id
                  text_or_null
                  (builds_push _ _ _ _ col_order_index (VInt n) Hq5))
      as Hq7.
    set (c1 := in_transaction
                 (reorder_shift userId task_id
                    (order_index currentTask) n (view c)) c).
    assert (Hcur1 : filter (is_task task_id userId) (view c1)
                    = currentTask :: rest).
    { unfold c1. rewrite view_in_transaction.
      now rewrite filter_is_task_reorder_shift. }
    rewrite (run_update task_id userId f currentTask now appended (Some n)
               _ _ c1 rest Hq7 eq_refl Hcur1).
    unfold c1. rewrite write_in_transaction, view_in_transaction.
    assert (Hdone : upd_is_completed f = Some false \/
                    is_completed currentTask = false).
    { unfold reorder_requested in Hreq.
      destruct (upd_order_index f); [|discriminate].
      destruct (upd_is_completed f) as [[|]|]; cbn in Hreq.
      - rewrite andb_false_r in Hreq. discriminate.
      - now left.
      - right. destruct (is_completed currentTask); [|reflexivity].
        rewrite andb_false_r in Hreq. discriminate. }
    destruct (is_completed currentTask) eqn:Hc.
    + destruct Hdone as [-> | ?]; [reflexivity | discriminate].
    + destruct (upd_is_completed f) as [[|]|]; reflexivity.
  - pose proof (builds_push_if _ _ _ _ (upd_category_id f) col_category_id
                  text_or_null Hq5) as Hq7.
    rewrite (run_update task_id userId f currentTask now appended None
               _ _ c rest Hq7).
    + reflexivity.
    + unfold update_assignments. cbn [assignment_if].
      now rewrite app_nil_r.
    + exact Hcur.
Qed.

Lemma update_task_result (userId task_id : string) (b : body) (now : Z)
  (c : conn) :
  patch_result userId task_id b now c (update_task userId task_id b now c).
Proof.
  unfold update_task, try_catch.
  unfold bind at 1. unfold parse.
  destruct (updateTaskInputSchema b) as [f|] eqn:Hparse;
    [|apply patch_failed].
  cbn [ret]. unfold bind at 1. unfold query at 1.
  destruct (filter (is_task task_id userId) (view c))
    as [|currentTask rest] eqn:Hcur; [apply patch_refused|].
  unfold bind at 1.
  assert (Hcat :
    match upd_category_id f with
    | Some (Some category_id) =>
        categoryResult <-
          query_categories (select_category category_id userId) ;;
        match categoryResult with
        | [] => reply (Failure 400 CategoryNotFound)
        | _ :: _ => ret tt
        end
    | _ => ret tt
    end c = (Val tt, c) \/
    match upd_category_id f with
    | Some (Some category_id) =>
        categoryResult <-
          query_categories (select_category category_id userId) ;;
        match categoryResult with
        | [] => reply (Failure 400 CategoryNotFound)
        | _ :: _ => ret tt
        end
    | _ => ret tt
    end c = (Return (Failure 400 CategoryNotFound), c)).
  { destruct (upd_category_id f) as [[cid|]|]; try (now left).
    unfold bind, query_categories.
    destruct (select_category cid userId (categories c)); [right|left];
      reflexivity. }
  destruct Hcat as [-> | ->]; [|apply patch_refused].
  rewrite (build_and_run_update_run userId task_id f currentTask now c rest
             Hcur).
  destruct (reorder_requested f currentTask) as [n|] eqn:Hreq.
  - destruct (n <? 0) eqn:Hneg; [apply patch_refused|].
    destruct (_ <? n) eqn:Hbound; [apply patch_refused|].
    destruct (is_completed currentTask) eqn:Hdone.
    + exact (patch_failed userId task_id b now c 500 InternalServerError).
    + destruct (taskSchema _) eqn:Hrow.
      * apply (@patch_accepted userId task_id b now c f currentTask rest
                 Hparse Hcur); [|exact Hrow].
        rewrite Hreq. split; [assumption|]. lia.
      * exact (@patch_unanswered userId task_id b now c f currentTask rest
                 Hparse Hcur Hrow).
  - destruct (taskSchema _) eqn:Hrow.
    + apply (@patch_accepted userId task_id b now c f currentTask rest
               Hparse Hcur); [|exact Hrow].
      now rewrite Hreq.
    + exact (@patch_unanswered userId task_id b now c f currentTask rest
               Hparse Hcur Hrow).
Qed.

(* ===================================================================== *)
(** * The connection a request leaves *)
(* ===================================================================== *)

Lemma delete_task_run (userId task_id : string) (c : conn) :
  delete_task userId task_id c =
  match filter (is_task task_id userId) (view c) with
  | [] => (Failure 404 TaskNotFound, rollback_conn c)
  | gone :: _ =>
      (NoContent,
       mkConn (categories c) (deleted userId task_id gone (view c)) None)
  end.
Proof.
  unfold delete_task, try_catch, bind, BEGIN, query, execute_delete.
  destruct c as [cats tbl [[pcats p]|]];
    cbn [begin_conn view pending committed categories];
    match goal with
    | |- context [filter (is_task task_id userId) ?T] =>
        destruct (filter (is_task task_id userId) T) as [|gone rest] eqn:Hsel
    end; try reflexivity;
    cbn [write pending categories committed view]; rewrite Hsel;
    cbn [List.length Nat.eqb]; unfold deleted;
    destruct (is_completed gone) eqn:Hgone;
    cbn [negb ret execute COMMIT commit_conn write view pending
         categories committed];
    (rewrite delete_keeps_rows by assumption) ||
    (rewrite <- delete_shift_rows by assumption);
    reflexivity.
Qed.

Lemma both_view (P : list task -> Prop) (c : conn) :
  both P c -> P (view c).
Proof. unfold both, view. destruct (pending c) as [[pcats p]|]; tauto. Qed.

Lemma both_rollback (P : list task -> Prop) (c : conn) :
  both P c -> both P (rollback_conn c).
Proof. unfold both. cbn. tauto. Qed.

Lemma both_write (P : list task -> Prop) (c : conn) (tbl : list task) :
  both P c -> P tbl -> both P (write tbl c).
Proof. unfold both, write. destruct (pending c) as [[pcats p]|]; cbn; tauto. Qed.

Lemma both_open (P : list task -> Prop) (c : conn) (tbl : list task) :
  both P c -> P tbl ->
  both P (in_transaction tbl c).
Proof. unfold both. cbn. tauto. Qed.

Lemma both_committed (P : list task -> Prop) (cats : list category)
  (tbl : list task) :
  P tbl -> both P (mkConn cats tbl None).
Proof. unfold both. cbn. tauto. Qed.

Lemma both_patched (P : list task -> Prop) (userId task_id : string)
  (f : UpdateTaskInput) (currentTask : task) (now : Z) (c : conn) :
  both P c ->
  P (patched userId task_id f currentTask now (view c)) ->
  both P (patched_conn userId task_id f currentTask now c).
Proof.
  intros Hc HP. unfold patched_conn.
  destruct (reorder_requested f currentTask).
  - now apply both_open.
  - now apply both_write.
Qed.

Lemma both_unanswered (P : list task -> Prop) (userId task_id : string)
  (f : UpdateTaskInput) (currentTask : task) (now : Z) (c : conn) :
  both P c ->
  (reorder_requested f currentTask = None ->
   P (patched userId task_id f currentTask now (view c))) ->
  both P (rollback_conn (patched_conn userId task_id f currentTask now c)).
Proof.
  intros Hc HP. unfold patched_conn.
  destruct (reorder_requested f currentTask).
  - rewrite rollback_in_transaction. now apply both_rollback.
  - apply both_rollback. apply both_write; [exact Hc | now apply HP].
Qed.

(** ** The primary key *)

Lemma keyed_unique (tbl : list task) (t t' : task) :
  keyed tbl -> In t tbl -> In t' tbl -> id t = id t' -> t = t'.
Proof.
  unfold keyed. induction tbl as [|x l IH]; cbn; [contradiction|].
  intros Hk Ht Ht' Hid. inversion Hk as [|? ? Hnot Hk']; subst.
  destruct Ht as [->|Ht], Ht' as [->|Ht'].
  - reflexivity.
  - exfalso. apply Hnot. rewrite Hid. now apply in_map.
  - exfalso. apply Hnot. rewrite <- Hid. now apply in_map.
  - now apply IH.
Qed.

Lemma is_task_id (task_id userId : string) (t : task) :
  is_task task_id userId t = true -> id t = task_id /\ user_id t = userId.
Proof.
  unfold is_task. intros H. apply andb_prop in H as [H1 H2].
  now apply String.eqb_eq in H1, H2.
Qed.

Lemma current_task_unique (task_id userId : string) (tbl : list task)
  (currentTask : task) (rest : list task) (t : task) :
  keyed tbl ->
  filter (is_task task_id userId) tbl = currentTask :: rest ->
  In t tbl -> is_task task_id userId t = true -> t = currentTask.
Proof.
  intros Hk Hcur Hin Ht.
  assert (Hc : In currentTask (filter (is_task task_id userId) tbl)).
  { rewrite Hcur. now left. }
  apply filter_In in Hc as [Hc1 Hc2].
  apply (@keyed_unique tbl t currentTask Hk Hin Hc1).
  apply is_task_id in Ht as [-> _].
  apply is_task_id in Hc2 as [-> _]. reflexivity.
Qed.

Lemma keyed_sql_update (cond : task -> bool) (g : task -> task)
  (tbl : list task) :
  (forall t, id (g t) = id t) -> keyed tbl -> keyed (sql_update cond g tbl).
Proof.
  intros Hg. unfold keyed, sql_update. rewrite map_map.
  intros Hk. erewrite map_ext; [exact Hk|].
  intros t. cbn. destruct (cond t); [apply Hg | reflexivity].
Qed.

Lemma keyed_filter (cond : task -> bool) (tbl : list task) :
  keyed tbl -> keyed (filter cond tbl).
Proof.
  unfold keyed. induction tbl as [|t l IH]; cbn; [trivial|].
  intros Hk. inversion Hk as [|? ? Hnot Hk']; subst.
  destruct (cond t); cbn; [|now apply IH].
  constructor; [|now apply IH].
  intros Hin. apply Hnot. apply in_map_iff in Hin as [x [Hx Hin]].
  apply filter_In in Hin as [Hin _]. rewrite <- Hx. now apply in_map.
Qed.

Lemma keyed_reorder_shift (userId task_id : string) (oldIndex newIndex : Z)
  (tbl : list task) :
  keyed tbl -> keyed (reorder_shift userId task_id oldIndex newIndex tbl).
Proof.
  unfold reorder_shift, shift_down, shift_up. intros Hk.
  destruct (newIndex <? oldIndex); apply keyed_sql_update;
    try assumption; reflexivity.
Qed.

Lemma keyed_patched (userId task_id : string) (f : UpdateTaskInput)
  (currentTask : task) (now : Z) (tbl : list task) :
  keyed tbl -> keyed (patched userId task_id f currentTask now tbl).
Proof.
  intros Hk. unfold patched.
  destruct (reorder_requested f currentTask);
    apply keyed_sql_update; try (intros; apply id_updated_row);
    try assumption.
  now apply keyed_reorder_shift.
Qed.

Lemma keyed_deleted (userId task_id : string) (gone : task)
  (tbl : list task) :
  keyed tbl -> keyed (deleted userId task_id gone tbl).
Proof.
  intros Hk. unfold deleted, keyed. rewrite map_map. cbn.
  now apply keyed_filter.
Qed.

(** ** An accepted PATCH, row by row *)

Lemma is_active_not_task (userId task_id : string) (t : task) :
  is_active userId t = true -> is_task task_id userId t = false ->
  String.eqb (id t) task_id = false.
Proof.
  unfold is_active, is_task. intros Ha Ht.
  apply andb_prop in Ha as [Hu _]. rewrite Hu, andb_true_r in Ht.
  exact Ht.
Qed.

Lemma reorder_shift_rows (userId task_id : string) (oldIndex newIndex : Z)
  (tbl : list task) :
  reorder_shift userId task_id oldIndex newIndex tbl =
  map (fun t =>
         if is_task task_id userId t then t
         else with_order_index
                (index_after_reorder userId task_id oldIndex newIndex t) t)
      tbl.
Proof.
  unfold reorder_shift, shift_down, shift_up, sql_update,
    index_after_reorder.
  destruct (newIndex <? oldIndex) eqn:Hlt; apply map_ext; intros t;
    destruct (is_task task_id userId t) eqn:Ht.
  - apply is_task_id in Ht as [Ht _]. apply String.eqb_eq in Ht.
    rewrite Ht. cbn. now rewrite andb_false_r.
  - destruct (is_active userId t) eqn:Ha; cbn [andb].
    + rewrite (is_active_not_task _ _ _ Ha Ht). cbn [negb].
      rewrite andb_true_r.
      destruct ((newIndex <=? order_index t) && (order_index t <? oldIndex))
        eqn:Hr; [reflexivity|].
      destruct ((oldIndex <? order_index t) && (order_index t <=? newIndex))
        eqn:Hr'; [|symmetry; apply with_order_index_same].
      exfalso. apply andb_prop in Hr' as [H1 H2]. lia.
    + symmetry. apply with_order_index_same.
  - apply is_task_id in Ht as [Ht _]. apply String.eqb_eq in Ht.
    rewrite Ht. cbn. now rewrite andb_false_r.
  - destruct (is_active userId t) eqn:Ha; cbn [andb].
    + rewrite (is_active_not_task _ _ _ Ha Ht). cbn [negb].
      rewrite andb_true_r.
      destruct ((newIndex <=? order_index t) && (order_index t <? oldIndex))
        eqn:Hr.
      { exfalso. apply andb_prop in Hr as [H1 H2]. lia. }
      destruct ((oldIndex <? order_index t) && (order_index t <=? newIndex));
        [reflexivity | symmetry; apply with_order_index_same].
    + symmetry. apply with_order_index_same.
Qed.

Lemma patched_rows (userId task_id : string) (f : UpdateTaskInput)
  (currentTask : task) (now : Z) (tbl : list task) :
  patched userId task_id f currentTask now tbl =
  map (patched_row userId task_id f currentTask now
         (or_minus_one (select_max_order_index userId tbl) + 1)) tbl.
Proof.
  unfold patched, patched_row.
  destruct (reorder_requested f currentTask) as [n|].
  - rewrite reorder_shift_rows. unfold sql_update. rewrite map_map.
    apply map_ext. intros t.
    destruct (is_task task_id userId t) eqn:Ht.
    + now rewrite Ht.
    + now rewrite is_task_with_order_index, Ht.
  - unfold sql_update. reflexivity.
Qed.

(* ===================================================================== *)
(** * Invariant I3: the completion timestamp *)
(* ===================================================================== *)

Lemma consistent_row_updated (f : UpdateTaskInput) (currentTask : task)
  (now appended : Z) (moved : option Z) :
  completion_consistent currentTask ->
  completion_consistent
    (updated_row f currentTask now appended moved currentTask).
Proof.
  unfold completion_consistent.
  rewrite is_completed_updated_row, completed_at_updated_row.
  destruct (upd_is_completed f) as [[|]|]; [| |tauto].
  - destruct (is_completed currentTask); [tauto|].
    intros _. split; [discriminate | reflexivity].
  - intros _. split; [discriminate | congruence].
Qed.

Lemma consistent_patched_row (userId task_id : string)
  (f : UpdateTaskInput) (currentTask : task) (now appended : Z)
  (tbl : list task) (rest : list task) (t : task) :
  keyed tbl ->
  filter (is_task task_id userId) tbl = currentTask :: rest ->
  In t tbl ->
  completion_consistent t ->
  completion_consistent
    (patched_row userId task_id f currentTask now appended t).
Proof.
  intros Hk Hcur Hin Ht. unfold patched_row.
  destruct (is_task task_id userId t) eqn:Htask.
  - rewrite (current_task_unique _ _ _ _ _ _ Hk Hcur Hin Htask) in *.
    now apply consistent_row_updated.
  - destruct (reorder_requested f currentTask); exact Ht.
Qed.

Lemma consistent_patched (userId task_id : string) (f : UpdateTaskInput)
  (currentTask : task) (now : Z) (tbl : list task) (rest : list task) :
  filter (is_task task_id userId) tbl = currentTask :: rest ->
  consistent tbl ->
  consistent (patched userId task_id f currentTask now tbl).
Proof.
  intros Hcur [Hk Hall]. split; [now apply keyed_patched|].
  rewrite patched_rows. apply Forall_forall.
  intros t' Hin. apply in_map_iff in Hin as [t [<- Hin]].
  apply (consistent_patched_row _ _ _ _ _ _ tbl rest); try assumption.
  rewrite Forall_forall in Hall. now apply Hall.
Qed.

Lemma consistent_deleted (userId task_id : string) (gone : task)
  (tbl : list task) :
  consistent tbl -> consistent (deleted userId task_id gone tbl).
Proof.
  intros [Hk Hall]. split; [now apply keyed_deleted|].
  unfold deleted. apply Forall_forall.
  intros t' Hin. apply in_map_iff in Hin as [t [<- Hin]].
  apply filter_In in Hin as [Hin _].
  rewrite Forall_forall in Hall. exact (Hall _ Hin).
Qed.

Lemma consistent_handle (r : request) (c : conn) :
  both consistent c -> both consistent (snd (handle r c)).
Proof.
  intros Hc. destruct r as [u b taskId now | u tid b now | u tid]; cbn [handle].
  - destruct (create_task_conn u b taskId now c) as [-> | ->];
      [assumption | now apply both_rollback].
  - destruct (update_task_result u tid b now c)
      as [st m | st m | f cur rest Hparse Hcur Hreq Hrow
          | f cur rest Hparse Hcur Hrow]; cbn [snd].
    + assumption.
    + now apply both_rollback.
    + apply both_patched; [assumption|].
      apply (consistent_patched _ _ _ _ _ _ rest Hcur).
      now apply both_view.
    + apply both_unanswered; [assumption|]. intros _.
      apply (consistent_patched _ _ _ _ _ _ rest Hcur).
      now apply both_view.
  - rewrite delete_task_run.
    destruct (filter (is_task tid u) (view c)) as [|gone rest]; cbn [snd].
    + now apply both_rollback.
    + apply both_committed. apply consistent_deleted. now apply both_view.
Qed.

(* ===================================================================== *)
(** * The [completed_at] key of a PATCH body *)
(* ===================================================================== *)

Lemma schema_without_completed_at (b : body) (d : date_field)
  (f : UpdateTaskInput) (at_ : option (option Z)) :
  updateTaskInputSchema b = Some f ->
  z_date d = Some at_ ->
  updateTaskInputSchema (with_key_completed_at d b)
  = Some (mkUpdateTaskInput (upd_category_id f) (upd_title f)
            (upd_description f) (upd_due_date_at f) (upd_priority f)
            (upd_is_completed f) at_ (upd_order_index f)).
Proof.
  unfold updateTaskInputSchema, with_key_completed_at.
  cbn [b_category_id b_title b_description b_due_date_at b_priority
       b_is_completed b_completed_at b_order_index].
  intros Hf Hd. rewrite Hd.
  destruct (z_optional _ (b_category_id b)); [|discriminate].
  destruct (z_optional _ (b_title b)); [|discriminate].
  destruct (z_optional _ (b_description b)); [|discriminate].
  destruct (z_date (b_due_date_at b)); [|discriminate].
  destruct (z_optional z_priority (b_priority b)); [|discriminate].
  destruct (z_optional z_boolean (b_is_completed b)); [|discriminate].
  destruct (z_date (b_completed_at b)); [|discriminate].
  destruct (z_optional z_index (b_order_index b)); [|discriminate].
  injection Hf as <-. reflexivity.
Qed.

Lemma schema_rejects_with (b : body) (d : date_field) :
  updateTaskInputSchema b = None ->
  z_date (b_completed_at b) <> None ->
  updateTaskInputSchema (with_key_completed_at d b) = None.
Proof.
  unfold updateTaskInputSchema, with_key_completed_at.
  cbn [b_category_id b_title b_description b_due_date_at b_priority
       b_is_completed b_completed_at b_order_index].
  intros Hf Hd.
  destruct (z_optional _ (b_category_id b)); [|reflexivity].
  destruct (z_optional _ (b_title b)); [|reflexivity].
  destruct (z_optional _ (b_description b)); [|reflexivity].
  destruct (z_date (b_due_date_at b)); [|reflexivity].
  destruct (z_optional z_priority (b_priority b)); [|reflexivity].
  destruct (z_optional z_boolean (b_is_completed b)); [|reflexivity].
  destruct (z_date (b_completed_at b)); [|contradiction].
  destruct (z_optional z_index (b_order_index b)); [discriminate|].
  destruct (z_date d); reflexivity.
Qed.

Lemma schema_is_completed_absent (b : body) (f : UpdateTaskInput) :
  updateTaskInputSchema b = Some f ->
  b_is_completed b = None ->
  upd_is_completed f = None.
Proof.
  unfold updateTaskInputSchema. intros Hf Hb. rewrite Hb in Hf.
  cbn [z_optional] in Hf.
  destruct (z_optional _ (b_category_id b)); [|discriminate].
  destruct (z_optional _ (b_title b)); [|discriminate].
  destruct (z_optional _ (b_description b)); [|discriminate].
  destruct (z_date (b_due_date_at b)); [|discriminate].
  destruct (z_optional z_priority (b_priority b)); [|discriminate].
  destruct (z_date (b_completed_at b)); [|discriminate].
  destruct (z_optional z_index (b_order_index b)); [|discriminate].
  injection Hf as <-. reflexivity.
Qed.

Lemma completed_at_patched_row (userId task_id : string)
  (f : UpdateTaskInput) (currentTask : task) (now appended : Z) (t : task) :
  upd_is_completed f = None ->
  completed_at (patched_row userId task_id f currentTask now appended t)
  = completed_at t.
Proof.
  intros Hf. unfold patched_row.
  destruct (is_task task_id userId t).
  - now rewrite completed_at_updated_row, Hf.
  - destruct (reorder_requested f currentTask); reflexivity.
Qed.

(** C10. The [completed_at] key of a PATCH body is validated and then
    ignored: replacing it by any other valid value changes neither the
    answer nor the connection; and a request without [is_completed] leaves
    the [completed_at] column of every row as it was. *)
Theorem client_completed_at_ignored (userId task_id : string) (b : body)
  (now : Z) (d : date_field) (cats : list category) (tbl : list task) :
  z_date (b_completed_at b) <> None ->
  z_date d <> None ->
  (forall c,
      update_task userId task_id (with_key_completed_at d b) now c
      = update_task userId task_id b now c) /\
  (b_is_completed b = None ->
   map completed_at
     (view (snd (update_task userId task_id (with_key_completed_at d b) now
                   (idle cats tbl))))
   = map completed_at tbl).
Proof.
  intros Hb Hd.
  assert (Hsame : forall c,
             update_task userId task_id (with_key_completed_at d b) now c
             = update_task userId task_id b now c).
  { intros c. unfold update_task, try_catch.
    unfold bind at 1. unfold bind at 4.
    destruct (updateTaskInputSchema b) as [f|] eqn:Hf.
    - destruct (z_date d) as [at_|] eqn:Hat; [|contradiction].
      rewrite (schema_without_completed_at b d f at_ Hf Hat).
      destruct f as [fc ft fd fdue fp fdone fat fi].
      reflexivity.
    - rewrite (schema_rejects_with b d Hf Hb). reflexivity. }
  split; [exact Hsame|].
  intros Hkey. rewrite Hsame.
  assert (Hkept : forall f cur,
             updateTaskInputSchema b = Some f ->
             map completed_at (patched userId task_id f cur now tbl)
             = map completed_at tbl).
  { intros f cur Hparse. rewrite patched_rows, map_map.
    apply map_ext. intros t.
    apply completed_at_patched_row.
    exact (schema_is_completed_absent b f Hparse Hkey). }
  destruct (update_task_result userId task_id b now (idle cats tbl))
    as [st m | st m | f cur rest Hparse Hcur Hreq Hrow
        | f cur rest Hparse Hcur Hrow]; cbn [snd].
  - reflexivity.
  - reflexivity.
  - assert (Hview : view (patched_conn userId task_id f cur now (idle cats tbl))
                    = patched userId task_id f cur now tbl).
    { unfold patched_conn. destruct (reorder_requested f cur); reflexivity. }
    rewrite Hview. now apply Hkept.
  - unfold patched_conn.
    destruct (reorder_requested f cur); [reflexivity|].
    change (view (rollback_conn
                    (write (patched userId task_id f cur now
                              (view (idle cats tbl))) (idle cats tbl))))
      with (patched userId task_id f cur now tbl).
    now apply Hkept.
Qed.

Lemma client_completed_at_ignored_witness :
  (forall c,
      update_task "u" "A"
        (with_key_completed_at (DValue (Some 1679000000000))
           (with_key_title "Call mom" no_keys)) 1679100000000 c
      = update_task "u" "A" (with_key_title "Call mom" no_keys)
          1679100000000 c) /\
  (b_is_completed (with_key_title "Call mom" no_keys) = None ->
   map completed_at
     (view (snd (update_task "u" "A"
                   (with_key_completed_at (DValue (Some 1679000000000))
                      (with_key_title "Call mom" no_keys)) 1679100000000
                   (idle [] abc_d))))
   = map completed_at abc_d).
Proof.
  apply (client_completed_at_ignored "u" "A"
           (with_key_title "Call mom" no_keys) 1679100000000
           (DValue (Some 1679000000000)) [] abc_d).
  - cbn. discriminate.
  - cbn. discriminate.
Defined.

(* ===================================================================== *)
(** * Invariant I1: dense active indices *)
(* ===================================================================== *)

(** ** Lists *)

Lemma NoDup_map_eq {A B : Type} (f : A -> B) (l : list A) (x y : A) :
  NoDup (map f l) -> In x l -> In y l -> f x = f y -> x = y.
Proof.
  induction l as [|a l IH]; cbn; [contradiction|].
  intros Hnd Hx Hy Hxy. inversion Hnd as [|? ? Hnot Hnd']; subst.
  destruct Hx as [->|Hx], Hy as [->|Hy].
  - reflexivity.
  - exfalso. apply Hnot. rewrite Hxy. now apply in_map.
  - exfalso. apply Hnot. rewrite <- Hxy. now apply in_map.
  - now apply IH.
Qed.

Lemma filter_length_flip {A : Type} (p p' : A -> bool) (l : list A) (a : A) :
  NoDup l -> In a l ->
  (forall x, In x l -> x <> a -> p' x = p x) ->
  (List.length (filter p' l) + (if p a then 1 else 0) =
   List.length (filter p l) + (if p' a then 1 else 0))%nat.
Proof.
  induction l as [|x l IH]; cbn [In filter]; [contradiction|].
  intros Hnd Ha Hagree. inversion Hnd as [|? ? Hnot Hnd']; subst.
  destruct Ha as [->|Ha].
  - assert (Hsame : filter p' l = filter p l).
    { apply filter_ext_in. intros y Hy. apply Hagree; [now right|].
      intros ->. contradiction. }
    rewrite Hsame. destruct (p a), (p' a); cbn [List.length]; lia.
  - assert (Hx : p' x = p x).
    { apply Hagree; [now left|]. intros ->. contradiction. }
    rewrite Hx.
    assert (IH' := IH Hnd' Ha (fun y Hy => Hagree y (or_intror Hy))).
    destruct (p x); cbn [List.length]; lia.
Qed.

Lemma filter_length_same {A : Type} (p p' : A -> bool) (l : list A) :
  (forall x, In x l -> p' x = p x) ->
  List.length (filter p' l) = List.length (filter p l).
Proof. intros H. now rewrite (filter_ext_in _ _ _ H). Qed.

Lemma filter_filter_and {A : Type} (p q : A -> bool) (l : list A) :
  filter p (filter q l) = filter (fun x => p x && q x) l.
Proof.
  induction l as [|x l IH]; cbn; [reflexivity|].
  destruct (q x); cbn; [|now rewrite andb_false_r].
  rewrite andb_true_r. destruct (p x); now rewrite IH.
Qed.

Lemma max_of_spec (l : list Z) :
  match max_of l with
  | None => l = []
  | Some m => In m l /\ forall x, In x l -> x <= m
  end.
Proof.
  induction l as [|a l IH]; cbn; [reflexivity|].
  destruct (max_of l) as [m|].
  - destruct IH as [Hin Hmax]. split.
    + destruct (Z.max_spec a m) as [[_ ->] | [_ ->]]; [now right | now left].
    + intros x [<- | Hx]; [lia|]. specialize (Hmax x Hx). lia.
  - subst l. split; [now left|]. intros x [<- | []]. lia.
Qed.

(** ** Density *)

Lemma keyed_NoDup (tbl : list task) : keyed tbl -> NoDup tbl.
Proof. apply NoDup_map_inv. Qed.

Lemma dense_from_bounds (l : list Z) :
  NoDup l ->
  (forall z, In z l -> 0 <= z < Z.of_nat (List.length l)) ->
  forall z, In z l <-> 0 <= z < Z.of_nat (List.length l).
Proof.
  intros Hnd Hb z. split; [apply Hb|]. intros Hz.
  assert (Hincl : incl (map Z.of_nat (seq 0 (List.length l))) l).
  { apply NoDup_length_incl; [assumption | |].
    - rewrite length_map, length_seq. lia.
    - intros x Hx. specialize (Hb x Hx).
      apply in_map_iff. exists (Z.to_nat x). split; [lia|].
      apply in_seq. lia. }
  apply Hincl. apply in_map_iff. exists (Z.to_nat z). split; [lia|].
  apply in_seq. lia.
Qed.

Lemma active_indices_map (userId : string) (g : task -> task)
  (rows : list task) :
  active_indices userId (map g rows) =
  map (fun t => order_index (g t))
    (filter (fun t => is_active userId (g t)) rows).
Proof.
  unfold active_indices. now rewrite filter_map_swap, map_map.
Qed.

(** Density of an image: the rows that are active after [g] get distinct
    indices below their number. *)
Lemma dense_of_rows (userId : string) (g : task -> task) (rows : list task) :
  NoDup rows ->
  (forall x y, In x rows -> In y rows ->
     is_active userId (g x) = true -> is_active userId (g y) = true ->
     order_index (g x) = order_index (g y) -> x = y) ->
  (forall x, In x rows -> is_active userId (g x) = true ->
     0 <= order_index (g x) <
     Z.of_nat (List.length (filter (fun t => is_active userId (g t)) rows))) ->
  dense userId (map g rows).
Proof.
  intros Hnd Hinj Hb. unfold dense. rewrite active_indices_map.
  assert (Hnd' : NoDup (map (fun t => order_index (g t))
                          (filter (fun t => is_active userId (g t)) rows))).
  { apply NoDup_map_NoDup_ForallPairs; [|now apply NoDup_filter].
    intros x y Hx Hy Hxy.
    apply filter_In in Hx as [Hx Hpx]. apply filter_In in Hy as [Hy Hpy].
    now apply Hinj. }
  split; [exact Hnd'|].
  apply dense_from_bounds; [exact Hnd'|].
  intros z Hz. rewrite length_map.
  apply in_map_iff in Hz as [x [<- Hx]].
  apply filter_In in Hx as [Hx Hpx]. now apply Hb.
Qed.

Lemma dense_inj (userId : string) (tbl : list task) (x y : task) :
  dense userId tbl -> In x tbl -> In y tbl ->
  is_active userId x = true -> is_active userId y = true ->
  order_index x = order_index y -> x = y.
Proof.
  intros [Hnd _] Hx Hy Hpx Hpy Hxy.
  apply (NoDup_map_eq order_index (filter (is_active userId) tbl));
    try assumption; apply filter_In; now split.
Qed.

Lemma dense_bound (userId : string) (tbl : list task) (x : task) :
  dense userId tbl -> In x tbl -> is_active userId x = true ->
  0 <= order_index x <
  Z.of_nat (List.length (filter (is_active userId) tbl)).
Proof.
  intros [_ Hb] Hx Hpx.
  unfold active_indices in Hb. rewrite length_map in Hb.
  apply Hb. apply in_map. apply filter_In. now split.
Qed.

Lemma dense_max (userId : string) (tbl : list task) :
  dense userId tbl ->
  match select_max_order_index userId tbl with
  | None => filter (is_active userId) tbl = []
  | Some m =>
      m = Z.of_nat (List.length (filter (is_active userId) tbl)) - 1 /\
      0 <= m
  end.
Proof.
  intros [_ Hb]. unfold select_max_order_index.
  unfold active_indices in Hb. rewrite length_map in Hb.
  pose proof (max_of_spec (map order_index (filter (is_active userId) tbl)))
    as Hm.
  destruct (max_of _) as [m|].
  - destruct Hm as [Hin Hmax].
    pose proof (proj1 (Hb m) Hin) as Hrange.
    assert (Htop : In (Z.of_nat (List.length (filter (is_active userId) tbl)) - 1)
                     (map order_index (filter (is_active userId) tbl))).
    { apply Hb. lia. }
    specialize (Hmax _ Htop). lia.
  - now apply map_eq_nil in Hm.
Qed.

(** Density carried over to a table whose active rows are the same up to
    columns other than [order_index]. *)
Lemma dense_same (userId : string) (g : task -> task) (tbl : list task) :
  (forall x, In x tbl -> is_active userId (g x) = is_active userId x) ->
  (forall x, In x tbl -> is_active userId x = true ->
     order_index (g x) = order_index x) ->
  dense userId tbl -> dense userId (map g tbl).
Proof.
  intros Hp Ho Hd.
  assert (Heq : active_indices userId (map g tbl) = active_indices userId tbl).
  { rewrite active_indices_map. unfold active_indices.
    rewrite (filter_ext_in _ _ _ Hp).
    apply map_ext_in. intros x Hx. apply filter_In in Hx as [Hx Hpx].
    now apply Ho. }
  unfold dense. now rewrite Heq.
Qed.

(** ** The rows of a PATCH and the active partition *)

Lemma is_active_updated_row (userId : string) (f : UpdateTaskInput)
  (currentTask : task) (now appended : Z) (moved : option Z) (t : task) :
  is_active userId (updated_row f currentTask now appended moved t) =
  String.eqb (user_id t) userId &&
  negb match upd_is_completed f with
       | Some done => done
       | None => is_completed t
       end.
Proof.
  unfold is_active.
  now rewrite user_id_updated_row, is_completed_updated_row.
Qed.

Lemma is_active_patched_row_other (userId owner task_id : string)
  (f : UpdateTaskInput) (currentTask : task) (now appended : Z) (t : task) :
  is_task task_id owner t = false ->
  is_active userId (patched_row owner task_id f currentTask now appended t)
  = is_active userId t.
Proof.
  intros Ht. unfold patched_row. rewrite Ht.
  destruct (reorder_requested f currentTask); reflexivity.
Qed.

Lemma order_index_patched_row_other (owner task_id : string)
  (f : UpdateTaskInput) (currentTask : task) (now appended : Z) (t : task) :
  is_task task_id owner t = false ->
  order_index (patched_row owner task_id f currentTask now appended t) =
  match reorder_requested f currentTask with
  | Some newIndex =>
      if is_active owner t && (newIndex <=? order_index t) &&
         (order_index t <? order_index currentTask)
      then order_index t + 1
      else if is_active owner t && (order_index currentTask <? order_index t)
              && (order_index t <=? newIndex)
      then order_index t - 1
      else order_index t
  | None => order_index t
  end.
Proof.
  intros Ht. unfold patched_row, index_after_reorder. rewrite Ht.
  destruct (reorder_requested f currentTask); reflexivity.
Qed.

Lemma is_active_user (userId : string) (t : task) :
  is_active userId t = true ->
  user_id t = userId /\ is_completed t = false.
Proof.
  unfold is_active. intros H. apply andb_prop in H as [H1 H2].
  apply String.eqb_eq in H1. apply negb_true_iff in H2. now split.
Qed.

Lemma is_active_other_user (userId owner : string) (t : task) :
  userId <> owner -> is_active userId t = true ->
  is_active owner t = false.
Proof.
  intros Hne Ha. apply is_active_user in Ha as [Hu _].
  unfold is_active. apply andb_false_iff. left.
  apply String.eqb_neq. congruence.
Qed.

Lemma is_task_other_user (userId owner task_id : string) (t : task) :
  userId <> owner -> is_task task_id owner t = true ->
  String.eqb (user_id t) userId = false.
Proof.
  intros Hne Ht. apply is_task_id in Ht as [_ Hu].
  apply String.eqb_neq. congruence.
Qed.

(** A PATCH of one user leaves the active indices of the others alone. *)
Lemma dense_patched_other (userId owner task_id : string)
  (f : UpdateTaskInput) (currentTask : task) (now : Z) (tbl : list task) :
  userId <> owner ->
  dense userId tbl ->
  dense userId (patched owner task_id f currentTask now tbl).
Proof.
  intros Hne Hd. rewrite patched_rows. apply dense_same; [| |exact Hd].
  - intros x _. destruct (is_task task_id owner x) eqn:Ht.
    + unfold patched_row. rewrite Ht, is_active_updated_row.
      unfold is_active.
      now rewrite (is_task_other_user userId owner task_id x Hne Ht).
    + now apply is_active_patched_row_other.
  - intros x _ Ha.
    destruct (is_task task_id owner x) eqn:Ht.
    + apply is_active_user in Ha as [Hu _].
      apply (is_task_other_user userId owner task_id x Hne) in Ht.
      apply String.eqb_neq in Ht. contradiction.
    + rewrite order_index_patched_row_other by exact Ht.
      rewrite (is_active_other_user userId owner x Hne Ha).
      destruct (reorder_requested f currentTask); reflexivity.
Qed.

(** A DELETE of one user leaves the active indices of the others alone,
    and so does the DELETE of a completed task. *)
Lemma active_indices_deleted_same (userId owner task_id : string)
  (gone : task) (tbl : list task) :
  (forall x, In x tbl -> is_active userId x = true ->
     is_task task_id owner x = false /\
     index_after_delete owner gone x = order_index x) ->
  active_indices userId (deleted owner task_id gone tbl)
  = active_indices userId tbl.
Proof.
  intros H. unfold deleted. rewrite active_indices_map.
  cbn [with_order_index order_index]. unfold active_indices.
  rewrite filter_filter_and.
  assert (Hf : filter (fun x => is_active userId
                                  (with_order_index
                                     (index_after_delete owner gone x) x) &&
                                negb (is_task task_id owner x)) tbl
               = filter (is_active userId) tbl).
  { apply filter_ext_in. intros x Hx.
    change (is_active userId (with_order_index
                                (index_after_delete owner gone x) x))
      with (is_active userId x).
    destruct (is_active userId x) eqn:Ha; [|reflexivity].
    now rewrite (proj1 (H x Hx Ha)). }
  rewrite Hf. apply map_ext_in. intros x Hx.
  apply filter_In in Hx as [Hx Ha]. exact (proj2 (H x Hx Ha)).
Qed.

(** ** DELETE keeps the active indices dense *)

Lemma current_task_in (task_id userId : string) (tbl : list task)
  (currentTask : task) (rest : list task) :
  filter (is_task task_id userId) tbl = currentTask :: rest ->
  In currentTask tbl /\ is_task task_id userId currentTask = true.
Proof.
  intros H. apply filter_In. rewrite H. now left.
Qed.

Lemma dense_deleted (userId owner task_id : string) (gone : task)
  (rest tbl : list task) :
  keyed tbl ->
  filter (is_task task_id owner) tbl = gone :: rest ->
  dense userId tbl ->
  dense userId (deleted owner task_id gone tbl).
Proof.
  intros Hk Hsel Hd.
  destruct (current_task_in _ _ _ _ _ Hsel) as [Hin Hgone].
  assert (Huniq : forall x, In x tbl -> is_task task_id owner x = true ->
                            x = gone).
  { intros x Hx Ht.
    exact (current_task_unique _ _ _ _ _ _ Hk Hsel Hx Ht). }
  destruct (is_active userId gone) eqn:Hact.
  - (* the deleted task was one of the user's active tasks *)
    assert (Howner : userId = owner).
    { apply is_active_user in Hact as [<- _].
      now apply is_task_id in Hgone as [_ <-]. }
    subst owner.
    pose proof (is_active_user _ _ Hact) as [_ Hnotdone].
    unfold deleted. apply dense_of_rows.
    + apply NoDup_filter. now apply keyed_NoDup.
    + intros x y Hx Hy Hax Hay Hxy.
      apply filter_In in Hx as [Hx Hqx]. apply filter_In in Hy as [Hy Hqy].
      change (is_active userId x = true) in Hax.
      change (is_active userId y = true) in Hay.
      cbn [with_order_index order_index] in Hxy.
      unfold index_after_delete in Hxy.
      rewrite Hnotdone, Hax, Hay in Hxy. cbn [negb andb] in Hxy.
      assert (Hxg : order_index x <> order_index gone).
      { intros E. rewrite (dense_inj _ _ _ _ Hd Hx Hin Hax Hact E) in Hqx.
        now rewrite Hgone in Hqx. }
      assert (Hyg : order_index y <> order_index gone).
      { intros E. rewrite (dense_inj _ _ _ _ Hd Hy Hin Hay Hact E) in Hqy.
        now rewrite Hgone in Hqy. }
      apply (dense_inj _ _ _ _ Hd Hx Hy Hax Hay).
      destruct (Z.ltb_spec (order_index gone) (order_index x)),
               (Z.ltb_spec (order_index gone) (order_index y)); lia.
    + intros x Hx Hax.
      apply filter_In in Hx as [Hx Hqx].
      change (is_active userId x = true) in Hax.
      change (fun t => is_active userId
                         (with_order_index
                            (index_after_delete userId gone t) t))
        with (is_active userId).
      assert (Hlen :
        (List.length
           (filter (is_active userId)
              (filter (fun t => negb (is_task task_id userId t)) tbl)) + 1
         = List.length (filter (is_active userId) tbl))%nat).
      {
        rewrite filter_filter_and.
        assert (Hagree : forall y, In y tbl -> y <> gone ->
                  is_active userId y && negb (is_task task_id userId y)
                  = is_active userId y).
        { intros y Hy Hne.
          destruct (is_task task_id userId y) eqn:Hty.
          - exfalso. apply Hne. now apply Huniq.
          - now rewrite andb_true_r. }
        pose proof (filter_length_flip (is_active userId)
                      (fun x => is_active userId x &&
                                negb (is_task task_id userId x))
                      tbl gone (keyed_NoDup _ Hk) Hin Hagree) as Hflip.
        cbn beta in Hflip.
        rewrite Hact, Hgone in Hflip. cbn [andb negb] in Hflip.
        lia. }
      cbn [with_order_index order_index]. unfold index_after_delete.
      rewrite Hnotdone, Hax. cbn [negb andb].
      pose proof (dense_bound _ _ _ Hd Hx Hax) as Hbx.
      pose proof (dense_bound _ _ _ Hd Hin Hact) as Hbg.
      assert (Hxg : order_index x <> order_index gone).
      { intros E. rewrite (dense_inj _ _ _ _ Hd Hx Hin Hax Hact E) in Hqx.
        now rewrite Hgone in Hqx. }
      destruct (Z.ltb_spec (order_index gone) (order_index x)); lia.
  - (* another user's task, or a completed one *)
    unfold dense.
    rewrite (active_indices_deleted_same userId owner task_id gone tbl);
      [exact Hd|].
    intros x Hx Hax. split.
    + destruct (is_task task_id owner x) eqn:Ht; [|reflexivity].
      rewrite (Huniq x Hx Ht) in Hax. congruence.
    + unfold index_after_delete.
      destruct (is_completed gone) eqn:Hdone; [reflexivity|].
      cbn [negb andb].
      assert (Hother : is_active owner x = false).
      { destruct (String.eqb_spec userId owner) as [->|Hne].
        - (* same user: the deleted task would be active *)
          apply is_task_id in Hgone as [_ Hu].
          unfold is_active in Hact. rewrite Hu, String.eqb_refl, Hdone in Hact.
          discriminate.
        - now apply (is_active_other_user userId owner). }
      now rewrite Hother.
Qed.

(** ** PATCH keeps the active indices dense, on the covered requests *)

Lemma reorder_requested_some (f : UpdateTaskInput) (currentTask : task)
  (newIndex : Z) :
  reorder_requested f currentTask = Some newIndex ->
  upd_order_index f = Some newIndex /\
  newIndex <> order_index currentTask /\
  (upd_is_completed f = Some false \/
   upd_is_completed f = None /\ is_completed currentTask = false).
Proof.
  unfold reorder_requested.
  destruct (upd_order_index f) as [n|]; [|discriminate].
  destruct (Z.eqb_spec n (order_index currentTask)) as [|Hne];
    [discriminate|].
  cbn [negb andb].
  destruct (upd_is_completed f) as [[|]|]; try discriminate.
  - intros H. injection H as <-. auto.
  - destruct (is_completed currentTask); [discriminate|].
    intros H. injection H as <-. auto.
Qed.

(** Density carried over to a table with the same active rows and new
    indices [h] for them. *)
Lemma dense_reindex (userId : string) (g : task -> task) (h : task -> Z)
  (tbl : list task) :
  NoDup tbl ->
  dense userId tbl ->
  (forall x, In x tbl -> is_active userId (g x) = is_active userId x) ->
  (forall x, In x tbl -> is_active userId x = true ->
     order_index (g x) = h x) ->
  (forall x y, In x tbl -> In y tbl ->
     is_active userId x = true -> is_active userId y = true ->
     h x = h y -> order_index x = order_index y) ->
  (forall x, In x tbl -> is_active userId x = true ->
     0 <= h x < Z.of_nat (List.length (filter (is_active userId) tbl))) ->
  dense userId (map g tbl).
Proof.
  intros Hnd Hd Hact Hidx Hinj Hb. apply dense_of_rows; [exact Hnd| |].
  - intros x y Hx Hy Hax Hay Hxy.
    rewrite (Hact x Hx) in Hax. rewrite (Hact y Hy) in Hay.
    rewrite (Hidx x Hx Hax), (Hidx y Hy Hay) in Hxy.
    apply (dense_inj _ _ _ _ Hd Hx Hy Hax Hay).
    now apply Hinj.
  - intros x Hx Hax. rewrite (Hact x Hx) in Hax.
    rewrite (Hidx x Hx Hax).
    rewrite (filter_length_same (is_active userId)
               (fun t => is_active userId (g t)) tbl Hact).
    now apply Hb.
Qed.

Lemma dense_reordered (userId task_id : string) (f : UpdateTaskInput)
  (currentTask : task) (now : Z) (tbl rest : list task) (newIndex : Z) :
  keyed tbl ->
  filter (is_task task_id userId) tbl = currentTask :: rest ->
  dense userId tbl ->
  reorder_requested f currentTask = Some newIndex ->
  is_completed currentTask = false ->
  0 <= newIndex ->
  at_most (select_max_order_index userId tbl) newIndex = true ->
  dense userId (patched userId task_id f currentTask now tbl).
Proof.
  intros Hk Hsel Hd Hreq Hcomp Hlow Hhigh.
  destruct (current_task_in _ _ _ _ _ Hsel) as [Hin Hcur].
  pose proof (is_task_id _ _ _ Hcur) as [_ Huser].
  assert (Hactcur : is_active userId currentTask = true).
  { unfold is_active. now rewrite Huser, String.eqb_refl, Hcomp. }
  assert (Huniq : forall x, In x tbl -> is_task task_id userId x = true ->
                            x = currentTask).
  { intros x Hx Ht.
    exact (current_task_unique _ _ _ _ _ _ Hk Hsel Hx Ht). }
  destruct (reorder_requested_some _ _ _ Hreq) as [_ [_ Hdone]].
  pose proof (dense_max _ _ Hd) as Hmax.
  unfold at_most in Hhigh.
  destruct (select_max_order_index userId tbl) as [m|]; [|discriminate].
  destruct Hmax as [Hm _]. apply Z.leb_le in Hhigh.
  rewrite patched_rows.
  apply (dense_reindex userId _
           (index_after_reorder userId task_id (order_index currentTask)
              newIndex));
    [now apply keyed_NoDup | exact Hd | | | |].
  - intros x Hx. destruct (is_task task_id userId x) eqn:Ht.
    + rewrite (Huniq x Hx Ht). unfold patched_row. rewrite Hcur.
      rewrite is_active_updated_row, Hactcur, Huser, String.eqb_refl.
      destruct Hdone as [-> | [-> ->]]; reflexivity.
    + now apply is_active_patched_row_other.
  - intros x Hx Hax. unfold patched_row, index_after_reorder.
    destruct (is_task task_id userId x) eqn:Ht.
    + now rewrite order_index_updated_row, Hreq.
    + rewrite Hreq. reflexivity.
  - intros x y Hx Hy Hax Hay. unfold index_after_reorder.
    rewrite Hax, Hay. cbn [andb].
    assert (Hother : forall z, In z tbl -> is_active userId z = true ->
              is_task task_id userId z = false ->
              order_index z <> order_index currentTask).
    { intros z Hz Haz Htz E.
      rewrite (dense_inj _ _ _ _ Hd Hz Hin Haz Hactcur E) in Htz.
      congruence. }
    destruct (is_task task_id userId x) eqn:Htx,
             (is_task task_id userId y) eqn:Hty.
    + intros _. now rewrite (Huniq x Hx Htx), (Huniq y Hy Hty).
    + pose proof (Hother y Hy Hay Hty).
      destruct (Z.leb_spec newIndex (order_index y)),
               (Z.ltb_spec (order_index y) (order_index currentTask)),
               (Z.ltb_spec (order_index currentTask) (order_index y)),
               (Z.leb_spec (order_index y) newIndex); cbn [andb]; lia.
    + pose proof (Hother x Hx Hax Htx).
      destruct (Z.leb_spec newIndex (order_index x)),
               (Z.ltb_spec (order_index x) (order_index currentTask)),
               (Z.ltb_spec (order_index currentTask) (order_index x)),
               (Z.leb_spec (order_index x) newIndex); cbn [andb]; lia.
    + pose proof (Hother x Hx Hax Htx). pose proof (Hother y Hy Hay Hty).
      destruct (Z.leb_spec newIndex (order_index x)),
               (Z.ltb_spec (order_index x) (order_index currentTask)),
               (Z.ltb_spec (order_index currentTask) (order_index x)),
               (Z.leb_spec (order_index x) newIndex),
               (Z.leb_spec newIndex (order_index y)),
               (Z.ltb_spec (order_index y) (order_index currentTask)),
               (Z.ltb_spec (order_index currentTask) (order_index y)),
               (Z.leb_spec (order_index y) newIndex); cbn [andb]; lia.
  - intros x Hx Hax. unfold index_after_reorder. rewrite Hax. cbn [andb].
    pose proof (dense_bound _ _ _ Hd Hx Hax) as Hbx.
    pose proof (dense_bound _ _ _ Hd Hin Hactcur) as Hbc.
    destruct (is_task task_id userId x); [lia|].
    destruct (Z.leb_spec newIndex (order_index x)),
             (Z.ltb_spec (order_index x) (order_index currentTask)),
             (Z.ltb_spec (order_index currentTask) (order_index x)),
             (Z.leb_spec (order_index x) newIndex); cbn [andb]; lia.
Qed.

Lemma patched_row_unmoved (userId task_id : string) (f : UpdateTaskInput)
  (currentTask : task) (now appended : Z) (t : task) :
  reorder_requested f currentTask = None ->
  is_task task_id userId t = false ->
  patched_row userId task_id f currentTask now appended t = t.
Proof. intros Hreq Ht. unfold patched_row. now rewrite Ht, Hreq. Qed.

(** Completing the task at the highest active index. *)
Lemma dense_completed_last (userId task_id : string) (f : UpdateTaskInput)
  (currentTask : task) (now : Z) (tbl rest : list task) :
  keyed tbl ->
  filter (is_task task_id userId) tbl = currentTask :: rest ->
  dense userId tbl ->
  reorder_requested f currentTask = None ->
  upd_is_completed f = Some true ->
  is_completed currentTask = false ->
  is_max (select_max_order_index userId tbl) (order_index currentTask) = true ->
  dense userId (patched userId task_id f currentTask now tbl).
Proof.
  intros Hk Hsel Hd Hreq Hdone Hcomp Hlast.
  destruct (current_task_in _ _ _ _ _ Hsel) as [Hin Hcur].
  pose proof (is_task_id _ _ _ Hcur) as [_ Huser].
  assert (Hactcur : is_active userId currentTask = true).
  { unfold is_active. now rewrite Huser, String.eqb_refl, Hcomp. }
  assert (Huniq : forall x, In x tbl -> is_task task_id userId x = true ->
                            x = currentTask).
  { intros x Hx Ht.
    exact (current_task_unique _ _ _ _ _ _ Hk Hsel Hx Ht). }
  pose proof (dense_max _ _ Hd) as Hmax.
  unfold is_max in Hlast.
  destruct (select_max_order_index userId tbl) as [m|]; [|discriminate].
  destruct Hmax as [Hm _]. apply Z.eqb_eq in Hlast.
  rewrite patched_rows.
  set (g := patched_row userId task_id f currentTask now _).
  assert (Hgone : is_active userId (g currentTask) = false).
  { unfold g, patched_row. rewrite Hcur, is_active_updated_row, Hdone.
    apply andb_false_r. }
  assert (Hkeep : forall x, In x tbl -> x <> currentTask -> g x = x).
  { intros x Hx Hne. apply patched_row_unmoved; [exact Hreq|].
    destruct (is_task task_id userId x) eqn:Ht; [|reflexivity].
    exfalso. apply Hne. now apply Huniq. }
  assert (Hlive : forall x, In x tbl -> is_active userId (g x) = true ->
                            x <> currentTask /\ is_active userId x = true).
  { intros x Hx Hax.
    assert (Hne : x <> currentTask) by (intros ->; congruence).
    split; [exact Hne|]. now rewrite (Hkeep x Hx Hne) in Hax. }
  apply dense_of_rows; [now apply keyed_NoDup | |].
  - intros x y Hx Hy Hax Hay Hxy.
    destruct (Hlive x Hx Hax) as [Hnx Hax'].
    destruct (Hlive y Hy Hay) as [Hny Hay'].
    rewrite (Hkeep x Hx Hnx), (Hkeep y Hy Hny) in Hxy.
    exact (dense_inj _ _ _ _ Hd Hx Hy Hax' Hay' Hxy).
  - intros x Hx Hax.
    destruct (Hlive x Hx Hax) as [Hnx Hax'].
    rewrite (Hkeep x Hx Hnx).
    assert (Hagree : forall y, In y tbl -> y <> currentTask ->
              is_active userId (g y) = is_active userId y).
    { intros y Hy Hne. now rewrite (Hkeep y Hy Hne). }
    pose proof (filter_length_flip (is_active userId)
                  (fun t => is_active userId (g t))
                  tbl currentTask (keyed_NoDup _ Hk) Hin Hagree) as Hflip.
    cbn beta in Hflip. rewrite Hactcur, Hgone in Hflip.
    pose proof (dense_bound _ _ _ Hd Hx Hax') as Hbx.
    assert (Hxc : order_index x <> order_index currentTask).
    { intros E. apply Hnx.
      exact (dense_inj _ _ _ _ Hd Hx Hin Hax' Hactcur E). }
    lia.
Qed.

(** Making a task incomplete while the highest active index is not 0. *)
Lemma dense_uncompleted (userId task_id : string) (f : UpdateTaskInput)
  (currentTask : task) (now : Z) (tbl rest : list task) :
  keyed tbl ->
  filter (is_task task_id userId) tbl = currentTask :: rest ->
  dense userId tbl ->
  reorder_requested f currentTask = None ->
  upd_is_completed f = Some false ->
  is_completed currentTask = true ->
  is_max (select_max_order_index userId tbl) 0 = false ->
  dense userId (patched userId task_id f currentTask now tbl).
Proof.
  intros Hk Hsel Hd Hreq Hdone Hcomp Hnot0.
  destruct (current_task_in _ _ _ _ _ Hsel) as [Hin Hcur].
  pose proof (is_task_id _ _ _ Hcur) as [_ Huser].
  assert (Hactcur : is_active userId currentTask = false).
  { unfold is_active. rewrite Hcomp. apply andb_false_r. }
  assert (Huniq : forall x, In x tbl -> is_task task_id userId x = true ->
                            x = currentTask).
  { intros x Hx Ht.
    exact (current_task_unique _ _ _ _ _ _ Hk Hsel Hx Ht). }
  pose proof (dense_max _ _ Hd) as Hmax.
  rewrite patched_rows.
  set (appended := or_minus_one (select_max_order_index userId tbl) + 1).
  assert (Happ : appended
                 = Z.of_nat (List.length (filter (is_active userId) tbl))).
  { unfold appended, or_minus_one. unfold is_max in Hnot0.
    destruct (select_max_order_index userId tbl) as [m|].
    - destruct Hmax as [Hm _]. rewrite Hnot0. lia.
    - rewrite Hmax. reflexivity. }
  set (g := patched_row userId task_id f currentTask now appended).
  assert (Hback : is_active userId (g currentTask) = true).
  { unfold g, patched_row. rewrite Hcur, is_active_updated_row, Hdone.
    now rewrite Huser, String.eqb_refl. }
  assert (Hidx : order_index (g currentTask) = appended).
  { unfold g, patched_row.
    now rewrite Hcur, order_index_updated_row, Hreq, Hdone, Hcomp. }
  assert (Hkeep : forall x, In x tbl -> x <> currentTask -> g x = x).
  { intros x Hx Hne. apply patched_row_unmoved; [exact Hreq|].
    destruct (is_task task_id userId x) eqn:Ht; [|reflexivity].
    exfalso. apply Hne. now apply Huniq. }
  assert (Hagree : forall y, In y tbl -> y <> currentTask ->
            is_active userId (g y) = is_active userId y).
  { intros y Hy Hne. now rewrite (Hkeep y Hy Hne). }
  pose proof (filter_length_flip (is_active userId)
                (fun t => is_active userId (g t))
                tbl currentTask (keyed_NoDup _ Hk) Hin Hagree) as Hflip.
  cbn beta in Hflip. rewrite Hactcur, Hback in Hflip.
  assert (Hold : forall x, In x tbl -> x <> currentTask ->
            is_active userId (g x) = true ->
            is_active userId x = true /\
            0 <= order_index (g x) < appended).
  { intros x Hx Hne Hax. rewrite (Hkeep x Hx Hne) in *.
    split; [exact Hax|]. rewrite Happ. now apply dense_bound. }
  apply dense_of_rows; [now apply keyed_NoDup | |].
  - intros x y Hx Hy Hax Hay Hxy.
    destruct (is_task task_id userId x) eqn:Htx,
             (is_task task_id userId y) eqn:Hty.
    + now rewrite (Huniq x Hx Htx), (Huniq y Hy Hty).
    + rewrite (Huniq x Hx Htx) in *.
      assert (Hny : y <> currentTask) by (intros ->; congruence).
      destruct (Hold y Hy Hny Hay) as [_ Hby]. lia.
    + rewrite (Huniq y Hy Hty) in *.
      assert (Hnx : x <> currentTask) by (intros ->; congruence).
      destruct (Hold x Hx Hnx Hax) as [_ Hbx]. lia.
    + assert (Hnx : x <> currentTask) by (intros ->; congruence).
      assert (Hny : y <> currentTask) by (intros ->; congruence).
      destruct (Hold x Hx Hnx Hax) as [Hax' _].
      destruct (Hold y Hy Hny Hay) as [Hay' _].
      rewrite (Hkeep x Hx Hnx), (Hkeep y Hy Hny) in Hxy.
      exact (dense_inj _ _ _ _ Hd Hx Hy Hax' Hay' Hxy).
  - intros x Hx Hax.
    destruct (is_task task_id userId x) eqn:Htx.
    + rewrite (Huniq x Hx Htx), Hidx. lia.
    + assert (Hnx : x <> currentTask) by (intros ->; congruence).
      destruct (Hold x Hx Hnx Hax) as [_ Hbx]. lia.
Qed.

(** A PATCH that neither moves the task nor changes its completion. *)
Lemma dense_neutral (userId task_id : string) (f : UpdateTaskInput)
  (currentTask : task) (now : Z) (tbl rest : list task) :
  keyed tbl ->
  filter (is_task task_id userId) tbl = currentTask :: rest ->
  dense userId tbl ->
  reorder_requested f currentTask = None ->
  match upd_is_completed f with
  | Some done => done = is_completed currentTask
  | None => True
  end ->
  dense userId (patched userId task_id f currentTask now tbl).
Proof.
  intros Hk Hsel Hd Hreq Hdone.
  destruct (current_task_in _ _ _ _ _ Hsel) as [Hin Hcur].
  assert (Huniq : forall x, In x tbl -> is_task task_id userId x = true ->
                            x = currentTask).
  { intros x Hx Ht.
    exact (current_task_unique _ _ _ _ _ _ Hk Hsel Hx Ht). }
  rewrite patched_rows. apply dense_same; [| |exact Hd].
  - intros x Hx. destruct (is_task task_id userId x) eqn:Ht.
    + rewrite (Huniq x Hx Ht). unfold patched_row. rewrite Hcur.
      rewrite is_active_updated_row. unfold is_active.
      destruct (upd_is_completed f); [now rewrite Hdone | reflexivity].
    + now rewrite patched_row_unmoved.
  - intros x Hx Hax. destruct (is_task task_id userId x) eqn:Ht.
    + rewrite (Huniq x Hx Ht) in *. unfold patched_row. rewrite Hcur.
      rewrite order_index_updated_row, Hreq.
      apply is_active_user in Hax as [_ Hcomp].
      destruct (upd_is_completed f) as [[|]|]; try reflexivity.
      now rewrite Hcomp.
    + now rewrite patched_row_unmoved.
Qed.

Lemma ordered_patched (userId task_id : string) (f : UpdateTaskInput)
  (currentTask : task) (now : Z) (tbl rest : list task) :
  filter (is_task task_id userId) tbl = currentTask :: rest ->
  match reorder_requested f currentTask with
  | Some newIndex =>
      is_completed currentTask = false /\
      0 <= newIndex <=
        or_minus_one (select_max_order_index userId tbl) + 1
  | None => True
  end ->
  match upd_is_completed f, is_completed currentTask with
  | Some true, false =>
      is_max (select_max_order_index userId tbl) (order_index currentTask)
  | Some false, true => negb (is_max (select_max_order_index userId tbl) 0)
  | _, _ =>
      match upd_order_index f with
      | Some newIndex =>
          is_completed currentTask ||
          at_most (select_max_order_index userId tbl) newIndex
      | None => true
      end
  end = true ->
  ordered tbl ->
  ordered (patched userId task_id f currentTask now tbl).
Proof.
  intros Hsel Hacc Hcov [Hk Hd]. split; [now apply keyed_patched|].
  intros u. destruct (String.eqb_spec u userId) as [->|Hne];
    [|now apply dense_patched_other].
  specialize (Hd userId).
  destruct (reorder_requested f currentTask) as [n|] eqn:Hreq.
  - destruct Hacc as [Hcomp [Hlow _]].
    destruct (reorder_requested_some _ _ _ Hreq) as [Hidx [_ Hdone]].
    apply (dense_reordered userId task_id f currentTask now tbl rest n);
      try assumption.
    rewrite Hidx, Hcomp in Hcov.
    destruct Hdone as [Hdone | [Hdone _]]; rewrite Hdone in Hcov;
      exact Hcov.
  - destruct (upd_is_completed f) as [[|]|] eqn:Hdone;
      destruct (is_completed currentTask) eqn:Hcomp.
    + apply (dense_neutral userId task_id f currentTask now tbl rest);
        try assumption. now rewrite Hdone, Hcomp.
    + now apply (dense_completed_last userId task_id f currentTask now
                   tbl rest).
    + apply (dense_uncompleted userId task_id f currentTask now tbl rest);
        try assumption. now apply negb_true_iff.
    + apply (dense_neutral userId task_id f currentTask now tbl rest);
        try assumption. now rewrite Hdone, Hcomp.
    + apply (dense_neutral userId task_id f currentTask now tbl rest);
        try assumption. now rewrite Hdone.
    + apply (dense_neutral userId task_id f currentTask now tbl rest);
        try assumption. now rewrite Hdone.
Qed.

Lemma ordered_deleted (userId task_id : string) (gone : task)
  (rest tbl : list task) :
  filter (is_task task_id userId) tbl = gone :: rest ->
  ordered tbl -> ordered (deleted userId task_id gone tbl).
Proof.
  intros Hsel [Hk Hd]. split; [now apply keyed_deleted|].
  intros u. now apply (dense_deleted u userId task_id gone rest).
Qed.

Lemma ordered_handle (r : request) (c : conn) :
  both ordered c ->
  covered r (view c) = true ->
  both ordered (snd (handle r c)).
Proof.
  intros Hc Hcov.
  destruct r as [u b taskId now | u tid b now | u tid]; cbn [handle].
  - destruct (create_task_conn u b taskId now c) as [-> | ->];
      [assumption | now apply both_rollback].
  - destruct (update_task_result u tid b now c)
      as [st m | st m | f cur rest Hparse Hcur Hreq Hrow
          | f cur rest Hparse Hcur Hrow]; cbn [snd].
    + assumption.
    + now apply both_rollback.
    + apply both_patched; [assumption|].
      cbn [covered] in Hcov. rewrite Hparse, Hcur in Hcov.
      apply (ordered_patched u tid f cur now (view c) rest Hcur Hreq Hcov).
      now apply both_view.
    + apply both_unanswered; [assumption|]. intros Hnone.
      cbn [covered] in Hcov. rewrite Hparse, Hcur in Hcov.
      apply (ordered_patched u tid f cur now (view c) rest Hcur);
        [now rewrite Hnone | exact Hcov | now apply both_view].
  - rewrite delete_task_run.
    destruct (filter (is_task tid u) (view c)) as [|gone rest] eqn:Hsel;
      cbn [snd].
    + now apply both_rollback.
    + apply both_committed.
      apply (ordered_deleted u tid gone rest (view c) Hsel).
      now apply both_view.
Qed.

(** C1, amended. On a connection whose tables have dense active indices
    for every user (with [id] as their key), the active indices of every
    user are dense, in the committed table and in the table the connection
    sees, after each request of a sequence of create, delete and update
    requests, as long as each request is covered: a reorder goes to
    an index at most the highest active index, a completion is that of the
    task at the highest active index, and no task is made incomplete while
    the highest active index is 0. *)
Theorem density_preserved (rs : list request) (c : conn) :
  both ordered c ->
  all_covered rs c ->
  forall k userId,
    dense userId (committed (run (firstn k rs) c)) /\
    dense userId (view (run (firstn k rs) c)).
Proof.
  intros Hc Hcov k u.
  assert (H : both ordered (run (firstn k rs) c)).
  { revert c k Hc Hcov.
    induction rs as [|r rs IH]; intros c k Hc Hcov.
    - destruct k; exact Hc.
    - destruct k as [|k]; [exact Hc|]. cbn [firstn run].
      destruct Hcov as [Hr Hrs].
      apply IH; [|exact Hrs]. now apply ordered_handle. }
  split.
  - destruct H as [[_ H] _]. apply H.
  - apply both_view in H. destruct H as [_ H]. apply H.
Qed.

Lemma density_preserved_witness :
  both ordered (idle [] abc_d) /\
  all_covered sample_requests (idle [] abc_d) /\
  dense "u" (committed (run (firstn 4 sample_requests) (idle [] abc_d))) /\
  dense "u" (view (run (firstn 4 sample_requests) (idle [] abc_d))).
Proof.
  assert (H1 : both ordered (idle [] abc_d)).
  { apply both_committed. split.
    - unfold keyed. cbn. repeat constructor; cbn; intuition discriminate.
    - intros u. unfold dense, active_indices, abc_d, is_active, sample.
      cbn [filter user_id is_completed negb].
      destruct (String.eqb "u" u); cbn.
      + split; [repeat constructor; cbn; intuition lia|].
        intros z. intuition lia.
      + split; [constructor|]. intros z. intuition lia. }
  assert (H2 : all_covered sample_requests (idle [] abc_d)).
  { cbn. repeat split; reflexivity. }
  split; [exact H1|]. split; [exact H2|].
  exact (density_preserved sample_requests (idle [] abc_d) H1 H2 4%nat "u").
Defined.

Example sample_requests_run :
  active_view "u" (view (run sample_requests (idle [] abc_d)))
  = [("A", 1); ("C", 0); ("D", 2)].
Proof. reflexivity. Qed.

(* ===================================================================== *)
(** * The PATCH handler as a table of cases *)
(* ===================================================================== *)

Ltac update_task_cases :=
  repeat match goal with
         | |- context [match reorder_requested ?f ?t with _ => _ end] =>
             destruct (reorder_requested f t)
         | |- context [if ?n <? ?m then _ else _] => destruct (n <? m)
         | |- context [if is_completed ?t then _ else _] =>
             destruct (is_completed t)
         | |- context [if taskSchema ?t then _ else _] =>
             destruct (taskSchema t)
         end;
  reflexivity.

Lemma update_task_run (userId task_id : string) (b : body) (now : Z)
  (c : conn) :
  update_task userId task_id b now c =
  match updateTaskInputSchema b with
  | None => (Failure 400 ValidationError, rollback_conn c)
  | Some f =>
      match filter (is_task task_id userId) (view c) with
      | [] => (Failure 404 TaskNotFound, c)
      | currentTask :: _ =>
          let bound :=
            or_minus_one (select_max_order_index userId (view c)) + 1 in
          if category_missing userId f c
          then (Failure 400 CategoryNotFound, c)
          else
            let answered :=
              if taskSchema (returned_row userId f currentTask now c)
              then (Json 200 (returned_row userId f currentTask now c),
                    patched_conn userId task_id f currentTask now c)
              else (Failure 400 ValidationError,
                    rollback_conn
                      (patched_conn userId task_id f currentTask now c)) in
            match reorder_requested f currentTask with
            | None => answered
            | Some newIndex =>
                if newIndex <? 0
                then (Failure 400 OrderIndexNegative, c)
                else if bound <? newIndex
                then (Failure 400 (OrderIndexOutOfBounds newIndex bound), c)
                else if is_completed currentTask
                then (Failure 500 InternalServerError, rollback_conn c)
                else answered
            end
      end
  end.
Proof.
  unfold update_task, try_catch.
  unfold bind at 1. unfold parse.
  destruct (updateTaskInputSchema b) as [f|] eqn:Hparse; [|reflexivity].
  cbn [ret]. unfold bind at 1. unfold query at 1.
  destruct (filter (is_task task_id userId) (view c))
    as [|currentTask rest] eqn:Hcur; [reflexivity|].
  unfold bind at 1. unfold category_missing. cbn zeta.
  assert (Hrun := build_and_run_update_run userId task_id f currentTask now c
                    rest Hcur).
  cbn zeta in Hrun.
  destruct (upd_category_id f) as [[cid|]|].
  - unfold bind at 1. unfold query_categories at 1.
    destruct (select_category cid userId (categories c)); [reflexivity|].
    cbn [ret]. rewrite Hrun. update_task_cases.
  - cbn [ret]. rewrite Hrun. update_task_cases.
  - cbn [ret]. rewrite Hrun. update_task_cases.
Qed.

Lemma view_patched_conn (userId task_id : string) (f : UpdateTaskInput)
  (currentTask : task) (now : Z) (c : conn) :
  view (patched_conn userId task_id f currentTask now c)
  = map (patched_row userId task_id f currentTask now
           (or_minus_one (select_max_order_index userId (view c)) + 1))
      (view c).
Proof.
  rewrite <- patched_rows. unfold patched_conn.
  destruct (reorder_requested f currentTask); [reflexivity|].
  unfold write, view. destruct (pending c) as [[pcats p]|]; reflexivity.
Qed.

(** The handler never commits: a reorder leaves its transaction open on
    the connection it releases. *)
Lemma reorder_left_uncommitted (userId task_id : string)
  (f : UpdateTaskInput) (currentTask : task) (now : Z) (c : conn)
  (newIndex : Z) :
  reorder_requested f currentTask = Some newIndex ->
  committed (patched_conn userId task_id f currentTask now c) = committed c /\
  pending (patched_conn userId task_id f currentTask now c) <> None.
Proof.
  intros Hreq. unfold patched_conn. rewrite Hreq. cbn.
  split; [reflexivity | discriminate].
Qed.

(** ** What the accepted transitions do *)

(** Complete: a PATCH with [is_completed: true] on an incomplete task is
    accepted once the body, the category and the returned row pass; the
    task keeps its [order_index], and no other row changes. *)
Lemma complete_effect (userId task_id : string) (b : body) (now : Z)
  (c : conn) (f : UpdateTaskInput) (currentTask : task) (rest : list task) :
  updateTaskInputSchema b = Some f ->
  filter (is_task task_id userId) (view c) = currentTask :: rest ->
  category_missing userId f c = false ->
  upd_is_completed f = Some true ->
  taskSchema (returned_row userId f currentTask now c) = true ->
  exists row,
    fst (update_task userId task_id b now c) = Json 200 row /\
    order_index row = order_index currentTask /\
    is_completed row = true /\
    forall t, In t (view c) -> is_task task_id userId t = false ->
      In t (view (snd (update_task userId task_id b now c))).
Proof.
  intros Hparse Hcur Hcat Hdone Hrow.
  assert (Hreq : reorder_requested f currentTask = None).
  { unfold reorder_requested. rewrite Hdone.
    destruct (upd_order_index f); [|reflexivity].
    now rewrite andb_false_r. }
  rewrite update_task_run, Hparse, Hcur. cbn zeta.
  rewrite Hcat, Hreq, Hrow.
  eexists. split; [reflexivity|]. cbn [fst snd]. unfold returned_row.
  rewrite Hreq.
  rewrite order_index_updated_row, is_completed_updated_row, Hdone.
  split; [reflexivity|]. split; [reflexivity|].
  intros t Hin Ht. rewrite view_patched_conn.
  apply in_map_iff. exists t. split; [|exact Hin].
  now apply patched_row_unmoved.
Qed.

(** Uncomplete: a PATCH with [is_completed: false] and no [order_index] on
    a completed task is accepted once the body, the category and the
    returned row pass; the task gets the index [(max || -1) + 1], a [NULL]
    [completed_at], and no other row changes. *)
Lemma uncomplete_effect (userId task_id : string) (b : body) (now : Z)
  (c : conn) (f : UpdateTaskInput) (currentTask : task) (rest : list task) :
  updateTaskInputSchema b = Some f ->
  filter (is_task task_id userId) (view c) = currentTask :: rest ->
  category_missing userId f c = false ->
  upd_is_completed f = Some false ->
  is_completed currentTask = true ->
  upd_order_index f = None ->
  taskSchema (returned_row userId f currentTask now c) = true ->
  exists row,
    fst (update_task userId task_id b now c) = Json 200 row /\
    order_index row
    = or_minus_one (select_max_order_index userId (view c)) + 1 /\
    is_completed row = false /\
    completed_at row = None /\
    forall t, In t (view c) -> is_task task_id userId t = false ->
      In t (view (snd (update_task userId task_id b now c))).
Proof.
  intros Hparse Hcur Hcat Hdone Hcomp Hidx Hrow.
  assert (Hreq : reorder_requested f currentTask = None).
  { unfold reorder_requested. now rewrite Hidx. }
  rewrite update_task_run, Hparse, Hcur. cbn zeta.
  rewrite Hcat, Hreq, Hrow.
  eexists. split; [reflexivity|]. cbn [fst snd]. unfold returned_row.
  rewrite Hreq.
  rewrite order_index_updated_row, is_completed_updated_row,
    completed_at_updated_row, Hdone, Hcomp.
  repeat (split; [reflexivity|]).
  intros t Hin Ht. rewrite view_patched_conn.
  apply in_map_iff. exists t. split; [|exact Hin].
  now apply patched_row_unmoved.
Qed.

(** Reorder: a PATCH with an [order_index] other than the stored one on a
    task that is and remains incomplete, and whose returned row passes
    [taskSchema], is accepted exactly when the index is within
    [0, (max || -1) + 1]; it is refused with the connection untouched
    otherwise. *)
Lemma reorder_bounds (userId task_id : string) (b : body) (now : Z)
  (c : conn) (f : UpdateTaskInput) (currentTask : task) (rest : list task)
  (newIndex : Z) :
  updateTaskInputSchema b = Some f ->
  filter (is_task task_id userId) (view c) = currentTask :: rest ->
  category_missing userId f c = false ->
  reorder_requested f currentTask = Some newIndex ->
  is_completed currentTask = false ->
  taskSchema (returned_row userId f currentTask now c) = true ->
  let bound := or_minus_one (select_max_order_index userId (view c)) + 1 in
  if (0 <=? newIndex) && (newIndex <=? bound)
  then exists row, fst (update_task userId task_id b now c) = Json 200 row
  else exists message,
         update_task userId task_id b now c = (Failure 400 message, c).
Proof.
  intros Hparse Hcur Hcat Hreq Hcomp Hrow bound.
  rewrite update_task_run, Hparse, Hcur. cbn zeta. fold bound.
  rewrite Hcat, Hreq, Hcomp, Hrow.
  destruct (Z.leb_spec 0 newIndex), (Z.leb_spec newIndex bound),
           (Z.ltb_spec newIndex 0), (Z.ltb_spec bound newIndex);
    cbn [andb]; try lia; eexists; reflexivity.
Qed.

(** Reorder: an accepted reorder assigns the new index to the moved task
    and shifts the other active tasks of the user: those in
    [newIndex, oldIndex) up by one, those in (oldIndex, newIndex] down by
    one, and no other. *)
Lemma reorder_effect (userId task_id : string) (b : body) (now : Z)
  (c : conn) (f : UpdateTaskInput) (currentTask : task) (rest : list task)
  (newIndex : Z) (row : task) :
  updateTaskInputSchema b = Some f ->
  filter (is_task task_id userId) (view c) = currentTask :: rest ->
  reorder_requested f currentTask = Some newIndex ->
  fst (update_task userId task_id b now c) = Json 200 row ->
  order_index row = newIndex /\
  map order_index (view (snd (update_task userId task_id b now c)))
  = map (index_after_reorder userId task_id (order_index currentTask)
           newIndex) (view c).
Proof.
  intros Hparse Hcur Hreq. rewrite update_task_run, Hparse, Hcur.
  cbn zeta. rewrite Hreq.
  destruct (category_missing userId f c); [discriminate|].
  destruct (newIndex <? 0); [discriminate|].
  destruct (_ <? newIndex); [discriminate|].
  destruct (is_completed currentTask); [discriminate|].
  destruct (taskSchema _); [|discriminate].
  cbn [fst snd]. intros H. injection H as <-. unfold returned_row.
  rewrite Hreq.
  split; [now rewrite order_index_updated_row|].
  rewrite view_patched_conn, map_map. apply map_ext. intros t.
  unfold patched_row, index_after_reorder. rewrite Hreq.
  destruct (is_task task_id userId t);
    [now rewrite order_index_updated_row | reflexivity].
Qed.

(* ===================================================================== *)
(** * The row that an accepted PATCH stores *)
(* ===================================================================== *)

Lemma user_id_patched_row (userId task_id : string) (f : UpdateTaskInput)
  (currentTask : task) (now appended : Z) (t : task) :
  user_id (patched_row userId task_id f currentTask now appended t)
  = user_id t.
Proof.
  unfold patched_row. destruct (is_task task_id userId t).
  - apply user_id_updated_row.
  - destruct (reorder_requested f currentTask); reflexivity.
Qed.

Lemma id_patched_row (userId task_id : string) (f : UpdateTaskInput)
  (currentTask : task) (now appended : Z) (t : task) :
  id (patched_row userId task_id f currentTask now appended t) = id t.
Proof.
  unfold patched_row. destruct (is_task task_id userId t).
  - apply id_updated_row.
  - destruct (reorder_requested f currentTask); reflexivity.
Qed.

Lemma is_task_patched_row (userId task_id owner other : string)
  (f : UpdateTaskInput) (currentTask : task) (now appended : Z) (t : task) :
  is_task other owner (patched_row userId task_id f currentTask now appended t)
  = is_task other owner t.
Proof.
  unfold is_task. now rewrite id_patched_row, user_id_patched_row.
Qed.

Lemma filter_map_same {A : Type} (p : A -> bool) (g : A -> A)
  (l : list A) :
  (forall x, p (g x) = p x) -> filter p (map g l) = map g (filter p l).
Proof.
  intros H. induction l as [|x l IH]; cbn; [reflexivity|].
  rewrite H. destruct (p x); cbn; now rewrite IH.
Qed.

Lemma update_task_accepted (userId task_id : string) (b : body) (now : Z)
  (c : conn) (row : task) :
  fst (update_task userId task_id b now c) = Json 200 row ->
  exists f currentTask rest,
    updateTaskInputSchema b = Some f /\
    filter (is_task task_id userId) (view c) = currentTask :: rest /\
    category_missing userId f c = false /\
    row = updated_row f currentTask now
            (or_minus_one (select_max_order_index userId (view c)) + 1)
            (reorder_requested f currentTask) currentTask /\
    snd (update_task userId task_id b now c)
    = patched_conn userId task_id f currentTask now c.
Proof.
  rewrite update_task_run.
  destruct (updateTaskInputSchema b) as [f|]; [|discriminate].
  destruct (filter (is_task task_id userId) (view c)) as [|cur rest] eqn:Hcur;
    [discriminate|].
  cbn zeta. destruct (category_missing userId f c) eqn:Hcat; [discriminate|].
  destruct (reorder_requested f cur) as [n|] eqn:Hreq.
  - destruct (n <? 0); [discriminate|].
    destruct (_ <? n); [discriminate|].
    destruct (is_completed cur); [discriminate|].
    destruct (taskSchema _); [|discriminate].
    cbn [fst snd]. intros [= <-]. exists f, cur, rest.
    unfold returned_row. rewrite Hreq. now repeat split.
  - destruct (taskSchema _); [|discriminate].
    cbn [fst snd]. intros [= <-]. exists f, cur, rest.
    unfold returned_row. rewrite Hreq. now repeat split.
Qed.

Lemma current_task_alone (task_id userId : string) (tbl : list task)
  (currentTask : task) (rest : list task) :
  keyed tbl ->
  filter (is_task task_id userId) tbl = currentTask :: rest ->
  rest = [].
Proof.
  intros Hk Hcur. destruct rest as [|t rest]; [reflexivity|]. exfalso.
  assert (Hnd : NoDup (filter (is_task task_id userId) tbl)).
  { apply NoDup_filter. apply (NoDup_map_inv id). exact Hk. }
  assert (Ht : In t (filter (is_task task_id userId) tbl)).
  { rewrite Hcur. right. now left. }
  apply filter_In in Ht as [Hin Htask].
  pose proof (current_task_unique task_id userId tbl currentTask (t :: rest)
                t Hk Hcur Hin Htask) as ->.
  rewrite Hcur in Hnd. inversion Hnd as [|? ? Hnot _]; subst.
  apply Hnot. now left.
Qed.

(** The table that the UPDATE of a PATCH leaves holds one row of the
    task: the row that the statement returns. *)
Lemma returned_row_stored (userId task_id : string) (f : UpdateTaskInput)
  (currentTask : task) (now : Z) (c : conn) (rest : list task) :
  keyed (view c) ->
  filter (is_task task_id userId) (view c) = currentTask :: rest ->
  filter (is_task task_id userId)
    (view (patched_conn userId task_id f currentTask now c))
  = [returned_row userId f currentTask now c].
Proof.
  intros Hk Hcur.
  pose proof (current_task_alone _ _ _ _ _ Hk Hcur) as ->.
  apply current_task_in in Hcur as Htask. destruct Htask as [_ Htask].
  rewrite view_patched_conn, filter_map_same
    by (intros; apply is_task_patched_row).
  rewrite Hcur. cbn [map]. unfold patched_row, returned_row.
  now rewrite Htask.
Qed.

(** C8. On a connection whose tables satisfy I3 (with [id] as their key),
    the tables satisfy I3 after every sequence of requests. A PATCH with a
    valid body for a task of the caller, with a category of the caller if
    it names one and without a reorder, is answered 200 if the row that
    the UPDATE returns passes [taskSchema]; a PATCH that is answered 200
    is answered with that row, which is then the one row of the task that
    the connection reads; that row satisfies I3, and its [completed_at] is
    the time of the request if the request completes an incomplete task,
    [NULL] if it makes the task incomplete, and the stored value
    otherwise. The INSERT of a create request binds [false] and [NULL] to
    [is_completed] and [completed_at]. *)
Theorem completion_timestamp_invariant (c : conn) :
  both consistent c ->
  (forall rs, both consistent (run rs c)) /\
  (forall userId task_id b now f currentTask rest,
      updateTaskInputSchema b = Some f ->
      filter (is_task task_id userId) (view c) = currentTask :: rest ->
      let row := returned_row userId f currentTask now c in
      let answered := update_task userId task_id b now c in
      (category_missing userId f c = false ->
       reorder_requested f currentTask = None ->
       taskSchema row = true ->
       fst answered = Json 200 row) /\
      (forall row',
          fst answered = Json 200 row' ->
          row' = row /\
          filter (is_task task_id userId) (view (snd answered)) = [row]) /\
      completion_consistent row /\
      completed_at row =
      match upd_is_completed f with
      | Some true =>
          if is_completed currentTask then completed_at currentTask
          else Some now
      | Some false => None
      | None => completed_at currentTask
      end) /\
  (forall taskId userId input now,
      nth_error insertTaskQuery_columns 7 = Some col_is_completed /\
      nth_error (insertTaskParams taskId userId input now) 7
      = Some (VBool false) /\
      nth_error insertTaskQuery_columns 8 = Some col_completed_at /\
      nth_error (insertTaskParams taskId userId input now) 8 = Some VNull).
Proof.
  intros Hc. split; [|split].
  - intros rs. revert c Hc.
    induction rs as [|r rs IH]; intros c Hc; cbn [run]; [assumption|].
    apply IH. now apply consistent_handle.
  - intros u tid b now f cur rest Hparse Hcur row answered.
    pose proof (both_view _ _ Hc) as [Hk Hall].
    assert (Hcons : completion_consistent cur).
    { rewrite Forall_forall in Hall. apply Hall.
      now apply (current_task_in tid u (view c) cur rest). }
    split; [|split; [|split]].
    + intros Hcat Hreq Hrow. unfold answered.
      rewrite update_task_run, Hparse, Hcur. cbn zeta.
      fold row. now rewrite Hcat, Hreq, Hrow.
    + intros row' Hok.
      apply update_task_accepted in Hok
        as (f' & cur' & rest' & Hparse' & Hcur' & _ & Hrow' & Hconn).
      rewrite Hparse in Hparse'. injection Hparse' as <-.
      rewrite Hcur in Hcur'. injection Hcur' as <- <-.
      split; [exact Hrow'|].
      unfold answered. rewrite Hconn.
      now apply (returned_row_stored u tid f cur now c rest).
    + now apply consistent_row_updated.
    + apply completed_at_updated_row.
  - intros. repeat split.
Qed.

(** The sample requests on the sample table, and a PATCH that completes
    the task B at the time 1679100000000. *)
Lemma completion_timestamp_invariant_witness :
  both consistent (idle [] abc_d) /\
  both consistent (run sample_requests (idle [] abc_d)) /\
  update_task "u" "B" (with_key_is_completed true no_keys) 1679100000000
    (idle [] abc_d)
  = (Json 200
       (with_updated_at 1679100000000
          (with_completed_at (Some 1679100000000)
             (with_is_completed true (sample "B" "u" false None 1)))),
     idle []
       [ sample "A" "u" false None 0;
         with_updated_at 1679100000000
           (with_completed_at (Some 1679100000000)
              (with_is_completed true (sample "B" "u" false None 1)));
         sample "C" "u" false None 2;
         sample "D" "u" true (Some 1679000000000) 5 ]) /\
  filter (is_task "B" "u")
    (view (snd (update_task "u" "B" (with_key_is_completed true no_keys)
                  1679100000000 (idle [] abc_d))))
  = [with_updated_at 1679100000000
       (with_completed_at (Some 1679100000000)
          (with_is_completed true (sample "B" "u" false None 1)))] /\
  completed_at
    (returned_row "u"
       (mkUpdateTaskInput None None None None None (Some true) None None)
       (sample "B" "u" false None 1) 1679100000000 (idle [] abc_d))
  = Some 1679100000000.
Proof.
  assert (H : both consistent (idle [] abc_d)).
  { apply both_committed. split.
    - unfold keyed. cbn. repeat constructor; cbn; intuition discriminate.
    - repeat constructor; cbn; intuition discriminate. }
  destruct (completion_timestamp_invariant (idle [] abc_d) H)
    as (Hruns & Hpatch & _).
  destruct (Hpatch "u" "B" (with_key_is_completed true no_keys)
              1679100000000
              (mkUpdateTaskInput None None None None None (Some true) None
                 None)
              (sample "B" "u" false None 1) [] eq_refl eq_refl)
    as (Hanswered & Hstored & _ & Htime).
  split; [exact H|]. split; [exact (Hruns sample_requests)|].
  split; [reflexivity|].
  split; [|exact Htime].
  exact (proj2 (Hstored _ (Hanswered eq_refl eq_refl eq_refl))).
Defined.

(* ===================================================================== *)
(** * DELETE after a reorder *)
(* ===================================================================== *)

(** C7. A DELETE on the connection that an accepted reorder leaves. The
    PATCH that moves C of A(0) B(1) C(2) to the top is answered 200 and
    leaves its transaction open: the connection reads C(0) A(1) B(2), the
    committed table has A(0) B(1) C(2). A DELETE of an id that the caller
    has no task for is then answered 404, and its ROLLBACK ends that
    transaction: the connection reads A(0) B(1) C(2) again. A DELETE of
    the completed task D is answered 204, and its COMMIT ends that
    transaction: the committed indices of A, B and C change. *)
Theorem delete_ends_open_reorder :
  let moved_to_top :=
    update_task "u" "C" (with_key_order_index 0 no_keys) 1679100000001
      (idle [] abc_d) in
  fst moved_to_top
  = Json 200
      (with_updated_at 1679100000001
         (with_order_index 0 (sample "C" "u" false None 2))) /\
  active_view "u" (view (snd moved_to_top))
  = [("A", 1); ("B", 2); ("C", 0)] /\
  active_view "u" (committed (snd moved_to_top))
  = [("A", 0); ("B", 1); ("C", 2)] /\
  fst (delete_task "u" "Z" (snd moved_to_top)) = Failure 404 TaskNotFound /\
  active_view "u" (view (snd (delete_task "u" "Z" (snd moved_to_top))))
  = [("A", 0); ("B", 1); ("C", 2)] /\
  fst (delete_task "u" "D" (snd moved_to_top)) = NoContent /\
  active_view "u" (committed (snd (delete_task "u" "D" (snd moved_to_top))))
  = [("A", 1); ("B", 2); ("C", 0)].
Proof. cbn zeta. repeat split. Qed.

(* ===================================================================== *)
(** * Further properties of the task handlers *)
(* ===================================================================== *)

Lemma handle_handled (r : request) (c : conn) :
  handled r c (snd (handle r c)).
Proof.
  destruct r as [u b taskId now | u tid b now | u tid]; cbn [handle].
  - destruct (create_task_conn u b taskId now c) as [-> | ->];
      constructor.
  - rewrite update_task_run.
    destruct (updateTaskInputSchema b) as [f|] eqn:Hparse;
      [|constructor].
    destruct (filter (is_task tid u) (view c)) as [|cur rest] eqn:Hcur;
      [constructor|].
    cbn zeta.
    destruct (category_missing u f c) eqn:Hcat; [constructor|].
    assert (Hsent :
      handled (PATCH_task u tid b now) c
        (snd (if taskSchema (returned_row u f cur now c)
              then (Json 200 (returned_row u f cur now c),
                    patched_conn u tid f cur now c)
              else (Failure 400 ValidationError,
                    rollback_conn (patched_conn u tid f cur now c))))).
    { destruct (taskSchema _); cbn [snd].
      - now apply (handled_patched (PATCH_task u tid b now) c tid b now f
                     cur rest).
      - now apply (handled_unanswered (PATCH_task u tid b now) c tid b now f
                     cur rest). }
    destruct (reorder_requested f cur) as [n|]; [|exact Hsent].
    destruct (n <? 0); [constructor|].
    destruct (_ <? n); [constructor|].
    destruct (is_completed cur); [constructor | exact Hsent].
  - rewrite delete_task_run.
    destruct (filter (is_task tid u) (view c)) as [|gone rest] eqn:Hsel;
      [constructor|].
    now apply (handled_deleted (DELETE_task u tid) c tid gone rest).
Qed.

Lemma categories_patched_conn (userId task_id : string)
  (f : UpdateTaskInput) (currentTask : task) (now : Z) (c : conn) :
  categories (patched_conn userId task_id f currentTask now c)
  = categories c.
Proof.
  unfold patched_conn.
  destruct (reorder_requested f currentTask);
    [reflexivity | apply categories_write].
Qed.

Lemma committed_categories_patched_conn (userId task_id : string)
  (f : UpdateTaskInput) (currentTask : task) (now : Z) (c : conn) :
  committed_categories (patched_conn userId task_id f currentTask now c)
  = committed_categories c.
Proof.
  unfold patched_conn, write.
  destruct (reorder_requested f currentTask); [reflexivity|].
  destruct (pending c) as [[pcats p]|]; reflexivity.
Qed.

(** A request leaves the categories that the connection reads, or puts
    the committed ones in their place. *)
Lemma categories_handled (r : request) (c c' : conn) :
  handled r c c' ->
  categories c' = categories c \/ categories c' = committed_categories c.
Proof.
  intros [| | tid gone rest _ _ | tid b now f cur rest _ _ _ _
          | tid b now f cur rest _ _ _ _].
  - now left.
  - now right.
  - now left.
  - left. apply categories_patched_conn.
  - right. apply committed_categories_patched_conn.
Qed.

Lemma committed_categories_handled (r : request) (c c' : conn) :
  handled r c c' ->
  committed_categories c' = categories c \/
  committed_categories c' = committed_categories c.
Proof.
  intros [| | tid gone rest _ _ | tid b now f cur rest _ _ _ _
          | tid b now f cur rest _ _ _ _].
  - now right.
  - now right.
  - now left.
  - right. apply committed_categories_patched_conn.
  - right. apply committed_categories_patched_conn.
Qed.

(** A property of tables that the deletions and accepted updates of a
    request keep is kept by the request, in the committed table and in
    the open transaction. *)
Lemma both_handled (P : list task -> Prop) (r : request) (c c' : conn) :
  (forall task_id gone rest tbl,
      filter (is_task task_id (request_user r)) tbl = gone :: rest ->
      P tbl -> P (deleted (request_user r) task_id gone tbl)) ->
  (forall task_id b f currentTask rest now,
      updateTaskInputSchema b = Some f ->
      filter (is_task task_id (request_user r)) (view c)
      = currentTask :: rest ->
      category_missing (request_user r) f c = false ->
      P (view c) ->
      P (patched (request_user r) task_id f currentTask now (view c))) ->
  handled r c c' -> both P c -> both P c'.
Proof.
  intros Hdel Hpatch
    [| | tid gone rest _ Hsel | tid b now f cur rest _ Hf Hcur Hcat
     | tid b now f cur rest _ Hf Hcur Hcat] Hc.
  - exact Hc.
  - now apply both_rollback.
  - apply both_committed. apply (Hdel _ _ rest); [exact Hsel|].
    now apply both_view.
  - apply both_patched; [exact Hc|].
    apply (Hpatch _ b _ _ rest); try assumption. now apply both_view.
  - apply both_unanswered; [exact Hc|]. intros _.
    apply (Hpatch _ b _ _ rest); try assumption. now apply both_view.
Qed.

(** ** Rows of an accepted update and of a deletion *)

Lemma patched_row_other_user (userId task_id : string) (f : UpdateTaskInput)
  (currentTask : task) (now appended : Z) (t : task) :
  user_id t <> userId ->
  patched_row userId task_id f currentTask now appended t = t.
Proof.
  intros Hne. apply String.eqb_neq in Hne.
  unfold patched_row, index_after_reorder, is_task, is_active.
  rewrite Hne, andb_false_r. cbn.
  destruct (reorder_requested f currentTask);
    [apply with_order_index_same | reflexivity].
Qed.

Lemma index_after_delete_other_user (userId : string) (gone t : task) :
  user_id t <> userId -> index_after_delete userId gone t = order_index t.
Proof.
  intros Hne. apply String.eqb_neq in Hne.
  unfold index_after_delete, is_active.
  now rewrite Hne, andb_false_r.
Qed.

Lemma of_others_map (userId : string) (g : task -> task) (tbl : list task) :
  (forall t, user_id (g t) = user_id t) ->
  (forall t, user_id t <> userId -> g t = t) ->
  of_others userId (map g tbl) = of_others userId tbl.
Proof.
  intros Hu Hg. unfold of_others.
  induction tbl as [|t l IH]; cbn; [reflexivity|].
  rewrite Hu. destruct (String.eqb_spec (user_id t) userId) as [He|Hne];
    cbn; [exact IH|].
  now rewrite IH, Hg.
Qed.

Lemma of_others_patched (userId task_id : string) (f : UpdateTaskInput)
  (currentTask : task) (now : Z) (tbl : list task) :
  of_others userId (patched userId task_id f currentTask now tbl)
  = of_others userId tbl.
Proof.
  rewrite patched_rows. apply of_others_map.
  - intros t. apply user_id_patched_row.
  - intros t. apply patched_row_other_user.
Qed.

Lemma of_others_deleted (userId task_id : string) (gone : task)
  (tbl : list task) :
  of_others userId (deleted userId task_id gone tbl)
  = of_others userId tbl.
Proof.
  unfold deleted. rewrite of_others_map.
  - unfold of_others. rewrite filter_filter_and.
    apply filter_ext. intros t. unfold is_task.
    destruct (String.eqb (user_id t) userId); cbn;
      [reflexivity | now rewrite andb_false_r].
  - reflexivity.
  - intros t Hne. rewrite index_after_delete_other_user by exact Hne.
    apply with_order_index_same.
Qed.

Lemma both_run (P : conn -> Prop) (Q : request -> Prop) (rs : list request) :
  (forall r c, Q r -> P c -> P (snd (handle r c))) ->
  forall c, Forall Q rs -> P c -> P (run rs c).
Proof.
  intros Hstep. induction rs as [|r rs' IH]; intros c Hrs Hc; cbn [run];
    [exact Hc|].
  inversion Hrs as [|? ? Hr Hrs']; subst.
  apply IH; [exact Hrs'|]. now apply Hstep.
Qed.

(** X1. The requests of one user write no row of another user. On
    whatever connection they are served, after any sequence of create,
    update and delete requests of [userId] the rows of the other users,
    in the committed table and in the table the connection reads, are
    those that were committed at the start or those of the transaction
    that was open at the start: the requests can commit or roll back that
    transaction, and no more. With no transaction open at the start the
    rows of the other users are those of the start. *)
Theorem other_users_untouched (userId : string) (rs : list request)
  (c : conn) :
  Forall (fun r => request_user r = userId) rs ->
  (of_others userId (committed (run rs c)) = of_others userId (committed c) \/
   of_others userId (committed (run rs c)) = of_others userId (view c)) /\
  (of_others userId (view (run rs c)) = of_others userId (committed c) \/
   of_others userId (view (run rs c)) = of_others userId (view c)) /\
  (pending c = None ->
   of_others userId (committed (run rs c)) = of_others userId (committed c) /\
   of_others userId (view (run rs c)) = of_others userId (committed c)).
Proof.
  intros Hrs.
  set (P := fun T => of_others userId T = of_others userId (committed c) \/
                     of_others userId T = of_others userId (view c)).
  assert (H : both P (run rs c)).
  { apply (both_run (both P) (fun r => request_user r = userId));
      [|exact Hrs|].
    - intros r c0 Hr Hc.
      apply (both_handled _ r c0); [| |apply handle_handled|exact Hc];
        rewrite Hr; unfold P.
      + intros tid gone rest T _ HT. now rewrite of_others_deleted.
      + intros tid b f cur rest now _ _ _ HT.
        now rewrite of_others_patched.
    - unfold both, P, view.
      destruct (pending c) as [[pcats p]|]; split; auto. }
  split; [apply H|]. split; [now apply both_view|].
  intros Hidle.
  assert (Hview : view c = committed c) by (unfold view; now rewrite Hidle).
  pose proof (both_view _ _ H) as Hv. destruct H as [Hc _].
  unfold P in Hc, Hv. rewrite Hview in Hc, Hv.
  split; [destruct Hc | destruct Hv]; assumption.
Qed.

(** The rows of another user in a transaction that is left open: the
    requests of ["u"] end it and leave her rows as they were committed or
    as the transaction had them. *)
Lemma other_users_untouched_witness :
  Forall (fun r => request_user r = "u") sample_requests /\
  (of_others "u"
     (view (run sample_requests
              (in_transaction (sample "Z" "v" false None 1 :: abc_d)
                 (idle [] (sample "Z" "v" false None 0 :: abc_d)))))
   = [sample "Z" "v" false None 0] \/
   of_others "u"
     (view (run sample_requests
              (in_transaction (sample "Z" "v" false None 1 :: abc_d)
                 (idle [] (sample "Z" "v" false None 0 :: abc_d)))))
   = [sample "Z" "v" false None 1]).
Proof.
  split; [repeat constructor|].
  apply (other_users_untouched "u" sample_requests
           (in_transaction (sample "Z" "v" false None 1 :: abc_d)
              (idle [] (sample "Z" "v" false None 0 :: abc_d)))).
  repeat constructor.
Defined.

(** ** What a PATCH leaves alone *)

Lemma created_at_updated_row (f : UpdateTaskInput) (currentTask : task)
  (now appended : Z) (moved : option Z) (t : task) :
  created_at (updated_row f currentTask now appended moved t) = created_at t.
Proof.
  frame_columns. unfold completion_row.
  destruct (upd_is_completed f) as [[|]|], (is_completed currentTask);
    cbn; now frame_columns.
Qed.

Lemma created_at_patched_row (userId task_id : string) (f : UpdateTaskInput)
  (currentTask : task) (now appended : Z) (t : task) :
  created_at (patched_row userId task_id f currentTask now appended t)
  = created_at t.
Proof.
  unfold patched_row. destruct (is_task task_id userId t).
  - apply created_at_updated_row.
  - destruct (reorder_requested f currentTask); reflexivity.
Qed.

Lemma Forall2_map_right {A : Type} (R : A -> A -> Prop) (g : A -> A)
  (l : list A) :
  (forall x, In x l -> R x (g x)) -> Forall2 R l (map g l).
Proof.
  induction l as [|x l IH]; cbn; intros H; constructor.
  - apply H. now left.
  - apply IH. intros y Hy. apply H. now right.
Qed.

Lemma kept_but_index_same (t : task) : kept_but_index t t.
Proof. unfold kept_but_index. now rewrite with_order_index_same. Qed.

(** X2. A PATCH neither adds nor removes a row and changes no id, owner
    or creation time; of the rows other than the addressed task it
    changes nothing but the order_index. (Or it fails and the open
    transaction of the connection is rolled back.) *)
Theorem patch_touches_one_row (userId task_id : string) (b : body)
  (now : Z) (c : conn) :
  snd (update_task userId task_id b now c) = rollback_conn c \/
  Forall2
    (fun t t' =>
       id t' = id t /\ user_id t' = user_id t /\
       created_at t' = created_at t /\
       (is_task task_id userId t = false -> kept_but_index t t'))
    (view c) (view (snd (update_task userId task_id b now c))).
Proof.
  assert (H := handle_handled (PATCH_task userId task_id b now) c).
  cbn [handle] in H.
  assert (Hrows : forall f cur,
    Forall2
      (fun t t' =>
         id t' = id t /\ user_id t' = user_id t /\
         created_at t' = created_at t /\
         (is_task task_id userId t = false -> kept_but_index t t'))
      (view c)
      (map (patched_row userId task_id f cur now
              (or_minus_one (select_max_order_index userId (view c)) + 1))
         (view c))).
  { intros f cur. apply Forall2_map_right. intros t _.
    rewrite id_patched_row, user_id_patched_row, created_at_patched_row.
    repeat split. intros Ht. unfold patched_row. rewrite Ht.
    destruct (reorder_requested f cur); [reflexivity|].
    apply kept_but_index_same. }
  destruct H as [| | tid gone rest Hr _
                | tid b' now' f cur rest Hr Hparse Hcur Hcat
                | tid b' now' f cur rest Hr Hparse Hcur Hcat].
  - right. rewrite <- (map_id (view c)) at 2.
    apply Forall2_map_right. intros t _.
    repeat split; try reflexivity. intros _. apply kept_but_index_same.
  - now left.
  - discriminate Hr.
  - right. cbn [request_user] in *. injection Hr as <- <- <-.
    rewrite view_patched_conn. apply Hrows.
  - cbn [request_user] in *. injection Hr as <- <- <-.
    unfold patched_conn.
    destruct (reorder_requested f cur) eqn:Hreq; [now left|].
    destruct (pending c) as [[pcats p]|] eqn:Hpend.
    + left. unfold write. now rewrite Hpend.
    + right. specialize (Hrows f cur). rewrite <- patched_rows in Hrows.
      unfold patched in Hrows. rewrite Hreq in Hrows.
      unfold write, patched. rewrite Hpend, Hreq. exact Hrows.
Qed.

(** ** A task that is not the caller's *)

Lemma filter_none {A : Type} (p : A -> bool) (l : list A) :
  (forall x, In x l -> p x = false) -> filter p l = [].
Proof.
  induction l as [|x l IH]; cbn; intros H; [reflexivity|].
  rewrite (H x) by now left. apply IH. intros y Hy. apply H. now right.
Qed.

Lemma no_task_of (userId task_id : string) (tbl : list task) :
  (forall t, In t tbl -> id t = task_id -> user_id t <> userId) ->
  filter (is_task task_id userId) tbl = [].
Proof.
  intros H. apply filter_none. intros t Ht. unfold is_task.
  destruct (String.eqb_spec (id t) task_id) as [Hid|]; [|reflexivity].
  cbn. apply String.eqb_neq. now apply H.
Qed.

(** X3. A task id that no row of the caller carries (no such task, or a
    task of another user) is answered 404 "Task not found" by PATCH, when
    the body is valid, and by DELETE; the PATCH leaves the connection as
    it is and the DELETE sends ROLLBACK. *)
Theorem foreign_task_not_found (userId task_id : string) (b : body)
  (now : Z) (c : conn) :
  (forall t, In t (view c) -> id t = task_id -> user_id t <> userId) ->
  updateTaskInputSchema b <> None ->
  update_task userId task_id b now c = (Failure 404 TaskNotFound, c) /\
  delete_task userId task_id c
  = (Failure 404 TaskNotFound, rollback_conn c).
Proof.
  intros Hnone Hvalid. apply no_task_of in Hnone.
  rewrite update_task_run, delete_task_run, Hnone.
  destruct (updateTaskInputSchema b); [now split | contradiction].
Qed.

Lemma foreign_task_not_found_witness :
  update_task "v" "B" (with_key_title "mine" no_keys) 1679100000000
    (idle [] abc_d)
  = (Failure 404 TaskNotFound, idle [] abc_d) /\
  delete_task "v" "B" (idle [] abc_d)
  = (Failure 404 TaskNotFound, idle [] abc_d).
Proof.
  apply (foreign_task_not_found "v" "B" (with_key_title "mine" no_keys)
           1679100000000 (idle [] abc_d)).
  - intros t Ht _. cbn in Ht.
    destruct Ht as [<-|[<-|[<-|[<-|[]]]]]; discriminate.
  - discriminate.
Defined.

(** ** Requests that edit fields only *)

Lemma schema_order_index_absent (b : body) (f : UpdateTaskInput) :
  updateTaskInputSchema b = Some f ->
  b_order_index b = None ->
  upd_order_index f = None.
Proof.
  unfold updateTaskInputSchema. intros Hf Hb. rewrite Hb in Hf.
  cbn [z_optional] in Hf.
  destruct (z_optional _ (b_category_id b)); [|discriminate].
  destruct (z_optional _ (b_title b)); [|discriminate].
  destruct (z_optional _ (b_description b)); [|discriminate].
  destruct (z_date (b_due_date_at b)); [|discriminate].
  destruct (z_optional _ (b_priority b)); [|discriminate].
  destruct (z_optional _ (b_is_completed b)); [|discriminate].
  destruct (z_date (b_completed_at b)); [|discriminate].
  now injection Hf as <-.
Qed.

Lemma placement_patched_row (userId task_id : string) (f : UpdateTaskInput)
  (currentTask : task) (now appended : Z) (t : task) :
  upd_is_completed f = None -> upd_order_index f = None ->
  placement (patched_row userId task_id f currentTask now appended t)
  = placement t.
Proof.
  intros Hdone Hidx.
  assert (Hreq : reorder_requested f currentTask = None).
  { unfold reorder_requested. now rewrite Hidx. }
  unfold placement, patched_row. rewrite Hreq.
  destruct (is_task task_id userId t); [|reflexivity].
  now rewrite order_index_updated_row, is_completed_updated_row,
    completed_at_updated_row, Hdone.
Qed.

(** X4. A PATCH whose body carries neither is_completed nor order_index
    opens no transaction and leaves the order_index, is_completed and
    completed_at of every row as they were. *)
Theorem field_edit_keeps_order (userId task_id : string) (b : body)
  (now : Z) (cats : list category) (tbl : list task) :
  b_is_completed b = None -> b_order_index b = None ->
  pending (snd (update_task userId task_id b now (idle cats tbl))) = None /\
  map placement
    (committed (snd (update_task userId task_id b now (idle cats tbl))))
  = map placement tbl.
Proof.
  intros Hdone Hidx. rewrite update_task_run.
  destruct (updateTaskInputSchema b) as [f|] eqn:Hparse; [|now split].
  apply (schema_is_completed_absent b f Hparse) in Hdone.
  apply (schema_order_index_absent b f Hparse) in Hidx.
  cbn [view idle pending committed].
  destruct (filter (is_task task_id userId) tbl) as [|cur rest];
    [now split|].
  cbn zeta. destruct (category_missing userId f _); [now split|].
  assert (Hreq : reorder_requested f cur = None).
  { unfold reorder_requested. now rewrite Hidx. }
  rewrite Hreq. unfold patched_conn. rewrite Hreq.
  destruct (taskSchema _);
    cbn [snd write idle pending committed view rollback_conn];
    (split; [reflexivity|]);
    rewrite patched_rows, map_map; apply map_ext; intros t;
    now apply placement_patched_row.
Qed.

Lemma field_edit_keeps_order_witness :
  pending (snd (update_task "u" "B" (with_key_title "Buy oat milk" no_keys)
                  1679100000000 (idle [] abc_d))) = None /\
  map placement
    (committed (snd (update_task "u" "B"
                       (with_key_title "Buy oat milk" no_keys)
                       1679100000000 (idle [] abc_d))))
  = map placement abc_d.
Proof.
  apply (field_edit_keeps_order "u" "B"
           (with_key_title "Buy oat milk" no_keys) 1679100000000 [] abc_d);
    reflexivity.
Defined.

(** ** Invariants of the stored rows *)

Ltac frame_more_columns :=
  unfold updated_row;
  cbn [with_updated_at category_id title description priority due_date_at];
  repeat (rewrite set_if_keeps by (intros; reflexivity)).

Lemma completion_row_keeps {B : Type} (proj : task -> B)
  (f : UpdateTaskInput) (currentTask : task) (now appended : Z) (t : task) :
  (forall v x, proj (with_is_completed v x) = proj x) ->
  (forall v x, proj (with_completed_at v x) = proj x) ->
  (forall v x, proj (with_order_index v x) = proj x) ->
  proj (completion_row f currentTask now appended t) = proj t.
Proof.
  intros H1 H2 H3. unfold completion_row.
  destruct (upd_is_completed f) as [[|]|], (is_completed currentTask);
    now rewrite ?H3, ?H2, ?H1.
Qed.

Lemma category_id_updated_row (f : UpdateTaskInput) (currentTask : task)
  (now appended : Z) (moved : option Z) (t : task) :
  category_id (updated_row f currentTask now appended moved t) =
  match upd_category_id f with
  | Some category_id => category_id
  | None => category_id t
  end.
Proof.
  unfold updated_row. cbn [with_updated_at category_id].
  destruct (upd_category_id f) as [cid|]; cbn [set_if];
    [reflexivity|].
  rewrite set_if_keeps by (intros; reflexivity).
  rewrite completion_row_keeps by (intros; reflexivity).
  now repeat (rewrite set_if_keeps by (intros; reflexivity)).
Qed.

Lemma title_updated_row (f : UpdateTaskInput) (currentTask : task)
  (now appended : Z) (moved : option Z) (t : task) :
  title (updated_row f currentTask now appended moved t) =
  match upd_title f with
  | Some s => s
  | None => title t
  end.
Proof.
  unfold updated_row. cbn [with_updated_at title].
  do 2 (rewrite set_if_keeps by (intros; reflexivity)).
  rewrite completion_row_keeps by (intros; reflexivity).
  do 3 (rewrite set_if_keeps by (intros; reflexivity)).
  destruct (upd_title f); reflexivity.
Qed.

Lemma description_updated_row (f : UpdateTaskInput) (currentTask : task)
  (now appended : Z) (moved : option Z) (t : task) :
  description (updated_row f currentTask now appended moved t) =
  match upd_description f with
  | Some d => d
  | None => description t
  end.
Proof.
  unfold updated_row. cbn [with_updated_at description].
  do 2 (rewrite set_if_keeps by (intros; reflexivity)).
  rewrite completion_row_keeps by (intros; reflexivity).
  do 2 (rewrite set_if_keeps by (intros; reflexivity)).
  destruct (upd_description f); cbn [set_if]; [reflexivity|].
  now rewrite set_if_keeps by (intros; reflexivity).
Qed.

Lemma priority_updated_row (f : UpdateTaskInput) (currentTask : task)
  (now appended : Z) (moved : option Z) (t : task) :
  priority (updated_row f currentTask now appended moved t) =
  match upd_priority f with
  | Some p => p
  | None => priority t
  end.
Proof.
  unfold updated_row. cbn [with_updated_at priority].
  do 2 (rewrite set_if_keeps by (intros; reflexivity)).
  rewrite completion_row_keeps by (intros; reflexivity).
  destruct (upd_priority f); cbn [set_if]; [reflexivity|].
  now repeat (rewrite set_if_keeps by (intros; reflexivity)).
Qed.

(** A property of single rows that reindexing keeps and that the updated
    row of an accepted PATCH has is kept by deletions and updates. *)
Lemma Forall_deleted (P : task -> Prop) (userId task_id : string)
  (gone : task) (tbl : list task) :
  (forall n t, P t -> P (with_order_index n t)) ->
  Forall P tbl -> Forall P (deleted userId task_id gone tbl).
Proof.
  intros Hidx H. unfold deleted. apply Forall_map.
  apply Forall_forall. intros t Ht. apply Hidx.
  apply filter_In in Ht as [Ht _].
  now apply (proj1 (Forall_forall P tbl) H).
Qed.

Lemma Forall_patched (P : task -> Prop) (userId task_id : string)
  (f : UpdateTaskInput) (currentTask : task) (now : Z) (tbl : list task) :
  (forall n t, P t -> P (with_order_index n t)) ->
  (forall appended moved t,
      is_task task_id userId t = true -> P t ->
      P (updated_row f currentTask now appended moved t)) ->
  Forall P tbl -> Forall P (patched userId task_id f currentTask now tbl).
Proof.
  intros Hidx Hrow H. rewrite patched_rows. apply Forall_map.
  apply Forall_forall. intros t Ht.
  assert (HP : P t) by now apply (proj1 (Forall_forall P tbl) H).
  unfold patched_row. destruct (is_task task_id userId t) eqn:Htask.
  - now apply Hrow.
  - destruct (reorder_requested f currentTask); [now apply Hidx|exact HP].
Qed.

Lemma select_category_found (category_id userId : string)
  (cats : list category) (k : category) (rest : list category) :
  select_category category_id userId cats = k :: rest ->
  In k cats /\ cat_id k = category_id /\ cat_user_id k = userId.
Proof.
  intros H.
  assert (Hin : In k (select_category category_id userId cats)).
  { rewrite H. now left. }
  apply filter_In in Hin as [Hin Hk]. apply andb_prop in Hk as [H1 H2].
  now apply String.eqb_eq in H1, H2.
Qed.

Lemma category_owned_updated_row (userId task_id : string)
  (f : UpdateTaskInput) (currentTask : task) (now appended : Z)
  (moved : option Z) (c : conn) (t : task) :
  category_missing userId f c = false ->
  is_task task_id userId t = true ->
  category_owned (categories c) t ->
  category_owned (categories c)
    (updated_row f currentTask now appended moved t).
Proof.
  unfold category_missing, category_owned. intros Hcat Ht Hown.
  rewrite category_id_updated_row, user_id_updated_row.
  apply is_task_id in Ht as [_ Hu].
  destruct (upd_category_id f) as [[cid|]|]; [|exact I|exact Hown].
  destruct (select_category cid userId (categories c)) as [|k rest] eqn:Hsel;
    [discriminate|].
  apply select_category_found in Hsel as (Hin & Hid & Hown').
  exists k. repeat split; congruence.
Qed.

Lemma references_owned_view (c : conn) :
  references_owned c -> Forall (category_owned (categories c)) (view c).
Proof.
  unfold references_owned, categories, view.
  destruct (pending c) as [[pcats p]|]; tauto.
Qed.

Lemma references_owned_rollback (c : conn) :
  references_owned c -> references_owned (rollback_conn c).
Proof. unfold references_owned. cbn. tauto. Qed.

Lemma references_owned_write (tbl : list task) (c : conn) :
  references_owned c ->
  Forall (category_owned (categories c)) tbl ->
  references_owned (write tbl c).
Proof.
  unfold references_owned, write, categories.
  destruct (pending c) as [[pcats p]|]; cbn; tauto.
Qed.

Lemma references_owned_patched (userId task_id : string)
  (f : UpdateTaskInput) (currentTask : task) (now : Z) (c : conn) :
  category_missing userId f c = false ->
  references_owned c ->
  Forall (category_owned (categories c))
    (patched userId task_id f currentTask now (view c)).
Proof.
  intros Hcat Hc.
  apply Forall_patched; [now intros| |now apply references_owned_view].
  intros appended moved t Ht Hown.
  now apply (category_owned_updated_row userId task_id).
Qed.

Lemma references_owned_patched_conn (userId task_id : string)
  (f : UpdateTaskInput) (currentTask : task) (now : Z) (c : conn) :
  category_missing userId f c = false ->
  references_owned c ->
  references_owned (patched_conn userId task_id f currentTask now c).
Proof.
  intros Hcat Hc.
  pose proof (references_owned_patched userId task_id f currentTask now c
                Hcat Hc) as Hrows.
  unfold patched_conn.
  destruct (reorder_requested f currentTask).
  - split; [apply Hc | exact Hrows].
  - now apply references_owned_write.
Qed.

Lemma references_owned_handled (r : request) (c c' : conn) :
  handled r c c' -> references_owned c -> references_owned c'.
Proof.
  intros [| | tid gone rest _ _ | tid b now f cur rest _ _ _ Hcat
          | tid b now f cur rest _ _ _ Hcat] Hc.
  - exact Hc.
  - now apply references_owned_rollback.
  - split; [|exact I]. cbn [committed committed_categories].
    apply Forall_deleted; [now intros|].
    now apply references_owned_view.
  - now apply references_owned_patched_conn.
  - apply references_owned_rollback.
    now apply references_owned_patched_conn.
Qed.

Lemma categories_among_handled (r : request) (c0 c c' : conn) :
  handled r c c' -> categories_among c0 c -> categories_among c0 c'.
Proof.
  intros H [Hread Hcommitted].
  destruct (categories_handled r c c' H) as [E1 | E1];
    destruct (committed_categories_handled r c c' H) as [E2 | E2];
    split; rewrite ?E1, ?E2; assumption.
Qed.

(** X5. Invariant I4 under the task requests. If every category reference
    of a stored task is one to a category of the owner of the task, in
    the committed tables and in the tables of the open transaction, this
    is so after every sequence of create, update and delete requests. The
    requests write no category: the categories that the connection reads
    afterwards, and those that are committed afterwards, are those it
    read or those that were committed at the start, as the requests
    commit or roll back a transaction that was open. *)
Theorem category_ownership_preserved (rs : list request) (c : conn) :
  references_owned c ->
  references_owned (run rs c) /\ categories_among c (run rs c).
Proof.
  intros Hc.
  apply (both_run
           (fun c' => references_owned c' /\ categories_among c c')
           (fun _ => True)).
  - intros r c' _ [Hown Hcats].
    pose proof (handle_handled r c') as H. split.
    + now apply (references_owned_handled r c').
    + now apply (categories_among_handled r c c').
  - apply Forall_forall. now intros.
  - split; [exact Hc|]. split; [now left | now right].
Qed.

(** A category made and given to the task B inside a transaction that is
    still open; the requests edit B and then roll the transaction back. *)
Lemma category_ownership_preserved_witness :
  references_owned
    (mkConn [] abc_d
       (Some ([mkCategory "K" "u"],
              [ sample "A" "u" false None 0;
                with_category_id (Some "K") (sample "B" "u" false None 1) ])))
  /\
  references_owned
    (run [PATCH_task "u" "B" (with_key_title "Buy oat milk" no_keys)
            1679100000000;
          DELETE_task "u" "Z"]
       (mkConn [] abc_d
          (Some ([mkCategory "K" "u"],
                 [ sample "A" "u" false None 0;
                   with_category_id (Some "K")
                     (sample "B" "u" false None 1) ])))).
Proof.
  assert (H : references_owned
    (mkConn [] abc_d
       (Some ([mkCategory "K" "u"],
              [ sample "A" "u" false None 0;
                with_category_id (Some "K")
                  (sample "B" "u" false None 1) ])))).
  { split; cbn.
    - repeat constructor.
    - repeat constructor. exists (mkCategory "K" "u"). cbn. tauto. }
  split; [exact H|].
  apply (category_ownership_preserved
           [PATCH_task "u" "B" (with_key_title "Buy oat milk" no_keys)
              1679100000000;
            DELETE_task "u" "Z"] _ H).
Defined.

Lemma select_category_none (category_id userId : string)
  (cats : list category) :
  (forall k, In k cats -> cat_id k = category_id ->
             cat_user_id k <> userId) ->
  select_category category_id userId cats = [].
Proof.
  intros Hnone. apply filter_none. intros k Hk.
  destruct (String.eqb_spec (cat_id k) category_id) as [Hid|];
    [|reflexivity].
  cbn. apply String.eqb_neq. now apply Hnone.
Qed.

Lemma update_task_category_missing (userId task_id category_id : string)
  (b : body) (f : UpdateTaskInput) (now : Z) (c : conn)
  (currentTask : task) (rest : list task) :
  updateTaskInputSchema b = Some f ->
  upd_category_id f = Some (Some category_id) ->
  filter (is_task task_id userId) (view c) = currentTask :: rest ->
  select_category category_id userId (categories c) = [] ->
  update_task userId task_id b now c = (Failure 400 CategoryNotFound, c).
Proof.
  intros Hparse Hcid Hcur Hsel.
  rewrite update_task_run, Hparse, Hcur. cbn zeta.
  unfold category_missing. now rewrite Hcid, Hsel.
Qed.

(** X6. A PATCH that names a category which is not one of the caller's
    (unknown, or of another user) is answered 400 "Category not found"
    and writes nothing, whatever else the body asks for. *)
Theorem foreign_category_refused (userId task_id category_id : string)
  (b : body) (f : UpdateTaskInput) (now : Z) (c : conn)
  (currentTask : task) (rest : list task) :
  updateTaskInputSchema b = Some f ->
  upd_category_id f = Some (Some category_id) ->
  filter (is_task task_id userId) (view c) = currentTask :: rest ->
  (forall k, In k (categories c) -> cat_id k = category_id ->
             cat_user_id k <> userId) ->
  update_task userId task_id b now c = (Failure 400 CategoryNotFound, c).
Proof.
  intros Hparse Hcid Hcur Hnone.
  apply (update_task_category_missing userId task_id category_id b f now c
           currentTask rest); try assumption.
  now apply select_category_none.
Qed.

Lemma foreign_category_refused_witness :
  update_task "u" "B"
    (mkBody (Some (JStr "K")) None None DAbsent None (Some (JBool true))
       DAbsent None) 1679100000000 (idle [mkCategory "K" "v"] abc_d)
  = (Failure 400 CategoryNotFound, idle [mkCategory "K" "v"] abc_d).
Proof.
  apply (foreign_category_refused "u" "B" "K"
           (mkBody (Some (JStr "K")) None None DAbsent None (Some (JBool true))
              DAbsent None)
           (mkUpdateTaskInput (Some (Some "K")) None None None None
              (Some true) None None)
           1679100000000 (idle [mkCategory "K" "v"] abc_d)
           (sample "B" "u" false None 1) []); try reflexivity.
  intros k Hk _. cbn in Hk. destruct Hk as [<-|[]]. discriminate.
Defined.

(** ** The bounds of the schema *)

Lemma z_string_bounds (lo : nat) (hi : option nat) (j : json) (s : string) :
  z_string lo hi j = Some s ->
  (lo <= String.length s)%nat /\
  match hi with
  | Some h => (String.length s <= h)%nat
  | None => True
  end.
Proof.
  unfold z_string. destruct j as [| | | |x|]; try discriminate.
  destruct (Nat.leb lo (String.length x)) eqn:Hlo; [|discriminate].
  cbn [andb]. apply Nat.leb_le in Hlo.
  destruct hi as [h|].
  - destruct (Nat.leb (String.length x) h) eqn:Hhi; [|discriminate].
    apply Nat.leb_le in Hhi. intros [= <-]. now split.
  - intros [= <-]. now split.
Qed.

Lemma z_priority_enum (j : json) (s : string) :
  z_priority j = Some s -> s = "low" \/ s = "medium" \/ s = "high".
Proof.
  unfold z_priority. destruct j as [| | | |x|]; try discriminate.
  destruct (String.eqb_spec x "low") as [->|_];
    [intros [= <-]; now left|].
  destruct (String.eqb_spec x "medium") as [->|_];
    [intros [= <-]; right; now left|].
  destruct (String.eqb_spec x "high") as [->|_];
    [intros [= <-]; right; now right|].
  discriminate.
Qed.

Lemma z_optional_some {A : Type} (p : json -> option A) (o : option json)
  (x : A) :
  z_optional p o = Some (Some x) -> exists j, p j = Some x.
Proof.
  unfold z_optional. destruct o as [j|]; [|discriminate].
  destruct (p j) as [y|] eqn:Hp; [|discriminate].
  intros [= <-]. now exists j.
Qed.

Lemma z_nullable_some {A : Type} (p : json -> option A) (j : json) (x : A) :
  z_nullable p j = Some (Some x) -> p j = Some x.
Proof.
  unfold z_nullable. destruct j; try discriminate;
    (destruct (p _); [|discriminate]); now intros [= <-].
Qed.

Lemma updateTaskInputSchema_bounds (b : body) (f : UpdateTaskInput) :
  updateTaskInputSchema b = Some f ->
  match upd_title f with
  | Some s => (1 <= String.length s <= 255)%nat
  | None => True
  end /\
  match upd_description f with
  | Some (Some d) => (String.length d <= 5000)%nat
  | _ => True
  end /\
  match upd_priority f with
  | Some p => p = "low" \/ p = "medium" \/ p = "high"
  | None => True
  end.
Proof.
  unfold updateTaskInputSchema. intros Hf.
  destruct (z_optional _ (b_category_id b)); [|discriminate].
  destruct (z_optional _ (b_title b)) as [t|] eqn:Ht; [|discriminate].
  destruct (z_optional _ (b_description b)) as [d|] eqn:Hd; [|discriminate].
  destruct (z_date (b_due_date_at b)); [|discriminate].
  destruct (z_optional _ (b_priority b)) as [p|] eqn:Hp; [|discriminate].
  destruct (z_optional _ (b_is_completed b)); [|discriminate].
  destruct (z_date (b_completed_at b)); [|discriminate].
  destruct (z_optional _ (b_order_index b)); [|discriminate].
  injection Hf as <-.
  cbn [upd_title upd_description upd_priority]. split; [|split].
  - destruct t as [s|]; [|exact I].
    apply z_optional_some in Ht as [j Hj]. now apply z_string_bounds in Hj.
  - destruct d as [[s|]|]; try exact I.
    apply z_optional_some in Hd as [j Hj]. apply z_nullable_some in Hj.
    now apply z_string_bounds in Hj.
  - destruct p as [s|]; [|exact I].
    apply z_optional_some in Hp as [j Hj]. now apply z_priority_enum in Hj.
Qed.

Lemma within_schema_updated_row (b : body) (f : UpdateTaskInput)
  (currentTask : task) (now appended : Z) (moved : option Z) (t : task) :
  updateTaskInputSchema b = Some f ->
  within_schema t ->
  within_schema (updated_row f currentTask now appended moved t).
Proof.
  intros Hparse (Ht & Hd & Hp).
  apply updateTaskInputSchema_bounds in Hparse as (Bt & Bd & Bp).
  unfold within_schema.
  rewrite title_updated_row, description_updated_row, priority_updated_row.
  split; [|split].
  - destruct (upd_title f); [exact Bt | exact Ht].
  - destruct (upd_description f) as [[d|]|]; [exact Bd|exact I|exact Hd].
  - destruct (upd_priority f); [exact Bp | exact Hp].
Qed.

(** X7. The bounds of the schema are an invariant of the stored rows: if
    every title has 1 to 255 characters, every description at most 5000
    and every priority is low, medium or high, this is so after every
    sequence of create, update and delete requests. *)
Theorem schema_bounds_preserved (rs : list request) (c : conn) :
  both (Forall within_schema) c ->
  both (Forall within_schema) (run rs c).
Proof.
  intros Hc.
  apply (both_run (both (Forall within_schema)) (fun _ => True)).
  - intros r c' _ Hin.
    apply (both_handled _ r c'); [| |apply handle_handled|exact Hin].
    + intros tid gone rest T _ HT. now apply Forall_deleted.
    + intros tid b f cur rest now Hparse _ _ HT.
      apply Forall_patched; [now intros| |exact HT].
      intros appended moved t _ Ht.
      now apply (within_schema_updated_row b).
  - apply Forall_forall. now intros.
  - exact Hc.
Qed.

Lemma schema_bounds_preserved_witness :
  both (Forall within_schema) (run sample_requests (idle [] abc_d)).
Proof.
  apply (schema_bounds_preserved sample_requests (idle [] abc_d)).
  split; [|exact I].
  repeat constructor; cbn; try lia; right; now left.
Defined.

(** ** How requests compose *)

Lemma new_category_missing_categories (userId : string)
  (input : CreateTaskInput) (c c' : conn) :
  categories c = categories c' ->
  new_category_missing userId input c = new_category_missing userId input c'.
Proof. intros H. unfold new_category_missing. now rewrite H. Qed.

(** X8. An accepted reorder does not survive the next create request on
    the connection: the reorder is answered 200 but left in an open
    transaction, and the create request (which always fails) sends
    ROLLBACK, after which the table is the one from before the reorder. *)
Theorem reorder_discarded_by_create (userId task_id : string) (b : body)
  (now : Z) (cats : list category) (tbl : list task)
  (f : UpdateTaskInput) (currentTask : task) (rest : list task)
  (newIndex : Z) (row : task)
  (creator : string) (b' : body) (taskId : string) (now' : Z) :
  updateTaskInputSchema b = Some f ->
  filter (is_task task_id userId) tbl = currentTask :: rest ->
  reorder_requested f currentTask = Some newIndex ->
  fst (update_task userId task_id b now (idle cats tbl)) = Json 200 row ->
  (forall input, createTaskInputSchema b' = Some input ->
                 new_category_missing creator input (idle cats tbl) = false) ->
  order_index row = newIndex /\
  run [PATCH_task userId task_id b now; POST_tasks creator b' taskId now']
    (idle cats tbl)
  = idle cats tbl.
Proof.
  intros Hparse Hcur Hreq Hok Hcat.
  apply update_task_accepted in Hok
    as (f' & cur & rest' & Hparse' & Hcur' & _ & Hrow & Hconn).
  cbn [view idle pending committed] in Hcur'.
  rewrite Hparse in Hparse'. injection Hparse' as <-.
  rewrite Hcur in Hcur'. injection Hcur' as <- <-.
  split.
  { now rewrite Hrow, order_index_updated_row, Hreq. }
  cbn [run handle]. rewrite Hconn, create_task_run.
  unfold patched_conn. rewrite Hreq.
  destruct (createTaskInputSchema b') as [input|] eqn:Hinput;
    [|reflexivity].
  rewrite (new_category_missing_categories creator input _ (idle cats tbl))
    by reflexivity.
  now rewrite (Hcat input eq_refl).
Qed.

Lemma reorder_discarded_by_create_witness :
  order_index (sample "C" "u" false None 0) = 0 /\
  run [PATCH_task "u" "C" (with_key_order_index 0 no_keys) 1679100000001;
       POST_tasks "u"
         (with_key_order_index 0 (with_key_title "Buy milk" no_keys))
         "N" 1679100000002]
    (idle [] abc_d)
  = idle [] abc_d.
Proof.
  apply (reorder_discarded_by_create "u" "C"
           (with_key_order_index 0 no_keys) 1679100000001 [] abc_d
           (mkUpdateTaskInput None None None None None None None (Some 0))
           (sample "C" "u" false None 2) [] 0
           (mkTask "C" "u" None "C" None None "medium" false None 0
              1678886600000 1679100000001)
           "u" (with_key_order_index 0 (with_key_title "Buy milk" no_keys))
           "N" 1679100000002); try reflexivity.
  intros input [= <-]. reflexivity.
Defined.

(** X9. What becomes of an accepted reorder at the next DELETE on the
    connection: a DELETE that finds no task of its caller with the id
    answers 404 and rolls the reorder back; a DELETE that finds its task
    commits the reorder together with the deletion. *)
Theorem reorder_settled_by_delete (userId task_id : string) (b : body)
  (now : Z) (cats : list category) (tbl : list task)
  (f : UpdateTaskInput) (currentTask : task) (rest : list task)
  (newIndex : Z) (row : task) (caller other_id : string) :
  updateTaskInputSchema b = Some f ->
  filter (is_task task_id userId) tbl = currentTask :: rest ->
  reorder_requested f currentTask = Some newIndex ->
  fst (update_task userId task_id b now (idle cats tbl)) = Json 200 row ->
  run [PATCH_task userId task_id b now; DELETE_task caller other_id]
    (idle cats tbl)
  = match filter (is_task other_id caller) tbl with
    | [] => idle cats tbl
    | gone :: _ =>
        idle cats
          (deleted caller other_id
             (patched_row userId task_id f currentTask now
                (or_minus_one (select_max_order_index userId tbl) + 1) gone)
             (patched userId task_id f currentTask now tbl))
    end.
Proof.
  intros Hparse Hcur Hreq Hok.
  apply update_task_accepted in Hok
    as (f' & cur & rest' & Hparse' & Hcur' & _ & _ & Hconn).
  cbn [view idle pending committed] in Hcur'.
  rewrite Hparse in Hparse'. injection Hparse' as <-.
  rewrite Hcur in Hcur'. injection Hcur' as <- <-.
  cbn [run handle]. rewrite Hconn, delete_task_run, view_patched_conn.
  cbn [view idle pending committed].
  rewrite filter_map_same by (intros; apply is_task_patched_row).
  rewrite <- patched_rows.
  destruct (filter (is_task other_id caller) tbl) as [|gone others];
    cbn [map]; unfold patched_conn; rewrite Hreq; reflexivity.
Qed.

Lemma reorder_settled_by_delete_witness :
  run [PATCH_task "u" "C" (with_key_order_index 0 no_keys) 1679100000001;
       DELETE_task "u" "D"]
    (idle [] abc_d)
  = idle []
      [ sample "A" "u" false None 1;
        sample "B" "u" false None 2;
        mkTask "C" "u" None "C" None None "medium" false None 0
          1678886600000 1679100000001 ].
Proof.
  apply (reorder_settled_by_delete "u" "C"
           (with_key_order_index 0 no_keys) 1679100000001 [] abc_d
           (mkUpdateTaskInput None None None None None None None (Some 0))
           (sample "C" "u" false None 2) [] 0
           (mkTask "C" "u" None "C" None None "medium" false None 0
              1678886600000 1679100000001)
           "u" "D"); reflexivity.
Defined.

Lemma answer_row_stored (userId task_id : string) (b : body)
  (now : Z) (c : conn) (row : task) :
  fst (update_task userId task_id b now c) = Json 200 row ->
  In row (view (snd (update_task userId task_id b now c))).
Proof.
  intros Hok.
  apply update_task_accepted in Hok
    as (f & cur & rest & _ & Hcur & _ & Hrow & Hconn).
  apply current_task_in in Hcur as [Hin Htask].
  rewrite Hconn, view_patched_conn.
  apply in_map_iff. exists cur. split; [|exact Hin].
  unfold patched_row. now rewrite Htask.
Qed.

(** X10. The row of a 200 answer of PATCH is a row of the table as the
    handler leaves it: it carries the id and the owner of the request and
    the time of the request as updated_at. *)
Theorem patch_answer_is_stored (userId task_id : string) (b : body)
  (now : Z) (c : conn) (row : task) :
  fst (update_task userId task_id b now c) = Json 200 row ->
  In row (view (snd (update_task userId task_id b now c))) /\
  id row = task_id /\ user_id row = userId /\ updated_at row = now.
Proof.
  intros Hok.
  apply update_task_accepted in Hok
    as (f & cur & rest & _ & Hcur & _ & Hrow & Hconn).
  apply current_task_in in Hcur as [Hin Htask].
  rewrite Hconn, view_patched_conn. split.
  - apply in_map_iff. exists cur. split; [|exact Hin].
    unfold patched_row. now rewrite Htask.
  - apply is_task_id in Htask as [Hid Hu].
    rewrite Hrow, id_updated_row, user_id_updated_row. now repeat split.
Qed.

Lemma patch_answer_is_stored_witness :
  In (mkTask "B" "u" None "Buy oat milk" None None "medium" false None 1
        1678886600000 1679100000000)
    (view (snd (update_task "u" "B" (with_key_title "Buy oat milk" no_keys)
                  1679100000000 (idle [] abc_d)))) /\
  id (mkTask "B" "u" None "Buy oat milk" None None "medium" false None 1
        1678886600000 1679100000000) = "B" /\
  user_id (mkTask "B" "u" None "Buy oat milk" None None "medium" false None 1
             1678886600000 1679100000000) = "u" /\
  updated_at (mkTask "B" "u" None "Buy oat milk" None None "medium" false
                None 1 1678886600000 1679100000000) = 1679100000000.
Proof.
  apply (patch_answer_is_stored "u" "B"
           (with_key_title "Buy oat milk" no_keys) 1679100000000
           (idle [] abc_d)).
  reflexivity.
Defined.

Lemma filter_is_task_deleted (userId task_id : string) (gone : task)
  (tbl : list task) :
  filter (is_task task_id userId) (deleted userId task_id gone tbl) = [].
Proof.
  apply filter_none. intros t Ht. unfold deleted in Ht.
  apply in_map_iff in Ht as [x [<- Hx]].
  apply filter_In in Hx as [_ Hx]. rewrite is_task_with_order_index.
  now apply negb_true_iff in Hx.
Qed.

(** X11. Deleting is idempotent up to the answer: after a DELETE of a task
    id, whatever its answer was, a second DELETE of the same id by the same
    user is answered 404 and changes nothing, and a PATCH of that id is
    answered 404, or 400 if its body is invalid, and changes nothing. *)
Theorem delete_twice_not_found (userId task_id : string)
  (cats : list category) (tbl : list task) (b : body) (now : Z) :
  delete_task userId task_id
    (snd (delete_task userId task_id (idle cats tbl)))
  = (Failure 404 TaskNotFound,
     snd (delete_task userId task_id (idle cats tbl))) /\
  update_task userId task_id b now
    (snd (delete_task userId task_id (idle cats tbl)))
  = (match updateTaskInputSchema b with
     | Some _ => Failure 404 TaskNotFound
     | None => Failure 400 ValidationError
     end,
     snd (delete_task userId task_id (idle cats tbl))).
Proof.
  rewrite (delete_task_run userId task_id (idle cats tbl)).
  cbn [view idle pending committed categories].
  destruct (filter (is_task task_id userId) tbl) as [|gone rest] eqn:Hsel;
    cbn [snd rollback_conn committed categories];
    rewrite delete_task_run, update_task_run;
    cbn [view idle pending committed categories rollback_conn].
  - rewrite Hsel. split; [reflexivity|].
    now destruct (updateTaskInputSchema b).
  - rewrite filter_is_task_deleted. split; [reflexivity|].
    now destruct (updateTaskInputSchema b).
Qed.

(** ** Completing a task twice *)

Lemma schema_is_completed (b : body) (f : UpdateTaskInput) (done : bool) :
  updateTaskInputSchema b = Some f ->
  b_is_completed b = Some (JBool done) ->
  upd_is_completed f = Some done.
Proof.
  unfold updateTaskInputSchema. intros Hf Hb. rewrite Hb in Hf.
  cbn [z_optional z_boolean option_map] in Hf.
  destruct (z_optional _ (b_category_id b)); [|discriminate].
  destruct (z_optional _ (b_title b)); [|discriminate].
  destruct (z_optional _ (b_description b)); [|discriminate].
  destruct (z_date (b_due_date_at b)); [|discriminate].
  destruct (z_optional _ (b_priority b)); [|discriminate].
  destruct (z_date (b_completed_at b)); [|discriminate].
  destruct (z_optional _ (b_order_index b)); [|discriminate].
  now injection Hf as <-.
Qed.

Lemma no_reorder_on_completion (f : UpdateTaskInput) (currentTask : task) :
  upd_is_completed f = Some true -> reorder_requested f currentTask = None.
Proof.
  intros H. unfold reorder_requested. rewrite H.
  destruct (upd_order_index f); [|reflexivity].
  now rewrite andb_false_r.
Qed.

(** X12. Completing a task that is already completed keeps the time of its
    first completion: of two accepted PATCH requests with is_completed
    true on an incomplete task, the first stores its own time as
    completed_at and the second leaves that value, whatever completed_at
    the bodies carry. *)
Theorem completed_twice_keeps_first_time (userId task_id : string)
  (b1 b2 : body) (now1 now2 : Z) (cats : list category) (tbl : list task)
  (currentTask : task) (rest : list task) (row1 row2 : task) :
  filter (is_task task_id userId) tbl = currentTask :: rest ->
  is_completed currentTask = false ->
  b_is_completed b1 = Some (JBool true) ->
  b_is_completed b2 = Some (JBool true) ->
  fst (update_task userId task_id b1 now1 (idle cats tbl)) = Json 200 row1 ->
  fst (update_task userId task_id b2 now2
         (snd (update_task userId task_id b1 now1 (idle cats tbl))))
  = Json 200 row2 ->
  completed_at row1 = Some now1 /\
  is_completed row2 = true /\ completed_at row2 = Some now1.
Proof.
  intros Hcur Hopen Hb1 Hb2 H1 H2.
  apply update_task_accepted in H1
    as (f1 & cur1 & rest1 & Hparse1 & Hcur1 & _ & Hrow1 & Hconn1).
  cbn [view idle pending committed] in Hcur1.
  rewrite Hcur in Hcur1. injection Hcur1 as <- <-.
  assert (Hf1 := schema_is_completed b1 f1 true Hparse1 Hb1).
  assert (Hreq1 := no_reorder_on_completion f1 currentTask Hf1).
  rewrite Hreq1 in Hrow1. cbn [view idle pending committed] in Hrow1.
  assert (Hat1 : completed_at row1 = Some now1).
  { now rewrite Hrow1, completed_at_updated_row, Hf1, Hopen. }
  assert (Hdone1 : is_completed row1 = true).
  { now rewrite Hrow1, is_completed_updated_row, Hf1. }
  split; [exact Hat1|].
  rewrite Hconn1 in H2.
  apply update_task_accepted in H2
    as (f2 & cur2 & rest2 & Hparse2 & Hcur2 & _ & Hrow2 & _).
  rewrite view_patched_conn in Hcur2.
  cbn [view idle pending committed] in Hcur2.
  rewrite filter_map_same in Hcur2 by (intros; apply is_task_patched_row).
  rewrite Hcur in Hcur2. cbn [map] in Hcur2.
  injection Hcur2 as Hcur2 _.
  assert (Htask : is_task task_id userId currentTask = true).
  { now apply (current_task_in task_id userId tbl currentTask rest). }
  unfold patched_row in Hcur2. rewrite Htask, Hreq1, <- Hrow1 in Hcur2.
  subst cur2.
  assert (Hf2 := schema_is_completed b2 f2 true Hparse2 Hb2).
  rewrite Hrow2, is_completed_updated_row, completed_at_updated_row, Hf2,
    Hdone1.
  now split.
Qed.

Lemma completed_twice_keeps_first_time_witness :
  completed_at
    (mkTask "B" "u" None "B" None None "medium" true (Some 1679100000000) 1
       1678886600000 1679100000000) = Some 1679100000000 /\
  is_completed
    (mkTask "B" "u" None "B" None None "medium" true (Some 1679100000000) 1
       1678886600000 1679200000000) = true /\
  completed_at
    (mkTask "B" "u" None "B" None None "medium" true (Some 1679100000000) 1
       1678886600000 1679200000000) = Some 1679100000000.
Proof.
  apply (completed_twice_keeps_first_time "u" "B"
           (with_key_is_completed true no_keys)
           (with_key_is_completed true no_keys)
           1679100000000 1679200000000 [] abc_d
           (sample "B" "u" false None 1) []); reflexivity.
Defined.

(* ===================================================================== *)
(** * Categories *)
(* ===================================================================== *)

Lemma is_category_id (category_id userId : string) (k : category_row) :
  is_category category_id userId k = true ->
  cr_id k = category_id /\ cr_user_id k = userId.
Proof.
  unfold is_category. intros H. apply andb_prop in H as [H1 H2].
  now apply String.eqb_eq in H1, H2.
Qed.

Lemma run_categories_invariant (P : database -> Prop)
  (rs : list category_request) :
  (forall r d, P d -> P (snd (handle_category r d))) ->
  forall d, P d -> P (run_categories rs d).
Proof.
  intros Hstep. induction rs as [|r rs' IH]; intros d Hd; cbn; [exact Hd|].
  apply IH. now apply Hstep.
Qed.

Lemma handle_category_handled (r : category_request) (d : database) :
  category_handled d (snd (handle_category r d)).
Proof.
  destruct r as [u b cid now | u cid b now | u cid]; cbn [handle_category].
  - unfold create_category.
    destruct (createCategoryInputSchema b) as [name|]; [|constructor].
    destruct (select_category_named u name (db_categories d)) eqn:Hsel;
      [|constructor].
    cbn zeta. unfold insert_category.
    destruct (existsb _ (db_categories d)) eqn:Hid; [constructor|].
    cbn [snd]. now apply category_created.
  - unfold update_category.
    destruct (updateCategoryInputSchema b) as [name|]; [|constructor].
    destruct (filter (is_category cid u) (db_categories d)) as [|k0 l0] eqn:H0;
      [constructor|].
    destruct (select_other_category_named u name cid (db_categories d))
      eqn:Hsel; [|constructor].
    destruct name as [n|]; cbn [update_category_rows].
    + destruct (filter (is_category cid u) (map _ (db_categories d)));
        cbn [snd]; now apply category_renamed.
    + rewrite H0. constructor.
  - unfold delete_category. cbn zeta.
    destruct (Nat.eqb _ 0); [constructor|]. cbn [snd].
    apply category_deleted.
Qed.

(** ** Names are unique per user *)

Lemma categories_keyed_handled (d d' : database) :
  category_handled d d' ->
  categories_keyed (db_categories d) -> categories_keyed (db_categories d').
Proof.
  unfold categories_keyed.
  intros [| row Hid _ | u cid n now _ | u cid] Hk; cbn [db_categories].
  - exact Hk.
  - rewrite map_app. cbn [map].
    apply NoDup_app; [exact Hk | repeat constructor; now intros [] | ].
    intros a Ha [<-|[]].
    apply in_map_iff in Ha as [k [Hka Hk']].
    assert (Hex : existsb (fun k => String.eqb (cr_id k) (cr_id row))
                    (db_categories d) = true).
    { apply existsb_exists. exists k. split; [exact Hk'|].
      now apply String.eqb_eq. }
    congruence.
  - rewrite map_map. erewrite map_ext; [exact Hk|].
    intros k. cbn. now destruct (is_category cid u k).
  - induction (db_categories d) as [|k l IH]; cbn; [constructor|].
    inversion Hk as [|? ? Hnot Hk']; subst.
    destruct (is_category cid u k); cbn; [now apply IH|].
    constructor; [|now apply IH].
    intros Hin. apply Hnot. apply in_map_iff in Hin as [x [Hx Hin]].
    apply filter_In in Hin as [Hin _]. rewrite <- Hx. now apply in_map.
Qed.

Lemma select_other_none (userId name category_id : string)
  (cats : list category_row) (k : category_row) :
  select_other_category_named userId (Some name) category_id cats = [] ->
  In k cats -> cr_user_id k = userId -> cr_name k = name ->
  cr_id k = category_id.
Proof.
  unfold select_other_category_named. intros Hsel Hin Hu Hn.
  destruct (String.eqb_spec (cr_id k) category_id) as [|Hne];
    [assumption|].
  assert (Hk : In k (filter
                       (fun k => String.eqb (cr_user_id k) userId &&
                                 String.eqb (cr_name k) name &&
                                 negb (String.eqb (cr_id k) category_id))
                       cats)).
  { apply filter_In. split; [exact Hin|].
    rewrite Hu, Hn, !String.eqb_refl. cbn.
    apply negb_true_iff. now apply String.eqb_neq. }
  rewrite Hsel in Hk. contradiction.
Qed.

Lemma names_unique_handled (d d' : database) :
  category_handled d d' ->
  names_unique (db_categories d) -> names_unique (db_categories d').
Proof.
  unfold names_unique.
  intros [| row _ Hsel | u cid n now Hsel | u cid] Hn; cbn [db_categories].
  - exact Hn.
  - assert (Hnew : forall k, In k (db_categories d) ->
                             cr_user_id k = cr_user_id row ->
                             cr_name k = cr_name row -> False).
    { intros k Hin Hu Hname.
      assert (Hk : In k (select_category_named (cr_user_id row)
                           (cr_name row) (db_categories d))).
      { apply filter_In. split; [exact Hin|].
        now rewrite Hu, Hname, !String.eqb_refl. }
      rewrite Hsel in Hk. contradiction. }
    intros k k' Hk Hk' Hu Hname.
    apply in_app_or in Hk as [Hk|[<-|[]]];
      apply in_app_or in Hk' as [Hk'|[<-|[]]].
    + now apply Hn.
    + exfalso. now apply (Hnew k).
    + exfalso. now apply (Hnew k').
    + reflexivity.
  - intros k k' Hk Hk' Hu Hname.
    apply in_map_iff in Hk as [x [<- Hx]].
    apply in_map_iff in Hk' as [x' [<- Hx']].
    destruct (is_category cid u x) eqn:Hc, (is_category cid u x') eqn:Hc';
      cbn [cr_id cr_user_id cr_name] in *.
    + apply is_category_id in Hc as [Hid _].
      apply is_category_id in Hc' as [Hid' _]. congruence.
    + apply is_category_id in Hc as [Hid Hxu]. rewrite Hid.
      symmetry. apply (select_other_none u n cid _ x' Hsel Hx');
        congruence.
    + apply is_category_id in Hc' as [Hid Hxu]. rewrite Hid.
      apply (select_other_none u n cid _ x Hsel Hx); congruence.
    + now apply Hn.
  - intros k k' Hk Hk'.
    apply filter_In in Hk as [Hk _]. apply filter_In in Hk' as [Hk' _].
    now apply Hn.
Qed.

(** X13. The key and the uniqueness of names are invariants of the
    categories: if no two categories share an id and no user has two
    categories of one name, this is so after every sequence of create,
    rename and delete requests for categories. *)
Theorem category_names_stay_unique (rs : list category_request)
  (d : database) :
  categories_keyed (db_categories d) ->
  names_unique (db_categories d) ->
  categories_keyed (db_categories (run_categories rs d)) /\
  names_unique (db_categories (run_categories rs d)).
Proof.
  intros Hk Hn.
  apply (run_categories_invariant
           (fun d => categories_keyed (db_categories d) /\
                     names_unique (db_categories d))); [|now split].
  intros r d0 [Hk0 Hn0].
  assert (H := handle_category_handled r d0). split.
  - now apply (categories_keyed_handled d0).
  - now apply (names_unique_handled d0).
Qed.

Lemma category_names_stay_unique_witness :
  categories_keyed
    (db_categories (run_categories sample_category_requests sample_database))
  /\
  names_unique
    (db_categories (run_categories sample_category_requests sample_database)).
Proof.
  apply (category_names_stay_unique sample_category_requests
           sample_database).
  - repeat constructor; cbn; intuition discriminate.
  - intros k k' Hk Hk' Hu Hname. cbn in Hk, Hk'.
    destruct Hk as [<-|[<-|[<-|[]]]], Hk' as [<-|[<-|[<-|[]]]];
      try reflexivity; discriminate.
Defined.

(** ** Categories and the tasks that refer to them *)

Lemma category_owned_incl (cats cats' : list category) (t : task) :
  (forall k, In k cats -> In k cats') ->
  category_owned cats t -> category_owned cats' t.
Proof.
  unfold category_owned. intros Hincl.
  destruct (category_id t); [|trivial].
  intros (k & Hin & Hid & Hu). exists k. auto.
Qed.

Lemma categories_owned_handled (d d' : database) :
  category_handled d d' -> categories_owned d -> categories_owned d'.
Proof.
  unfold categories_owned.
  intros [| row _ _ | u cid n now _ | u cid] Hown;
    cbn [db_categories db_tasks].
  - exact Hown.
  - eapply Forall_impl; [|exact Hown].
    intros t. apply category_owned_incl. intros k Hk.
    rewrite map_app. apply in_or_app. now left.
  - rewrite map_map. erewrite map_ext; [exact Hown|].
    intros k. now destruct (is_category cid u k).
  - unfold on_delete_set_null. apply Forall_map.
    eapply Forall_impl; [|exact Hown].
    intros t. unfold category_owned.
    destruct (category_id t) as [c|] eqn:Hc; [|now rewrite Hc].
    destruct (existsb _ (filter (is_category cid u) (db_categories d)))
      eqn:Hgone; [intros _; exact I|].
    rewrite Hc. intros (k & Hin & Hid & Hu).
    exists k. repeat split; try assumption.
    apply in_map_iff in Hin as [k0 [<- Hk0]]. apply in_map.
    apply filter_In. split; [exact Hk0|].
    apply negb_true_iff.
    destruct (is_category cid u k0) eqn:Hk; [|reflexivity].
    exfalso.
    assert (Hex : existsb (fun k => String.eqb (cr_id k) c)
                    (filter (is_category cid u) (db_categories d)) = true).
    { apply existsb_exists. exists k0. split.
      - now apply filter_In.
      - apply String.eqb_eq. exact Hid. }
    congruence.
Qed.

(** X14. Invariant I4 under the category requests: if every category
    reference of a task is one to a category of the owner of the task,
    this is so after every sequence of create, rename and delete requests
    for categories; a deleted category is taken off the tasks that
    referred to it. *)
Theorem categories_owned_preserved (rs : list category_request)
  (d : database) :
  categories_owned d -> categories_owned (run_categories rs d).
Proof.
  apply (run_categories_invariant categories_owned).
  intros r d0. apply categories_owned_handled.
  apply handle_category_handled.
Qed.

Lemma categories_owned_preserved_witness :
  categories_owned (run_categories sample_category_requests sample_database).
Proof.
  apply (categories_owned_preserved sample_category_requests
           sample_database).
  repeat constructor; cbn.
  - exists (mkCategory "cat_001" "u"). cbn. intuition.
  - exists (mkCategory "cat_002" "u"). cbn. intuition.
  - exists (mkCategory "cat_003" "v"). cbn. intuition.
Defined.

Lemma Forall2_same {A : Type} (R : A -> A -> Prop) (l : list A) :
  (forall x, R x x) -> Forall2 R l l.
Proof. intros H. induction l; constructor; auto. Qed.

Lemma Forall2_chain {A : Type} (R : A -> A -> Prop) (l1 l2 l3 : list A) :
  (forall x y z, R x y -> R y z -> R x z) ->
  Forall2 R l1 l2 -> Forall2 R l2 l3 -> Forall2 R l1 l3.
Proof.
  intros Htrans H12. revert l3.
  induction H12 as [|x y l1 l2 Hxy _ IH]; intros l3 H23.
  - inversion H23. constructor.
  - inversion H23 as [|? z ? l3' Hyz H23']; subst.
    constructor; [now apply (Htrans x y z) | now apply IH].
Qed.

(** X15. The category requests neither add nor remove a task, and the
    only change they make to a task is to set its category_id to NULL:
    after every sequence of category requests each task row is the row of
    the start, or that row with category_id NULL. *)
Theorem category_requests_keep_tasks (rs : list category_request)
  (d : database) :
  Forall2 (fun t t' => t' = t \/ t' = with_category_id None t)
    (db_tasks d) (db_tasks (run_categories rs d)).
Proof.
  apply (run_categories_invariant
           (fun d' =>
              Forall2 (fun t t' => t' = t \/ t' = with_category_id None t)
                (db_tasks d) (db_tasks d'))).
  - intros r d0 H0.
    apply (Forall2_chain _ _ (db_tasks d0)); [|exact H0|].
    + intros x y z [-> | ->] [-> | ->]; auto.
    + destruct (handle_category_handled r d0)
        as [| row _ _ | u cid n now _ | u cid]; cbn [db_tasks];
        try (apply Forall2_same; now left).
      unfold on_delete_set_null. apply Forall2_map_right. intros t _.
      destruct (category_id t); [|now left].
      destruct (existsb _ _); [now right | now left].
  - apply Forall2_same. now left.
Qed.

Lemma delete_category_leaves_none (userId category_id : string)
  (d : database) :
  filter (is_category category_id userId)
    (db_categories (snd (delete_category userId category_id d))) = [].
Proof.
  unfold delete_category. cbn zeta.
  destruct (filter (is_category category_id userId) (db_categories d))
    as [|k0 l0] eqn:Hgone; cbn [length Nat.eqb snd db_categories];
    [exact Hgone|].
  apply filter_none. intros k Hk. apply filter_In in Hk as [_ Hk].
  now apply negb_true_iff in Hk.
Qed.

(** X16. DELETE of a category: when the caller has no category of that
    id the answer is 404 and nothing changes; otherwise the answer is 204,
    the caller has no category of that id left and no task refers to the
    id any more. *)
Theorem delete_category_unlinks (userId categoryId : string)
  (d : database) :
  (filter (is_category categoryId userId) (db_categories d) = [] /\
   delete_category userId categoryId d
   = (CategoryFailure 404 CategoryNotOwned, d)) \/
  (fst (delete_category userId categoryId d) = CategoryNoContent /\
   filter (is_category categoryId userId)
     (db_categories (snd (delete_category userId categoryId d))) = [] /\
   Forall (fun t => category_id t <> Some categoryId)
     (db_tasks (snd (delete_category userId categoryId d)))).
Proof.
  unfold delete_category. cbn zeta.
  destruct (filter (is_category categoryId userId) (db_categories d))
    as [|k0 l0] eqn:Hgone; [now left|].
  right. cbn [length Nat.eqb fst snd db_categories db_tasks].
  split; [reflexivity|]. split.
  - apply filter_none. intros k Hk. apply filter_In in Hk as [_ Hk].
    now apply negb_true_iff in Hk.
  - unfold on_delete_set_null. apply Forall_map. apply Forall_forall.
    intros t _. destruct (category_id t) as [c|] eqn:Hc;
      [|now rewrite Hc].
    destruct (existsb _ (k0 :: l0)) eqn:Hex; [discriminate|].
    rewrite Hc. intros [= ->].
    assert (Hk0 : In k0 (filter (is_category categoryId userId)
                           (db_categories d))).
    { rewrite Hgone. now left. }
    apply filter_In in Hk0 as [_ Hk0].
    apply is_category_id in Hk0 as [Hid _].
    cbn [existsb] in Hex. rewrite Hid, String.eqb_refl in Hex.
    discriminate.
Qed.

(** X17. A PATCH of a category whose body has no name changes nothing and
    is answered 404 when the caller has no category of that id, and 500
    otherwise: the UPDATE sets the NOT NULL column name to NULL. *)
Theorem update_category_without_name (userId category_id : string)
  (now : Z) (d : database) :
  update_category userId category_id (mkCategoryBody None) now d
  = (match filter (is_category category_id userId) (db_categories d) with
     | [] => CategoryFailure 404 CategoryNotOwned
     | _ :: _ => CategoryFailure 500 CategoryInternalError
     end, d).
Proof.
  unfold update_category. cbn.
  destruct (filter (is_category category_id userId) (db_categories d))
    as [|k0 l0] eqn:H0; reflexivity.
Qed.

Lemma filter_is_task_set_null (task_id userId : string)
  (gone : list category_row) (tbl : list task) :
  filter (is_task task_id userId) (on_delete_set_null gone tbl)
  = on_delete_set_null gone (filter (is_task task_id userId) tbl).
Proof.
  unfold on_delete_set_null. apply filter_map_same. intros t.
  destruct (category_id t); [|reflexivity].
  now destruct (existsb _ gone).
Qed.

(** X18. A deleted category cannot be given to a task: after a DELETE of
    a category id by a user, whatever its answer, a PATCH by that user of
    one of their tasks that names the id as category_id is answered 400
    "Category not found" and writes nothing. *)
Theorem deleted_category_not_assignable (userId category_id : string)
  (d : database) (task_id : string) (b : body) (f : UpdateTaskInput)
  (now : Z) (currentTask : task) (rest : list task) :
  updateTaskInputSchema b = Some f ->
  upd_category_id f = Some (Some category_id) ->
  filter (is_task task_id userId) (db_tasks d) = currentTask :: rest ->
  update_task userId task_id b now
    (connection (snd (delete_category userId category_id d)))
  = (Failure 400 CategoryNotFound,
     connection (snd (delete_category userId category_id d))).
Proof.
  intros Hparse Hcid Hcur.
  assert (Hsel : select_category category_id userId
                   (categories
                      (connection (snd (delete_category userId category_id d))))
                 = []).
  { apply select_category_none. intros k Hk Hid Hu.
    unfold connection in Hk. cbn [categories idle] in Hk.
    apply in_map_iff in Hk as [k0 [<- Hk0]].
    cbn [category_of cat_id cat_user_id] in Hid, Hu.
    assert (Hin : In k0 (filter (is_category category_id userId)
                           (db_categories
                              (snd (delete_category userId category_id d))))).
    { apply filter_In. split; [exact Hk0|].
      unfold is_category. now rewrite Hid, Hu, !String.eqb_refl. }
    rewrite delete_category_leaves_none in Hin. contradiction. }
  assert (Htask : exists cur' rest',
             filter (is_task task_id userId)
               (view (connection
                        (snd (delete_category userId category_id d))))
             = cur' :: rest').
  { unfold delete_category. cbn zeta.
    destruct (Nat.eqb _ 0); cbn [snd connection view idle pending committed
                                   db_tasks].
    - now exists currentTask, rest.
    - rewrite filter_is_task_set_null, Hcur. unfold on_delete_set_null.
      cbn [map]. eauto. }
  destruct Htask as (cur' & rest' & Hcur').
  now apply (update_task_category_missing userId task_id category_id b f now
               _ cur' rest').
Qed.

Lemma deleted_category_not_assignable_witness :
  update_task "u" "B"
    (mkBody (Some (JStr "cat_001")) None None DAbsent None None DAbsent None)
    1679100000000
    (connection (snd (delete_category "u" "cat_001" sample_database)))
  = (Failure 400 CategoryNotFound,
     connection (snd (delete_category "u" "cat_001" sample_database))).
Proof.
  apply (deleted_category_not_assignable "u" "cat_001" sample_database "B"
           (mkBody (Some (JStr "cat_001")) None None DAbsent None None
              DAbsent None)
           (mkUpdateTaskInput (Some (Some "cat_001")) None None None None
              None None None)
           1679100000000
           (with_category_id (Some "cat_002") (sample "B" "u" false None 1))
           []); reflexivity.
Defined.

(** The body of a PATCH of a task that carries a category_id only. *)
Lemma schema_category_only (category_id : string) :
  updateTaskInputSchema
    (mkBody (Some (JStr category_id)) None None DAbsent None None DAbsent
       None)
  = Some (mkUpdateTaskInput (Some (Some category_id)) None None None None
            None None None).
Proof. reflexivity. Qed.

(** X19. A category that was just created can be given to a task of its
    owner: after a POST of a category answered 201, on a connection with
    no transaction open, a PATCH by the same user of one of their tasks
    with the new id as category_id, and no other key, is answered 200
    with the row that it stores, which carries the reference, if the
    stored priority of the task is one of the schema; it is answered 400
    otherwise. *)
Theorem created_category_assignable (userId : string) (cb : category_body)
  (categoryId : string) (now : Z) (d : database) (row : category_row)
  (task_id : string) (now' : Z) (currentTask : task) (rest : list task) :
  fst (create_category userId cb categoryId now d) = CategoryJson 201 row ->
  filter (is_task task_id userId) (db_tasks d) = currentTask :: rest ->
  let answered :=
    update_task userId task_id
      (mkBody (Some (JStr categoryId)) None None DAbsent None None DAbsent
         None) now'
      (connection (snd (create_category userId cb categoryId now d))) in
  let stored :=
    with_updated_at now' (with_category_id (Some categoryId) currentTask) in
  cr_id row = categoryId /\ cr_user_id row = userId /\
  fst answered
  = (if taskSchema currentTask then Json 200 stored
     else Failure 400 ValidationError) /\
  (taskSchema currentTask = true -> In stored (view (snd answered))).
Proof.
  intros Hok Hcur answered stored.
  unfold create_category in Hok, answered.
  destruct (createCategoryInputSchema cb) as [name|]; [|discriminate].
  destruct (select_category_named userId name (db_categories d));
    [|discriminate].
  cbn zeta in *. unfold insert_category in *.
  destruct (existsb _ (db_categories d)); [discriminate|].
  cbn [fst snd] in *. injection Hok as <-.
  split; [reflexivity|]. split; [reflexivity|].
  assert (Hanswer : fst answered
                    = if taskSchema currentTask then Json 200 stored
                      else Failure 400 ValidationError).
  { unfold answered.
    rewrite update_task_run, schema_category_only.
    unfold connection.
    cbn [view idle pending committed db_tasks db_categories].
    rewrite Hcur. cbn zeta.
    unfold category_missing.
    cbn [upd_category_id categories idle pending committed_categories].
    assert (Hsel : exists k l,
               select_category categoryId userId
                 (map category_of
                    (db_categories d ++
                     [mkCategoryRow categoryId userId name now now]))
               = k :: l).
    { destruct (select_category categoryId userId _) as [|k l] eqn:Hnone;
        [|eauto].
      exfalso.
      assert (Hin : In (mkCategory categoryId userId)
                      (select_category categoryId userId
                         (map category_of
                            (db_categories d ++
                             [mkCategoryRow categoryId userId name now
                                now])))).
      { apply filter_In. split.
        - rewrite map_app. apply in_or_app. right. now left.
        - cbn. now rewrite !String.eqb_refl. }
      rewrite Hnone in Hin. contradiction. }
    destruct Hsel as (k & l & ->).
    cbn [reorder_requested upd_order_index].
    match goal with
    | |- context [taskSchema ?r] =>
        change (taskSchema r) with (taskSchema currentTask)
    end.
    destruct (taskSchema currentTask); reflexivity. }
  split; [exact Hanswer|].
  intros Hpriority. rewrite Hpriority in Hanswer.
  exact (answer_row_stored _ _ _ _ _ _ Hanswer).
Qed.

Lemma created_category_assignable_witness :
  fst (update_task "u" "B"
         (mkBody (Some (JStr "cat_005")) None None DAbsent None None DAbsent
            None) 1679100000001
         (connection
            (snd (create_category "u" (named "Health") "cat_005"
                    1679100000000 sample_database))))
  = Json 200
      (with_updated_at 1679100000001
         (with_category_id (Some "cat_005")
            (with_category_id (Some "cat_002")
               (sample "B" "u" false None 1)))) /\
  In (with_updated_at 1679100000001
        (with_category_id (Some "cat_005")
           (with_category_id (Some "cat_002")
              (sample "B" "u" false None 1))))
    (view (snd (update_task "u" "B"
                  (mkBody (Some (JStr "cat_005")) None None DAbsent None None
                     DAbsent None) 1679100000001
                  (connection
                     (snd (create_category "u" (named "Health") "cat_005"
                             1679100000000 sample_database)))))).
Proof.
  destruct (created_category_assignable "u" (named "Health") "cat_005"
              1679100000000 sample_database
              (mkCategoryRow "cat_005" "u" "Health" 1679100000000
                 1679100000000)
              "B" 1679100000001
              (with_category_id (Some "cat_002")
                 (sample "B" "u" false None 1))
              [] eq_refl eq_refl) as (_ & _ & Hanswer & Hstored).
  split; [exact Hanswer | exact (Hstored eq_refl)].
Defined.

(* ===================================================================== *)
(** * The stored order *)
(* ===================================================================== *)

(** ** Moving an element of a list *)

Lemma nth_error_take_out {A : Type} (s : nat) (l : list A) (j : nat) :
  nth_error (snd (take_out s l)) j =
  if Nat.ltb j s then nth_error l j else nth_error l (S j).
Proof.
  unfold take_out. cbn [snd].
  rewrite nth_error_app, length_firstn, nth_error_firstn, nth_error_skipn.
  destruct (Nat.ltb_spec j s) as [Hlt|Hge].
  - destruct (Nat.ltb_spec j (Nat.min s (List.length l))) as [|Hmin];
      [reflexivity|].
    transitivity (@None A); [|symmetry]; apply nth_error_None; lia.
  - destruct (Nat.ltb_spec j (Nat.min s (List.length l))) as [Hmin|Hmin];
      [lia|].
    destruct (Nat.le_gt_cases s (List.length l)) as [Hs|Hs].
    + f_equal. lia.
    + transitivity (@None A); [|symmetry]; apply nth_error_None; lia.
Qed.

Lemma nth_error_put_in {A : Type} (t : nat) (x : A) (l : list A)
  (j : nat) :
  (t <= List.length l)%nat ->
  nth_error (put_in t x l) j =
  if Nat.ltb j t then nth_error l j
  else if Nat.eqb j t then Some x
  else nth_error l (Nat.pred j).
Proof.
  intros Ht. unfold put_in.
  rewrite nth_error_app, length_firstn, nth_error_firstn.
  replace (Nat.min t (List.length l)) with t by lia.
  destruct (Nat.ltb_spec j t) as [Hlt|Hge]; [reflexivity|].
  destruct (Nat.eqb_spec j t) as [->|Hne].
  - now rewrite Nat.sub_diag.
  - destruct (j - t)%nat as [|k] eqn:Hk; [lia|].
    cbn [nth_error]. rewrite nth_error_skipn. f_equal. lia.
Qed.

Lemma nth_error_moved {A : Type} (s t : nat) (l : list A) (i : nat) :
  (s < List.length l)%nat -> (t < List.length l)%nat ->
  (i < List.length l)%nat ->
  nth_error (moved s t l) (index_after_move s t i) = nth_error l i.
Proof.
  intros Hs Ht Hi. unfold moved.
  destruct (take_out s l) as [removed rest] eqn:Hsplit.
  assert (Hrem : removed = nth_error l s) by (now inversion Hsplit).
  assert (Hrest : rest = snd (take_out s l)) by (now rewrite Hsplit).
  destruct removed as [x|];
    [|symmetry in Hrem; apply nth_error_None in Hrem; lia].
  assert (Hlen : List.length rest = (List.length l - 1)%nat).
  { rewrite Hrest. unfold take_out. cbn [snd].
    rewrite length_app, length_firstn, length_skipn. lia. }
  rewrite nth_error_put_in by lia.
  rewrite Hrest. unfold index_after_move.
  destruct (Nat.eqb_spec i s) as [->|Hne].
  - rewrite Nat.ltb_irrefl, Nat.eqb_refl. exact Hrem.
  - destruct (Nat.leb_spec t i), (Nat.ltb_spec i s); cbn [andb].
    + (* t <= i < s *)
      destruct (Nat.ltb_spec (S i) t); [lia|].
      destruct (Nat.eqb_spec (S i) t); [lia|].
      cbn [Nat.pred]. rewrite nth_error_take_out.
      destruct (Nat.ltb_spec i s); [reflexivity|lia].
    + destruct (Nat.ltb_spec s i), (Nat.leb_spec i t); cbn [andb]; try lia.
      * (* s < i = t *)
        destruct (Nat.ltb_spec (Nat.pred i) t); [|lia].
        rewrite nth_error_take_out.
        destruct (Nat.ltb_spec (Nat.pred i) s); [lia|].
        f_equal. lia.
      * (* i > s, i > t *)
        destruct (Nat.ltb_spec i t); [lia|].
        destruct (Nat.eqb_spec i t); [lia|].
        rewrite nth_error_take_out.
        destruct (Nat.ltb_spec (Nat.pred i) s); [lia|].
        f_equal. lia.
    + (* i < t, i < s *)
      destruct (Nat.ltb_spec s i); [lia|]. cbn [andb].
      destruct (Nat.ltb_spec i t); [|lia].
      rewrite nth_error_take_out.
      destruct (Nat.ltb_spec i s); [reflexivity|lia].
    + (* i < t, i >= s, i <> s *)
      destruct (Nat.ltb_spec s i); [|lia].
      destruct (Nat.leb_spec i t); [|lia]. cbn [andb].
      destruct (Nat.ltb_spec (Nat.pred i) t); [|lia].
      rewrite nth_error_take_out.
      destruct (Nat.ltb_spec (Nat.pred i) s); [lia|].
      f_equal. lia.
Qed.

Lemma length_moved {A : Type} (s t : nat) (l : list A) :
  (s < List.length l)%nat -> (t < List.length l)%nat ->
  List.length (moved s t l) = List.length l.
Proof.
  intros Hs Ht. unfold moved, take_out, put_in.
  destruct (nth_error l s) as [x|] eqn:Hx;
    [|apply nth_error_None in Hx; lia].
  rewrite length_app. cbn [List.length].
  rewrite length_firstn, length_skipn, length_app, length_firstn,
    length_skipn. lia.
Qed.

Lemma index_after_move_bound (s t n i : nat) :
  (s < n)%nat -> (t < n)%nat -> (i < n)%nat ->
  (index_after_move s t i < n)%nat.
Proof.
  intros Hs Ht Hi. unfold index_after_move.
  destruct (Nat.eqb_spec i s); [assumption|].
  destruct (Nat.leb_spec t i), (Nat.ltb_spec i s); cbn [andb]; try lia;
    destruct (Nat.ltb_spec s i), (Nat.leb_spec i t); cbn [andb]; lia.
Qed.

Lemma index_after_move_inj (s t i j : nat) :
  index_after_move s t i = index_after_move s t j -> i = j.
Proof.
  unfold index_after_move.
  destruct (Nat.eqb_spec i s), (Nat.eqb_spec j s);
    destruct (Nat.leb_spec t i), (Nat.ltb_spec i s),
             (Nat.leb_spec t j), (Nat.ltb_spec j s); cbn [andb]; try lia;
    destruct (Nat.ltb_spec s i), (Nat.leb_spec i t),
             (Nat.ltb_spec s j), (Nat.leb_spec j t); cbn [andb]; lia.
Qed.

(** Every index below [n] is the image of one. *)
Lemma index_after_move_onto (s t n k : nat) :
  (s < n)%nat -> (t < n)%nat -> (k < n)%nat ->
  exists i, (i < n)%nat /\ index_after_move s t i = k.
Proof.
  intros Hs Ht Hk.
  destruct (Nat.eq_dec k t) as [->|Hne].
  - exists s. split; [exact Hs|]. unfold index_after_move.
    now rewrite Nat.eqb_refl.
  - destruct (Nat.lt_ge_cases t k) as [Htk|Htk].
    + destruct (Nat.le_gt_cases k s) as [Hks|Hks].
      * (* t < k <= s: from k-1 *)
        exists (Nat.pred k). split; [lia|]. unfold index_after_move.
        destruct (Nat.eqb_spec (Nat.pred k) s); [lia|].
        destruct (Nat.leb_spec t (Nat.pred k)), (Nat.ltb_spec (Nat.pred k) s);
          cbn [andb]; lia.
      * exists k. split; [lia|]. unfold index_after_move.
        destruct (Nat.eqb_spec k s); [lia|].
        destruct (Nat.leb_spec t k), (Nat.ltb_spec k s); cbn [andb]; try lia;
          destruct (Nat.ltb_spec s k), (Nat.leb_spec k t); cbn [andb]; lia.
    + destruct (Nat.le_gt_cases s k) as [Hsk|Hsk].
      * (* s <= k < t: from k+1 *)
        exists (S k). split; [lia|]. unfold index_after_move.
        destruct (Nat.eqb_spec (S k) s); [lia|].
        destruct (Nat.leb_spec t (S k)), (Nat.ltb_spec (S k) s);
          cbn [andb]; try lia;
          destruct (Nat.ltb_spec s (S k)), (Nat.leb_spec (S k) t);
          cbn [andb]; lia.
      * exists k. split; [lia|]. unfold index_after_move.
        destruct (Nat.eqb_spec k s); [lia|].
        destruct (Nat.leb_spec t k), (Nat.ltb_spec k s); cbn [andb]; try lia;
          destruct (Nat.ltb_spec s k), (Nat.leb_spec k t); cbn [andb]; lia.
Qed.

Lemma moved_elements {A : Type} (s t : nat) (l : list A) (x : A) :
  (s < List.length l)%nat -> (t < List.length l)%nat ->
  In x (moved s t l) <-> In x l.
Proof.
  intros Hs Ht. split; intros Hin.
  - apply In_nth_error in Hin as [k Hk].
    assert (Hlt : (k < List.length l)%nat).
    { rewrite <- (length_moved s t l Hs Ht). apply nth_error_Some. congruence. }
    destruct (index_after_move_onto s t (List.length l) k Hs Ht Hlt)
      as [i [Hi <-]].
    rewrite nth_error_moved in Hk by assumption.
    now apply nth_error_In in Hk.
  - apply In_nth_error in Hin as [i Hi].
    assert (Hlt : (i < List.length l)%nat).
    { apply nth_error_Some. congruence. }
    rewrite <- (nth_error_moved s t l i Hs Ht Hlt) in Hi.
    now apply nth_error_In in Hi.
Qed.

Lemma NoDup_moved {A : Type} (s t : nat) (l : list A) :
  (s < List.length l)%nat -> (t < List.length l)%nat ->
  NoDup l -> NoDup (moved s t l).
Proof.
  intros Hs Ht Hnd. apply NoDup_nth_error. intros a b Ha Hab.
  rewrite length_moved in Ha by assumption.
  destruct (index_after_move_onto s t (List.length l) a Hs Ht Ha)
    as [i [Hi <-]].
  rewrite nth_error_moved in Hab by assumption.
  assert (Hb : (b < List.length l)%nat).
  { rewrite <- (length_moved s t l Hs Ht). apply nth_error_Some.
    rewrite <- Hab. apply nth_error_Some. exact Hi. }
  destruct (index_after_move_onto s t (List.length l) b Hs Ht Hb)
    as [j [Hj <-]].
  rewrite nth_error_moved in Hab by assumption.
  f_equal. apply (proj1 (NoDup_nth_error l) Hnd); assumption.
Qed.

(** ** The stored order and a reorder *)

Lemma active_view_map (userId : string) (g : task -> task)
  (tbl : list task) :
  (forall t, In t tbl -> is_active userId (g t) = is_active userId t) ->
  active_view userId (map g tbl)
  = map (fun t => (id (g t), order_index (g t)))
      (filter (is_active userId) tbl).
Proof.
  intros Hact. unfold active_view.
  rewrite filter_map_swap, map_map.
  now rewrite (filter_ext_in _ _ _ Hact).
Qed.

Lemma placed_length (userId : string) (tbl : list task) (ids : list string)
  (x : string) (i : Z) :
  placed userId tbl ids -> In (x, i) (active_view userId tbl) ->
  0 <= i < Z.of_nat (List.length ids).
Proof.
  intros [_ Hp] Hin. apply Hp in Hin as [H0 Hnth].
  assert (Hlt : (Z.to_nat i < List.length ids)%nat).
  { apply nth_error_Some. congruence. }
  lia.
Qed.

Lemma placed_row (userId : string) (tbl : list task) (ids : list string)
  (i : nat) (x : string) :
  placed userId tbl ids -> nth_error ids i = Some x ->
  exists t, In t tbl /\ is_active userId t = true /\ id t = x /\
            order_index t = Z.of_nat i.
Proof.
  intros [_ Hp] Hnth.
  assert (Hin : In (x, Z.of_nat i) (active_view userId tbl)).
  { apply Hp. split; [lia|]. now rewrite Nat2Z.id. }
  unfold active_view in Hin. apply in_map_iff in Hin as [t [Ht Hin]].
  apply filter_In in Hin as [Hin Hact]. injection Ht as Hid Hidx.
  now exists t.
Qed.

Lemma placed_at (userId : string) (tbl : list task) (ids : list string)
  (t : task) :
  placed userId tbl ids -> In t tbl -> is_active userId t = true ->
  0 <= order_index t /\
  nth_error ids (Z.to_nat (order_index t)) = Some (id t).
Proof.
  intros [_ Hp] Hin Hact. apply Hp. unfold active_view.
  apply in_map_iff. exists t. split; [reflexivity|].
  apply filter_In. now split.
Qed.

(** The stored order after the rows are mapped by [g], when [g] keeps the
    ids and the incomplete rows and sends the index [i] to [h i]. *)
Lemma placed_map (userId : string) (tbl : list task) (ids ids' : list string)
  (g : task -> task) (h : nat -> nat) :
  placed userId tbl ids ->
  NoDup ids' ->
  (forall t, In t tbl -> is_active userId (g t) = is_active userId t) ->
  (forall t, id (g t) = id t) ->
  (forall t, In t tbl -> is_active userId t = true ->
             order_index (g t) = Z.of_nat (h (Z.to_nat (order_index t)))) ->
  (forall i, (i < List.length ids)%nat ->
             nth_error ids' (h i) = nth_error ids i) ->
  (forall k x, nth_error ids' k = Some x ->
               exists i, (i < List.length ids)%nat /\ h i = k) ->
  placed userId (map g tbl) ids'.
Proof.
  intros Hp Hnd Hact Hid Hidx Hnth Honto. split; [exact Hnd|].
  intros x j. rewrite active_view_map by exact Hact. split.
  - intros Hin. apply in_map_iff in Hin as [t [Ht Hin]].
    apply filter_In in Hin as [Hin Ha]. injection Ht as Hx Hj.
    destruct (placed_at userId tbl ids t Hp Hin Ha) as [H0 Hpos].
    rewrite (Hidx t Hin Ha) in Hj. subst j. split; [lia|].
    rewrite Nat2Z.id, Hnth, Hpos; [now rewrite <- Hx, Hid|].
    apply nth_error_Some. congruence.
  - intros [H0 Hpos].
    destruct (Honto _ _ Hpos) as [i [Hi Hh]].
    rewrite <- Hh, Hnth in Hpos by exact Hi.
    destruct (placed_row userId tbl ids i x Hp Hpos)
      as (t & Hin & Ha & Hx & Hti).
    apply in_map_iff. exists t. split.
    + rewrite Hid, Hx, (Hidx t Hin Ha), Hti, Nat2Z.id, Hh.
      f_equal. lia.
    + apply filter_In. now split.
Qed.

(** The highest index of a stored order. *)
Lemma placed_max (userId : string) (tbl : list task) (ids : list string) :
  placed userId tbl ids -> ids <> [] ->
  select_max_order_index userId tbl
  = Some (Z.of_nat (List.length ids) - 1).
Proof.
  intros Hp Hne. unfold select_max_order_index.
  pose proof (max_of_spec (map order_index (filter (is_active userId) tbl)))
    as Hm.
  assert (Hlast : exists x, nth_error ids (List.length ids - 1) = Some x).
  { destruct (nth_error ids (List.length ids - 1)) as [x|] eqn:Hx;
      [now exists x|].
    apply nth_error_None in Hx. destruct ids; [contradiction|].
    cbn [List.length] in Hx. lia. }
  destruct Hlast as [x Hx].
  destruct (placed_row userId tbl ids _ x Hp Hx)
    as (t & Hin & Ha & _ & Hti).
  assert (Htop : In (order_index t)
                   (map order_index (filter (is_active userId) tbl))).
  { apply in_map. apply filter_In. now split. }
  destruct (max_of _) as [m|]; [|now rewrite Hm in Htop].
  destruct Hm as [Hmin Hmax]. f_equal.
  apply in_map_iff in Hmin as [t' [Ht' Hin']].
  apply filter_In in Hin' as [Hin' Ha'].
  assert (Hb : 0 <= m < Z.of_nat (List.length ids)).
  { apply (placed_length userId tbl ids (id t') m Hp).
    unfold active_view. apply in_map_iff. exists t'.
    split; [now rewrite Ht'|]. apply filter_In. now split. }
  specialize (Hmax _ Htop).
  assert (Hlen : (0 < List.length ids)%nat).
  { destruct ids; [contradiction|cbn; lia]. }
  lia.
Qed.

Lemma schema_order_index_only (n : Z) :
  0 <= n ->
  updateTaskInputSchema (with_key_order_index n no_keys)
  = Some (mkUpdateTaskInput None None None None None None None (Some n)).
Proof.
  intros Hn. unfold updateTaskInputSchema, with_key_order_index, no_keys.
  cbn. destruct (Z.leb_spec 0 n); [reflexivity|lia].
Qed.

(** The row of a stored order that a PATCH addresses. *)
Lemma placed_current (userId : string) (tbl : list task) (ids : list string)
  (i : nat) (x : string) :
  keyed tbl -> placed userId tbl ids -> nth_error ids i = Some x ->
  exists currentTask rest,
    filter (is_task x userId) tbl = currentTask :: rest /\
    In currentTask tbl /\
    is_active userId currentTask = true /\
    order_index currentTask = Z.of_nat i /\
    forall t, In t tbl -> is_task x userId t = true -> t = currentTask.
Proof.
  intros Hk Hp Hnth.
  destruct (placed_row userId tbl ids i x Hp Hnth)
    as (t & Hin & Ha & Hx & Hti).
  assert (Htask : is_task x userId t = true).
  { apply is_active_user in Ha as [Hu _]. unfold is_task.
    now rewrite Hx, Hu, !String.eqb_refl. }
  destruct (filter (is_task x userId) tbl) as [|cur rest] eqn:Hsel.
  - exfalso.
    assert (Hf : In t (filter (is_task x userId) tbl)).
    { apply filter_In. now split. }
    now rewrite Hsel in Hf.
  - assert (Hcur : t = cur).
    { exact (current_task_unique x userId tbl cur rest t Hk Hsel Hin Htask). }
    subst cur. exists t, rest. repeat split; try assumption.
    intros t' Hin' Ht'.
    exact (current_task_unique x userId tbl t rest t' Hk Hsel Hin' Ht').
Qed.

Lemma index_after_reorder_move (userId x : string) (tbl : list task)
  (ids : list string) (old new : nat) (t : task) :
  placed userId tbl ids -> nth_error ids old = Some x ->
  In t tbl -> is_active userId t = true ->
  index_after_reorder userId x (Z.of_nat old) (Z.of_nat new) t
  = Z.of_nat (index_after_move old new (Z.to_nat (order_index t))).
Proof.
  intros Hp Hold Hin Ha.
  destruct (placed_at userId tbl ids t Hp Hin Ha) as [H0 Hpos].
  assert (Htask : is_task x userId t = Nat.eqb (Z.to_nat (order_index t)) old).
  { apply is_active_user in Ha as [Hu _]. unfold is_task.
    rewrite Hu, String.eqb_refl, andb_true_r.
    destruct (Nat.eqb_spec (Z.to_nat (order_index t)) old) as [He|Hne].
    - rewrite He, Hold in Hpos. injection Hpos as ->.
      apply String.eqb_refl.
    - apply String.eqb_neq. intros Hx. apply Hne.
      destruct Hp as [Hnd _].
      apply (proj1 (NoDup_nth_error ids) Hnd).
      + apply nth_error_Some. congruence.
      + now rewrite Hpos, Hold, Hx. }
  unfold index_after_reorder, index_after_move. rewrite Htask, Ha.
  destruct (Nat.eqb_spec (Z.to_nat (order_index t)) old); [reflexivity|].
  cbn [andb].
  destruct (Z.leb_spec (Z.of_nat new) (order_index t)),
           (Z.ltb_spec (order_index t) (Z.of_nat old)),
           (Nat.leb_spec new (Z.to_nat (order_index t))),
           (Nat.ltb_spec (Z.to_nat (order_index t)) old);
    cbn [andb]; try lia;
    destruct (Z.ltb_spec (Z.of_nat old) (order_index t)),
             (Z.leb_spec (order_index t) (Z.of_nat new)),
             (Nat.ltb_spec old (Z.to_nat (order_index t))),
             (Nat.leb_spec (Z.to_nat (order_index t)) new);
    cbn [andb]; lia.
Qed.
(** ** A reorder and the stored order *)

Lemma placed_of_rows (userId : string) (tbl : list task) :
  in_place 0 (filter (is_active userId) tbl) ->
  NoDup (map id (filter (is_active userId) tbl)) ->
  placed userId tbl (map id (filter (is_active userId) tbl)).
Proof.
  intros Hplace Hnd. split; [exact Hnd|].
  intros x i. unfold active_view. split.
  - intros Hin. apply in_map_iff in Hin as [t [Ht Hin]].
    injection Ht as Hx Hi.
    apply In_nth_error in Hin as [j Hj].
    rewrite (Hplace j t Hj) in Hi. cbn [Nat.add] in Hi. subst i.
    split; [lia|]. rewrite Nat2Z.id, nth_error_map, Hj. cbn. now rewrite Hx.
  - intros [H0 Hnth]. rewrite nth_error_map in Hnth.
    destruct (nth_error (filter (is_active userId) tbl) (Z.to_nat i))
      as [t|] eqn:Ht; [|discriminate].
    injection Hnth as Hx. apply in_map_iff. exists t. split.
    + rewrite Hx, (Hplace _ t Ht). f_equal. cbn [Nat.add]. lia.
    + now apply nth_error_In in Ht.
Qed.

(** X20. An accepted reorder is a move in the stored order. When the
    incomplete tasks of a user are stored in the order [ids], a PATCH with
    the body [{ order_index: new }] for the task at position [old], whose
    stored row is [currentTask], is answered 200 if the priority of that
    row is one of the schema, and then leaves the tasks in the order
    [ids] with that task moved from [old] to [new], in a transaction that
    stays open: the committed table is not changed. If the priority is
    not one of the schema the request is answered 400 and the connection
    is rolled back. *)
Theorem reorder_is_move (userId x : string) (now : Z) (c : conn)
  (ids : list string) (old new : nat) (currentTask : task) :
  keyed (view c) -> placed userId (view c) ids ->
  nth_error ids old = Some x ->
  (new < List.length ids)%nat -> new <> old ->
  In currentTask (view c) -> id currentTask = x ->
  let answered :=
    update_task userId x (with_key_order_index (Z.of_nat new) no_keys)
      now c in
  fst answered
  = (if taskSchema currentTask
     then Json 200
            (with_updated_at now
               (with_order_index (Z.of_nat new) currentTask))
     else Failure 400 ValidationError) /\
  (taskSchema currentTask = true ->
   placed userId (view (snd answered)) (moved old new ids) /\
   committed (snd answered) = committed c /\
   pending (snd answered) <> None) /\
  (taskSchema currentTask = false -> snd answered = rollback_conn c).
Proof.
  intros Hk Hp Hold Hnew Hne Hstored Hid answered.
  assert (Holdlt : (old < List.length ids)%nat).
  { apply nth_error_Some. congruence. }
  destruct (placed_current userId (view c) ids old x Hk Hp Hold)
    as (cur & rest & Hsel & Hin & Ha & Hidx & Huniq).
  assert (Hcur : currentTask = cur).
  { apply (keyed_unique (view c)); try assumption.
    apply current_task_in in Hsel as [_ Htask].
    apply is_task_id in Htask as [Hx _]. congruence. }
  subst cur.
  pose proof (is_active_user userId currentTask Ha) as [Hu Hopen].
  set (f := mkUpdateTaskInput None None None None None None None
              (Some (Z.of_nat new))).
  assert (Hparse : updateTaskInputSchema
                     (with_key_order_index (Z.of_nat new) no_keys) = Some f).
  { apply schema_order_index_only. lia. }
  assert (Hreq : reorder_requested f currentTask = Some (Z.of_nat new)).
  { unfold reorder_requested, f. cbn [upd_order_index upd_is_completed].
    rewrite Hidx, Hopen.
    destruct (Z.eqb_spec (Z.of_nat new) (Z.of_nat old)); [lia|reflexivity]. }
  assert (Hmax : select_max_order_index userId (view c)
                 = Some (Z.of_nat (List.length ids) - 1)).
  { apply (placed_max userId (view c) ids Hp). intros ->. cbn in Hnew. lia. }
  assert (Hrow : returned_row userId f currentTask now c
                 = with_updated_at now
                     (with_order_index (Z.of_nat new) currentTask)).
  { unfold returned_row. rewrite Hreq. reflexivity. }
  assert (Hrun : answered
                 = if taskSchema currentTask
                   then (Json 200
                           (with_updated_at now
                              (with_order_index (Z.of_nat new) currentTask)),
                         patched_conn userId x f currentTask now c)
                   else (Failure 400 ValidationError, rollback_conn c)).
  { unfold answered. rewrite update_task_run, Hparse, Hsel. cbn zeta.
    assert (Hcat : category_missing userId f c = false) by reflexivity.
    rewrite Hcat, Hreq, Hmax, Hrow. unfold or_minus_one.
    destruct (Z.eqb_spec (Z.of_nat (List.length ids) - 1) 0); [lia|].
    destruct (Z.ltb_spec (Z.of_nat new) 0); [lia|].
    destruct (Z.ltb_spec (Z.of_nat (List.length ids) - 1 + 1)
                (Z.of_nat new)); [lia|].
    rewrite Hopen.
    change (taskSchema
              (with_updated_at now
                 (with_order_index (Z.of_nat new) currentTask)))
      with (taskSchema currentTask).
    destruct (taskSchema currentTask); [reflexivity|].
    unfold patched_conn. now rewrite Hreq. }
  rewrite Hrun.
  split; [now destruct (taskSchema currentTask)|].
  split; [|now intros ->].
  intros ->. cbn [snd]. split.
  { rewrite view_patched_conn.
    apply (placed_map userId (view c) ids (moved old new ids) _
             (index_after_move old new)).
    - exact Hp.
    - apply NoDup_moved; try assumption. apply Hp.
    - intros t Ht. unfold patched_row.
      destruct (is_task x userId t) eqn:Htask.
      + rewrite is_active_updated_row. unfold is_active.
        now cbn [upd_is_completed f].
      + now rewrite Hreq.
    - intros t. apply id_patched_row.
    - intros t Ht Hat.
      rewrite <- (index_after_reorder_move userId x (view c) ids old new t
                    Hp Hold Ht Hat).
      unfold patched_row, index_after_reorder. rewrite Hreq, Hidx.
      destruct (is_task x userId t);
        [now rewrite order_index_updated_row | reflexivity].
    - intros i Hi. now apply nth_error_moved.
    - intros k y Hy.
      apply (index_after_move_onto old new (List.length ids) k);
        try assumption.
      rewrite <- (length_moved old new ids) by assumption.
      apply nth_error_Some. congruence. }
  now apply (reorder_left_uncommitted userId x f currentTask now c
               (Z.of_nat new)).
Qed.

Lemma keyed_five : keyed five.
Proof. repeat constructor; cbn; intuition discriminate. Qed.

Lemma placed_five : placed "u" five ["A"; "B"; "C"; "D"; "E"].
Proof.
  apply (placed_of_rows "u" five).
  - intros i t Hi. cbn in Hi.
    do 5 (destruct i as [|i]; [injection Hi as <-; reflexivity|]).
    destruct i; discriminate.
  - exact keyed_five.
Qed.

Lemma reorder_is_move_witness :
  fst (update_task "u" "D" (with_key_order_index 1 no_keys)
         1679100000000 (idle [] five))
  = Json 200
      (with_updated_at 1679100000000
         (with_order_index 1 (sample "D" "u" false None 3))) /\
  placed "u"
    (view (snd (update_task "u" "D" (with_key_order_index 1 no_keys)
                  1679100000000 (idle [] five))))
    ["A"; "D"; "B"; "C"; "E"] /\
  committed (snd (update_task "u" "D" (with_key_order_index 1 no_keys)
                    1679100000000 (idle [] five)))
  = five.
Proof.
  destruct (reorder_is_move "u" "D" 1679100000000 (idle [] five)
              ["A"; "B"; "C"; "D"; "E"] 3 1 (sample "D" "u" false None 3))
    as (Hanswer & Hmoved & _).
  - exact keyed_five.
  - exact placed_five.
  - reflexivity.
  - cbn. lia.
  - discriminate.
  - cbn. tauto.
  - reflexivity.
  - split; [exact Hanswer|].
    destruct (Hmoved eq_refl) as (Hplaced & Hcommitted & _).
    split; [exact Hplaced | exact Hcommitted].
Defined.

(* ===================================================================== *)
(** * GET /api/tasks *)
(* ===================================================================== *)

(** ** What the schema lets through *)

Lemma z_boolean_of_query (v : query_value) :
  z_boolean (json_of_query v) = None.
Proof. now destruct v. Qed.

Lemma z_positive_of_query (v : query_value) :
  z_positive (json_of_query v) = None.
Proof. now destruct v. Qed.

Lemma z_index_of_query (v : query_value) :
  z_index (json_of_query v) = None.
Proof. now destruct v. Qed.

Lemma searchTasksInputSchema_typed_keys (q : task_query)
  (input : SearchTasksInput) :
  searchTasksInputSchema q = Some input ->
  q_is_completed q = None /\ q_limit q = None /\ q_offset q = None /\
  s_is_completed input = None /\ s_limit input = 10 /\ s_offset input = 0.
Proof.
  unfold searchTasksInputSchema. cbn zeta.
  destruct (z_optional _ (option_map json_of_query (q_query q)));
    [|discriminate].
  destruct (z_optional _ (option_map json_of_query (q_user_id q)));
    [|discriminate].
  destruct (z_optional _ (option_map json_of_query (q_category_id q)));
    [|discriminate].
  destruct (z_optional _ (option_map json_of_query (q_priority q)));
    [|discriminate].
  destruct (q_is_completed q) as [v|]; cbn [option_map z_optional];
    [now rewrite z_boolean_of_query|].
  destruct (z_coerce_date (q_due_date_before q)); [|discriminate].
  destruct (z_coerce_date (q_due_date_after q)); [|discriminate].
  destruct (q_limit q) as [v|]; cbn [option_map z_default];
    [now rewrite z_positive_of_query|].
  destruct (q_offset q) as [v|]; cbn [option_map z_default];
    [now rewrite z_index_of_query|].
  destruct (z_default _ _ (option_map json_of_query (q_sort_by q)));
    [|discriminate].
  destruct (z_default _ _ (option_map json_of_query (q_sort_order q)));
    [|discriminate].
  intros [= <-]. now cbn.
Qed.

Lemma searchTasksInputSchema_filters (q : task_query)
  (input : SearchTasksInput) :
  searchTasksInputSchema q = Some input ->
  match q_priority q with
  | Some (QString s) => s_priority input = Some s /\ s <> EmptyString
  | Some QNested => False
  | None => s_priority input = None
  end /\
  match q_category_id q with
  | Some (QString s) => s_category_id input = Some (Some s)
  | Some QNested => False
  | None => s_category_id input = None
  end /\
  s_due_date_before input
  = match q_due_date_before q with
    | DAbsent => None
    | DNull => Some 0
    | DValue ms => ms
    end /\
  s_due_date_after input
  = match q_due_date_after q with
    | DAbsent => None
    | DNull => Some 0
    | DValue ms => ms
    end.
Proof.
  unfold searchTasksInputSchema. cbn zeta.
  destruct (z_optional _ (option_map json_of_query (q_query q)));
    [|discriminate].
  destruct (z_optional _ (option_map json_of_query (q_user_id q)));
    [|discriminate].
  destruct (z_optional _ (option_map json_of_query (q_category_id q)))
    as [c|] eqn:Hc; [|discriminate].
  destruct (z_optional _ (option_map json_of_query (q_priority q)))
    as [p|] eqn:Hp; [|discriminate].
  destruct (z_optional _ (option_map json_of_query (q_is_completed q)));
    [|discriminate].
  destruct (z_coerce_date (q_due_date_before q)) as [before|] eqn:Hb;
    [|discriminate].
  destruct (z_coerce_date (q_due_date_after q)) as [after|] eqn:Ha;
    [|discriminate].
  destruct (z_default _ _ (option_map json_of_query (q_limit q)));
    [|discriminate].
  destruct (z_default _ _ (option_map json_of_query (q_offset q)));
    [|discriminate].
  destruct (z_default _ _ (option_map json_of_query (q_sort_by q)));
    [|discriminate].
  destruct (z_default _ _ (option_map json_of_query (q_sort_order q)));
    [|discriminate].
  intros [= <-].
  cbn [s_priority s_category_id s_due_date_before s_due_date_after].
  split; [|split; [|split]].
  - destruct (q_priority q) as [[sp|]|]; cbn in Hp.
    + destruct (String.eqb_spec sp "low") as [E|_];
        [injection Hp as <-; now rewrite E|].
      destruct (String.eqb_spec sp "medium") as [E|_];
        [injection Hp as <-; now rewrite E|].
      destruct (String.eqb_spec sp "high") as [E|_];
        [injection Hp as <-; now rewrite E|].
      discriminate.
    + discriminate.
    + now injection Hp as <-.
  - destruct (q_category_id q) as [[sc|]|]; cbn in Hc.
    + now injection Hc as <-.
    + discriminate.
    + now injection Hc as <-.
  - destruct (q_due_date_before q) as [| |[ms|]]; cbn in Hb;
      try discriminate; now injection Hb as <-.
  - destruct (q_due_date_after q) as [| |[ms|]]; cbn in Ha;
      try discriminate; now injection Ha as <-.
Qed.

Lemma searchTasksInputSchema_dates (q : task_query)
  (input : SearchTasksInput) :
  searchTasksInputSchema q = Some input ->
  z_coerce_date (q_due_date_before q) = Some (s_due_date_before input) /\
  z_coerce_date (q_due_date_after q) = Some (s_due_date_after input).
Proof.
  unfold searchTasksInputSchema. cbn zeta.
  destruct (z_optional _ (option_map json_of_query (q_query q)));
    [|discriminate].
  destruct (z_optional _ (option_map json_of_query (q_user_id q)));
    [|discriminate].
  destruct (z_optional _ (option_map json_of_query (q_category_id q)));
    [|discriminate].
  destruct (z_optional _ (option_map json_of_query (q_priority q)));
    [|discriminate].
  destruct (z_optional _ (option_map json_of_query (q_is_completed q)));
    [|discriminate].
  destruct (z_coerce_date (q_due_date_before q)); [|discriminate].
  destruct (z_coerce_date (q_due_date_after q)); [|discriminate].
  destruct (z_default _ _ (option_map json_of_query (q_limit q)));
    [|discriminate].
  destruct (z_default _ _ (option_map json_of_query (q_offset q)));
    [|discriminate].
  destruct (z_default _ _ (option_map json_of_query (q_sort_by q)));
    [|discriminate].
  destruct (z_default _ _ (option_map json_of_query (q_sort_order q)));
    [|discriminate].
  intros [= <-]. now split.
Qed.

(** ** The statement as a table of cases *)

Lemma build_where_selected (ilike : string -> string -> bool)
  (userId : string) (input : SearchTasksInput) (extra : list query_param)
  (t : task) :
  s_is_completed input = None ->
  s_due_date_before input = None -> s_due_date_after input = None ->
  forallb (fun w => where_holds ilike
                      (selectParams (build_where userId input) ++ extra) w t)
    (whereClauses (build_where userId input))
  = selected ilike userId input t.
Proof.
  intros Hdone Hbefore Hafter. unfold build_where, selected.
  rewrite Hdone, Hbefore, Hafter.
  destruct (nonempty (s_query input)) as [qs|];
    destruct (s_category_id input) as [[c|]|];
    try destruct (String.eqb c "null");
    destruct (nonempty (s_priority input)) as [p|];
    cbn; rewrite ?andb_true_r, ?andb_assoc; try reflexivity;
    destruct (category_id t); cbn;
    rewrite ?andb_false_r, ?andb_true_r, ?andb_assoc; reflexivity.
Qed.

Lemma build_where_typed (userId : string) (input : SearchTasksInput) :
  s_is_completed input = None ->
  let b := build_where userId input in
  let params :=
    selectParams b ++
    [ParamNumber (s_limit input); ParamNumber (s_offset input)] in
  query_param_at params (selectIndex b) = Some (ParamNumber (s_limit input))
  /\
  query_param_at params (S (selectIndex b))
  = Some (ParamNumber (s_offset input)) /\
  forallb (where_typed params) (whereClauses b)
  = match s_due_date_before input, s_due_date_after input with
    | None, None => true
    | _, _ => false
    end.
Proof.
  intros Hdone. unfold build_where. rewrite Hdone.
  destruct (nonempty (s_query input)) as [qs|];
    destruct (s_category_id input) as [[c|]|];
    try destruct (String.eqb c "null");
    destruct (nonempty (s_priority input)) as [p|];
    destruct (s_due_date_before input) as [before|];
    destruct (s_due_date_after input) as [after|];
    cbn; repeat split; reflexivity.
Qed.

Lemma get_tasks_run (ilike : string -> string -> bool)
  (collate : string -> string -> comparison) (userId : string)
  (q : task_query) (now : Z) (tbl : list task) :
  get_tasks ilike collate userId q now tbl =
  match searchTasksInputSchema q with
  | None => ListFailure 400 ValidationError
  | Some input =>
      match s_due_date_before input, s_due_date_after input with
      | None, None =>
          if forallb taskSchema
               (firstn 10
                  (order_by (before collate (listing_order now))
                     (filter (selected ilike userId input) tbl)))
          then Listed
                 (firstn 10
                    (order_by (before collate (listing_order now))
                       (filter (selected ilike userId input) tbl)))
          else ListFailure 400 ValidationError
      | _, _ => ListFailure 500 InternalServerError
      end
  end.
Proof.
  unfold get_tasks.
  destruct (searchTasksInputSchema q) as [input|] eqn:Hparse;
    [|reflexivity].
  destruct (searchTasksInputSchema_typed_keys q input Hparse)
    as (_ & _ & _ & Hdone & Hlimit & Hoffset).
  cbn zeta. unfold exec_select_tasks.
  destruct (build_where_typed userId input Hdone) as (Hl & Ho & Htyped).
  rewrite Hl, Ho, Htyped, Hlimit, Hoffset.
  destruct (s_due_date_before input) as [before|] eqn:Hb;
    [now destruct (s_due_date_after input)|].
  destruct (s_due_date_after input) as [after|] eqn:Ha; [reflexivity|].
  cbn [andb Z.leb Z.compare].
  change (Z.to_nat 10) with 10%nat. change (Z.to_nat 0) with 0%nat.
  cbn [skipn]. unfold build_order. rewrite Hdone. fold (listing_order now).
  rewrite (filter_ext _ (selected ilike userId input)); [reflexivity|].
  intros t. rewrite <- Hlimit, <- Hoffset.
  now apply build_where_selected.
Qed.

(** ** The order of the rows *)

Lemma insert_row_In (le : task -> task -> bool) (t x : task)
  (l : list task) :
  In x (insert_row le t l) <-> x = t \/ In x l.
Proof.
  induction l as [|a l IH]; cbn; [intuition|].
  destruct (le t a); cbn; [intuition|]. rewrite IH. intuition.
Qed.

Lemma order_by_In (le : task -> task -> bool) (x : task) (l : list task) :
  In x (order_by le l) <-> In x l.
Proof.
  induction l as [|a l IH]; cbn; [reflexivity|].
  rewrite insert_row_In, IH. intuition.
Qed.

Lemma length_insert_row (le : task -> task -> bool) (t : task)
  (l : list task) :
  List.length (insert_row le t l) = S (List.length l).
Proof.
  induction l as [|a l IH]; cbn; [reflexivity|].
  destruct (le t a); cbn; [reflexivity|]. now rewrite IH.
Qed.

Lemma length_order_by (le : task -> task -> bool) (l : list task) :
  List.length (order_by le l) = List.length l.
Proof.
  induction l as [|a l IH]; cbn; [reflexivity|].
  now rewrite length_insert_row, IH.
Qed.

Lemma NoDup_insert_row (le : task -> task -> bool) (t : task)
  (l : list task) :
  ~ In t l -> NoDup l -> NoDup (insert_row le t l).
Proof.
  induction l as [|a l IH]; cbn; intros Hnot Hnd.
  - constructor; [intros []|constructor].
  - destruct (le t a).
    + constructor; [exact Hnot|exact Hnd].
    + inversion Hnd as [|? ? Ha Hl]; subst. constructor.
      * rewrite insert_row_In. intuition.
      * apply IH; intuition.
Qed.

Lemma NoDup_order_by (le : task -> task -> bool) (l : list task) :
  NoDup l -> NoDup (order_by le l).
Proof.
  induction l as [|a l IH]; cbn; intros Hnd; [constructor|].
  inversion Hnd as [|? ? Ha Hl]; subst.
  apply NoDup_insert_row; [|now apply IH].
  now rewrite order_by_In.
Qed.

Lemma compare_nulls_last_eq (a b : option Z) :
  compare_nulls_last a b = Eq <-> a = b.
Proof.
  destruct a as [x|], b as [y|]; cbn; try (split; discriminate);
    [|tauto].
  rewrite Z.compare_eq_iff. split; [now intros ->|now intros [= ->]].
Qed.

Ltac key_le_holds :=
  first
    [ now left
    | right; split; [assumption|];
      first
        [ now left
        | right; split; [assumption|];
          first [ now left | right; split; [assumption | lia] ] ] ].

Ltac key_le_fails Hd :=
  let H := fresh in
  intros H;
  repeat match goal with
         | K : _ \/ _ |- _ => destruct K
         | K : _ /\ _ |- _ => destruct K
         end;
  try lia; try discriminate;
  match goal with
  | E : due_date_at ?a = due_date_at ?b |- _ =>
      apply compare_nulls_last_eq in E; congruence
  end.

Lemma before_key_le (collate : string -> string -> comparison) (now : Z)
  (a b : task) :
  before collate (listing_order now) a b = true <->
  key_le (listing_key now a) (listing_key now b).
Proof.
  unfold before, listing_order, listing_key, key_le.
  cbn [compare_rows compare_item].
  destruct (Z.compare_spec (overdue_flag now a) (overdue_flag now b))
    as [Hf|Hf|Hf].
  - destruct (compare_nulls_last (due_date_at a) (due_date_at b)) eqn:Hd.
    + pose proof (proj1 (compare_nulls_last_eq _ _) Hd) as Hd'.
      destruct (Z.compare_spec (priority_rank a) (priority_rank b))
        as [Hp|Hp|Hp].
      * destruct (Z.compare_spec (order_index a) (order_index b));
          (split; [intros Hb; try discriminate Hb; key_le_holds
                  | try (intros _; reflexivity); key_le_fails Hd]).
      * split; [intros _; key_le_holds | reflexivity].
      * split; [discriminate | key_le_fails Hd].
    + split; [intros _; key_le_holds | reflexivity].
    + split; [discriminate | key_le_fails Hd].
  - split; [intros _; key_le_holds | reflexivity].
  - split; [discriminate | key_le_fails Hd].
Qed.

Lemma compare_nulls_last_flip (a b : option Z) :
  compare_nulls_last a b = Gt -> compare_nulls_last b a = Lt.
Proof.
  destruct a as [x|], b as [y|]; cbn; try discriminate; try reflexivity.
  intros H. apply Z.compare_gt_iff in H. now apply Z.compare_lt_iff.
Qed.

Lemma compare_nulls_last_trans (a b c : option Z) :
  compare_nulls_last a b = Lt -> compare_nulls_last b c = Lt ->
  compare_nulls_last a c = Lt.
Proof.
  destruct a as [x|], b as [y|], c as [z|]; cbn; try discriminate;
    try reflexivity.
  rewrite !Z.compare_lt_iff. lia.
Qed.

Lemma key_le_total (k1 k2 : Z * option Z * Z * Z) :
  key_le k1 k2 \/ key_le k2 k1.
Proof.
  destruct k1 as [[[f1 d1] p1] o1], k2 as [[[f2 d2] p2] o2]. cbn.
  destruct (Z.lt_trichotomy f1 f2) as [?|[?|?]]; [now left; left| |now right; left].
  destruct (compare_nulls_last d1 d2) eqn:Hd.
  - apply compare_nulls_last_eq in Hd.
    destruct (Z.lt_trichotomy p1 p2) as [?|[?|?]].
    + left. right. split; [assumption|]. right. split; [assumption|].
      now left.
    + destruct (Z.le_ge_cases o1 o2).
      * left. right. split; [assumption|]. right. split; [assumption|].
        right. now split.
      * right. right. split; [lia|]. right. split; [congruence|].
        right. split; [lia|assumption].
    + right. right. split; [lia|]. right. split; [congruence|]. now left.
  - left. right. split; [assumption|]. now left.
  - apply compare_nulls_last_flip in Hd.
    right. right. split; [lia|]. now left.
Qed.

Lemma key_le_trans (k1 k2 k3 : Z * option Z * Z * Z) :
  key_le k1 k2 -> key_le k2 k3 -> key_le k1 k3.
Proof.
  destruct k1 as [[[f1 d1] p1] o1], k2 as [[[f2 d2] p2] o2],
           k3 as [[[f3 d3] p3] o3]. cbn.
  intros [H1|[E1 H1]] [H2|[E2 H2]]; try (left; lia).
  right. split; [lia|].
  destruct H1 as [H1|[D1 H1]], H2 as [H2|[D2 H2]].
  - left. now apply (compare_nulls_last_trans d1 d2 d3).
  - left. now rewrite <- D2.
  - left. now rewrite D1.
  - right. split; [congruence|].
    destruct H1 as [H1|[P1 H1]], H2 as [H2|[P2 H2]]; try (left; lia).
    right. lia.
Qed.

Lemma listed_in_order_insert (collate : string -> string -> comparison)
  (now : Z) (t : task) (l : list task) :
  listed_in_order now l ->
  listed_in_order now (insert_row (before collate (listing_order now)) t l).
Proof.
  induction l as [|a l IH]; cbn [listed_in_order insert_row]; intros Hl.
  - split; [constructor|exact I].
  - destruct Hl as [Ha Hl].
    destruct (before collate (listing_order now) t a) eqn:Hta.
    + apply before_key_le in Hta. cbn [listed_in_order].
      split; [|now split].
      constructor; [exact Hta|].
      eapply Forall_impl; [|exact Ha]. intros x Hx.
      exact (key_le_trans _ _ _ Hta Hx).
    + assert (Hat : key_le (listing_key now a) (listing_key now t)).
      { destruct (key_le_total (listing_key now a) (listing_key now t))
          as [H|H]; [exact H|].
        apply (before_key_le collate) in H. congruence. }
      cbn [listed_in_order]. split; [|now apply IH].
      apply Forall_forall. intros x Hx. apply insert_row_In in Hx as [->|Hx].
      * exact Hat.
      * now apply (proj1 (Forall_forall _ _) Ha).
Qed.

Lemma listed_in_order_order_by (collate : string -> string -> comparison)
  (now : Z) (l : list task) :
  listed_in_order now (order_by (before collate (listing_order now)) l).
Proof.
  induction l as [|a l IH]; cbn [order_by listed_in_order]; [exact I|].
  now apply listed_in_order_insert.
Qed.

Lemma listed_in_order_firstn (now : Z) (n : nat) (l : list task) :
  listed_in_order now l -> listed_in_order now (firstn n l).
Proof.
  revert l.
  induction n as [|n IH]; intros [|a l]; cbn [firstn listed_in_order];
    try tauto.
  intros [Ha Hl]. split; [|now apply IH].
  apply Forall_forall. intros x Hx.
  apply (proj1 (Forall_forall _ _) Ha).
  revert Hx. clear. revert l. induction n as [|n IH]; intros [|b l]; cbn;
    try tauto.
  intros [->|Hx]; [now left | right; now apply IH].
Qed.

Lemma In_firstn {A : Type} (n : nat) (l : list A) (x : A) :
  In x (firstn n l) -> In x l.
Proof.
  revert l. induction n as [|n IH]; intros [|a l]; cbn; try tauto.
  intros [->|Hx]; [now left | right; now apply IH].
Qed.

(** ** What a 200 answer lists *)

Lemma get_tasks_listed (ilike : string -> string -> bool)
  (collate : string -> string -> comparison) (userId : string)
  (q : task_query) (now : Z) (tbl rows : list task) :
  get_tasks ilike collate userId q now tbl = Listed rows ->
  exists input,
    searchTasksInputSchema q = Some input /\
    rows = firstn 10
             (order_by (before collate (listing_order now))
                (filter (selected ilike userId input) tbl)) /\
    forallb taskSchema rows = true.
Proof.
  rewrite get_tasks_run.
  destruct (searchTasksInputSchema q) as [input|]; [|discriminate].
  destruct (s_due_date_before input); [discriminate|].
  destruct (s_due_date_after input); [discriminate|].
  destruct (forallb taskSchema _) eqn:Hschema; [|discriminate].
  intros [= <-]. now exists input.
Qed.

Lemma selected_passes (ilike : string -> string -> bool) (userId : string)
  (q : task_query) (input : SearchTasksInput) (t : task) :
  searchTasksInputSchema q = Some input ->
  selected ilike userId input t = true ->
  user_id t = userId /\ is_completed t = false /\ passes q t.
Proof.
  intros Hparse Hsel.
  destruct (searchTasksInputSchema_filters q input Hparse)
    as (Hp & Hc & _ & _).
  unfold selected in Hsel.
  apply andb_prop in Hsel as [Hsel Hopen].
  apply andb_prop in Hsel as [Hsel Hprio].
  apply andb_prop in Hsel as [Hsel Hcat].
  apply andb_prop in Hsel as [Huser _].
  apply String.eqb_eq in Huser. apply negb_true_iff in Hopen.
  split; [exact Huser|]. split; [exact Hopen|]. unfold passes. split.
  - destruct (q_priority q) as [[s|]|]; try exact I.
    destruct Hp as [Hp Hne]. rewrite Hp in Hprio. cbn [nonempty] in Hprio.
    destruct (String.eqb_spec s EmptyString); [contradiction|].
    now apply String.eqb_eq in Hprio.
  - destruct (q_category_id q) as [[s|]|]; try exact I.
    rewrite Hc in Hcat. destruct (String.eqb s "null").
    + now destruct (category_id t).
    + destruct (category_id t) as [c'|]; [|discriminate].
      apply String.eqb_eq in Hcat. now rewrite Hcat.
Qed.

(** X23. What a 200 answer of GET /api/tasks lists: at most 10 rows, each
    a stored task of the caller that is incomplete and has the priority
    and the category the query asks for (the category ["null"] asks for
    the tasks without one). *)
Theorem listed_tasks_are_the_callers (ilike : string -> string -> bool)
  (collate : string -> string -> comparison) (userId : string)
  (q : task_query) (now : Z) (tbl rows : list task) :
  get_tasks ilike collate userId q now tbl = Listed rows ->
  (List.length rows <= 10)%nat /\
  Forall (fun t => In t tbl /\ user_id t = userId /\
                   is_completed t = false /\ passes q t) rows.
Proof.
  intros Hok.
  destruct (get_tasks_listed ilike collate userId q now tbl rows Hok)
    as (input & Hparse & -> & _).
  split.
  - rewrite length_firstn. lia.
  - apply Forall_forall. intros t Ht.
    apply In_firstn in Ht. apply order_by_In in Ht.
    apply filter_In in Ht as [Hin Hsel].
    split; [exact Hin|].
    now apply (selected_passes ilike userId q input).
Qed.

Lemma listed_tasks_are_the_callers_witness :
  Nat.le
    (List.length [dated "C" "u" (Some 1679100000000) "low" false 2;
                  dated "A" "u" None "low" false 0]) 10 /\
  Forall (fun t => In t dated_tasks /\ user_id t = "u" /\
                   is_completed t = false /\
                   passes (with_query_priority "low" no_query) t)
    [dated "C" "u" (Some 1679100000000) "low" false 2;
     dated "A" "u" None "low" false 0].
Proof.
  apply (listed_tasks_are_the_callers (fun _ _ => true)
           (fun _ _ => Eq) "u" (with_query_priority "low" no_query)
           1679200000000 dated_tasks).
  reflexivity.
Defined.

(** X24. The keys that GET /api/tasks cannot take: the values of a query
    string are strings, so a request that carries is_completed, limit or
    offset fails the schema and is answered 400, and one that carries a
    due_date_before or due_date_after fails the schema (400) or binds a
    Date to a BIGINT comparison (500). No such request is answered 200:
    completed tasks, and tasks past the first 10, cannot be listed. *)
Theorem typed_keys_never_listed (ilike : string -> string -> bool)
  (collate : string -> string -> comparison) (userId : string)
  (q : task_query) (now : Z) (tbl : list task) :
  q_is_completed q <> None \/ q_limit q <> None \/ q_offset q <> None \/
  q_due_date_before q <> DAbsent \/ q_due_date_after q <> DAbsent ->
  get_tasks ilike collate userId q now tbl
  = ListFailure 400 ValidationError \/
  (q_is_completed q = None /\ q_limit q = None /\ q_offset q = None /\
   get_tasks ilike collate userId q now tbl
   = ListFailure 500 InternalServerError).
Proof.
  intros Hkeys. rewrite get_tasks_run.
  destruct (searchTasksInputSchema q) as [input|] eqn:Hparse; [|now left].
  destruct (searchTasksInputSchema_typed_keys q input Hparse)
    as (Hdone & Hlimit & Hoffset & _).
  destruct (searchTasksInputSchema_dates q input Hparse)
    as (Hbefore & Hafter).
  destruct Hkeys as [H|[H|[H|[H|H]]]]; try contradiction; right;
    (split; [exact Hdone|]; split; [exact Hlimit|]; split; [exact Hoffset|]).
  - destruct (q_due_date_before q) as [| |[ms|]]; try contradiction;
      cbn in Hbefore; try discriminate; injection Hbefore as <-;
      reflexivity.
  - destruct (q_due_date_after q) as [| |[ms|]]; try contradiction;
      cbn in Hafter; try discriminate; injection Hafter as <-;
      now destruct (s_due_date_before input).
Qed.

Lemma typed_keys_never_listed_witness :
  get_tasks (fun _ _ => true) (fun _ _ => Eq) "u"
    (with_query_is_completed "true" no_query) 1679200000000 dated_tasks
  = ListFailure 400 ValidationError \/
  (q_is_completed (with_query_is_completed "true" no_query) = None /\
   q_limit (with_query_is_completed "true" no_query) = None /\
   q_offset (with_query_is_completed "true" no_query) = None /\
   get_tasks (fun _ _ => true) (fun _ _ => Eq) "u"
     (with_query_is_completed "true" no_query) 1679200000000 dated_tasks
   = ListFailure 500 InternalServerError).
Proof.
  apply (typed_keys_never_listed (fun _ _ => true) (fun _ _ => Eq) "u"
           (with_query_is_completed "true" no_query) 1679200000000
           dated_tasks).
  left. discriminate.
Defined.

(** X25. The order and the extent of a 200 answer of GET /api/tasks: the
    rows come overdue tasks first, then by due date with the tasks without
    one last, then by priority (high, medium, low), then by order_index;
    no row is listed twice when the ids are a key; and when at most 10
    tasks pass the WHERE clause, all of them are listed. *)
Theorem listed_tasks_in_order (ilike : string -> string -> bool)
  (collate : string -> string -> comparison) (userId : string)
  (q : task_query) (now : Z) (tbl rows : list task)
  (input : SearchTasksInput) :
  get_tasks ilike collate userId q now tbl = Listed rows ->
  searchTasksInputSchema q = Some input ->
  listed_in_order now rows /\
  (keyed tbl -> NoDup rows) /\
  ((List.length (filter (selected ilike userId input) tbl) <= 10)%nat ->
   forall t, In t tbl -> selected ilike userId input t = true -> In t rows).
Proof.
  intros Hok Hparse.
  destruct (get_tasks_listed ilike collate userId q now tbl rows Hok)
    as (input' & Hparse' & -> & _).
  rewrite Hparse in Hparse'. injection Hparse' as <-.
  split; [|split].
  - apply listed_in_order_firstn. apply listed_in_order_order_by.
  - intros Hk.
    assert (Hnd : NoDup (order_by (before collate (listing_order now))
                           (filter (selected ilike userId input) tbl))).
    { apply NoDup_order_by. apply NoDup_filter. now apply keyed_NoDup. }
    rewrite <- (firstn_skipn 10) in Hnd.
    now apply NoDup_app_remove_r in Hnd.
  - intros Hlen t Hin Hsel.
    rewrite firstn_all2 by (now rewrite length_order_by).
    apply order_by_In. apply filter_In. now split.
Qed.

Lemma listed_tasks_in_order_witness :
  listed_in_order 1679200000000
    [dated "C" "u" (Some 1679100000000) "low" false 2;
     dated "B" "u" (Some 1679300000000) "medium" false 1;
     dated "D" "u" None "high" false 3;
     dated "A" "u" None "low" false 0].
Proof.
  apply (listed_tasks_in_order (fun _ _ => true) (fun _ _ => Eq) "u"
           no_query 1679200000000 dated_tasks
           [dated "C" "u" (Some 1679100000000) "low" false 2;
            dated "B" "u" (Some 1679300000000) "medium" false 1;
            dated "D" "u" None "high" false 3;
            dated "A" "u" None "low" false 0]
           (mkSearchTasksInput None None None None None None None 10 0
              "created_at" "desc")); reflexivity.
Defined.

(* ===================================================================== *)
(** * POST /api/register *)
(* ===================================================================== *)

Lemma insert_category_fresh (row : category_row) (cats : list category_row) :
  (forall k, In k cats -> cr_id k <> cr_id row) ->
  insert_category row cats = Some (cats ++ [row]).
Proof.
  intros Hfresh. unfold insert_category.
  destruct (existsb _ cats) eqn:Hex; [|reflexivity].
  apply existsb_exists in Hex as [k [Hk Heq]].
  apply String.eqb_eq in Heq. now destruct (Hfresh k Hk).
Qed.

Lemma register_stores (generateId : nat -> string) (userId : string)
  (now : Z) (cats : list category_row) :
  (forall k i, In k cats -> cr_id k <> generateId i) ->
  NoDup [generateId 1%nat; generateId 2%nat; generateId 3%nat;
         generateId 4%nat] ->
  insert_default_categories generateId 1 defaultCategories userId now cats
  = Some (cats ++
          [ mkCategoryRow (generateId 1%nat) userId "Work" now now;
            mkCategoryRow (generateId 2%nat) userId "Personal" now now;
            mkCategoryRow (generateId 3%nat) userId "Shopping" now now;
            mkCategoryRow (generateId 4%nat) userId "Errands" now now ]).
Proof.
  intros Hfresh Hnd.
  inversion Hnd as [|? ? H1 Hnd1]; subst.
  inversion Hnd1 as [|? ? H2 Hnd2]; subst.
  inversion Hnd2 as [|? ? H3 Hnd3]; subst.
  cbn [In] in H1, H2, H3.
  unfold defaultCategories. cbn [insert_default_categories].
  rewrite insert_category_fresh by (intros k Hk; now apply Hfresh).
  rewrite insert_category_fresh.
  2: { intros k Hk. apply in_app_or in Hk as [Hk|[<-|[]]];
       [now apply Hfresh | cbn; intuition]. }
  rewrite insert_category_fresh.
  2: { intros k Hk. apply in_app_or in Hk as [Hk|[<-|[]]];
       [|cbn; intuition].
       apply in_app_or in Hk as [Hk|[<-|[]]];
         [now apply Hfresh | cbn; intuition]. }
  rewrite insert_category_fresh.
  2: { intros k Hk. apply in_app_or in Hk as [Hk|[<-|[]]];
       [|cbn; intuition].
       apply in_app_or in Hk as [Hk|[<-|[]]]; [|cbn; intuition].
       apply in_app_or in Hk as [Hk|[<-|[]]];
         [now apply Hfresh | cbn; intuition]. }
  now rewrite <- !app_assoc.
Qed.

(** X27. Registration is never answered 201. A request with a valid body,
    a new email and new ids stores the user and the four default
    categories, commits, and is then answered 400 "Validation Error",
    because the object given to userSchema.parse has no password_hash;
    registering the same email again is answered 400 "Email already
    registered". *)
Theorem register_commits_then_fails (is_email : string -> bool)
  (b : user_body) (email password password_hash : string)
  (generateId : nat -> string) (now : Z) (token : string) (a : accounts) :
  createUserInputSchema is_email b = Some (email, password) ->
  (forall u, In u (acc_users a) -> u_email u <> email) ->
  fresh_ids generateId a ->
  register is_email b password_hash generateId now token a
  = (RegisterFailure 400 RegisterValidationError,
     mkAccounts
       (acc_users a ++
        [registered_user email password_hash generateId now])
       (acc_categories a ++ registered_categories generateId now)) /\
  (forall password_hash' generateId' now' token',
      fst (register is_email b password_hash' generateId' now' token'
             (snd (register is_email b password_hash generateId now token
                     a)))
      = RegisterFailure 400 EmailExists) /\
  (forall b' password_hash' generateId' now' token' a' user token'',
      fst (register is_email b' password_hash' generateId' now' token' a')
      <> Registered user token'').
Proof.
  intros Hparse Hnew (Hid & Hcats & Hnd).
  assert (Hrun : register is_email b password_hash generateId now token a
                 = (RegisterFailure 400 RegisterValidationError,
                    mkAccounts
                      (acc_users a ++
                       [registered_user email password_hash generateId now])
                      (acc_categories a ++
                       registered_categories generateId now))).
  { unfold register. rewrite Hparse.
    assert (Hnone : filter (fun u => String.eqb (u_email u) email)
                      (acc_users a) = []).
    { induction (acc_users a) as [|u l IH]; cbn; [reflexivity|].
      destruct (String.eqb_spec (u_email u) email) as [He|_].
      - exfalso. apply (Hnew u); [now left | exact He].
      - apply IH.
        + intros x Hx. apply Hnew. now right.
        + intros x Hx. apply Hid. now right. }
    rewrite Hnone. cbn zeta. unfold insert_user.
    assert (Hex : existsb
                    (fun u => String.eqb (u_id u)
                                (u_id (mkUserRow (generateId 0%nat) email
                                         password_hash now now (Some now)))
                              || String.eqb (u_email u)
                                   (u_email (mkUserRow (generateId 0%nat)
                                               email password_hash now now
                                               (Some now))))
                    (acc_users a) = false).
    { destruct (existsb _ (acc_users a)) eqn:Hex; [|reflexivity].
      apply existsb_exists in Hex as [u [Hu Heq]]. cbn in Heq.
      apply orb_prop in Heq as [Heq|Heq]; apply String.eqb_eq in Heq.
      - now destruct (Hid u Hu).
      - now destruct (Hnew u Hu). }
    rewrite Hex, (register_stores generateId _ now _ Hcats Hnd).
    reflexivity. }
  split; [exact Hrun|]. split.
  - intros hash' gen' now' token'. rewrite Hrun. cbn [snd].
    unfold register. rewrite Hparse. cbn [acc_users].
    rewrite filter_app. cbn [filter registered_user u_email].
    rewrite String.eqb_refl.
    now destruct (filter _ (acc_users a)).
  - intros b' hash' gen' now' token' a' user token''.
    unfold register.
    destruct (createUserInputSchema is_email b') as [[e p]|];
      [|discriminate].
    destruct (filter _ (acc_users a')); [|discriminate].
    cbn zeta. destruct (insert_user _ _); [|discriminate].
    destruct (insert_default_categories _ _ _ _ _ _); discriminate.
Qed.

Lemma register_commits_then_fails_witness :
  register (fun _ => true) (credentials "ann@example.com" "correct horse")
    "hash" sample_ids 1679100000000 "token"
    (mkAccounts [] sample_categories)
  = (RegisterFailure 400 RegisterValidationError,
     mkAccounts
       [registered_user "ann@example.com" "hash" sample_ids 1679100000000]
       (sample_categories ++
        registered_categories sample_ids 1679100000000)).
Proof.
  apply (register_commits_then_fails (fun _ => true)
           (credentials "ann@example.com" "correct horse")
           "ann@example.com" "correct horse" "hash" sample_ids
           1679100000000 "token" (mkAccounts [] sample_categories)).
  - reflexivity.
  - intros u [].
  - split; [intros u []|]. split.
    + intros k i Hk. cbn in Hk.
      destruct Hk as [<-|[<-|[<-|[]]]];
        do 4 (destruct i as [|i]; [discriminate|]); discriminate.
    + repeat constructor; cbn; intuition discriminate.
Defined.

(* ===================================================================== *)
(** * The cache of the client *)
(* ===================================================================== *)

Lemma js_set_new (key : string) (v : task) (o : cache) :
  ~ In key (map fst o) -> js_set key v o = o ++ [(key, v)].
Proof.
  induction o as [|[k x] o IH]; cbn; intros Hnot; [reflexivity|].
  destruct (String.eqb_spec k key) as [->|_]; [exfalso; now apply Hnot; left|].
  f_equal. apply IH. intros Hin. apply Hnot. now right.
Qed.

Lemma set_tasks_from (entries : cache) :
  forall acc : cache,
    NoDup (map fst (acc ++ entries)) ->
    Forall (fun e => fst e = id (snd e)) entries ->
    fold_left (fun acc task => js_set (id task) task acc)
      (map snd entries) acc
    = acc ++ entries.
Proof.
  induction entries as [|[k v] entries IH]; intros acc Hnd Hown; cbn.
  - now rewrite app_nil_r.
  - inversion Hown as [|? ? Hk Hown']; subst. cbn in Hk. subst k.
    assert (Hnew : ~ In (id v) (map fst acc)).
    { rewrite map_app in Hnd. cbn in Hnd.
      apply NoDup_remove_2 in Hnd. intros Hin. apply Hnd.
      apply in_or_app. now left. }
    rewrite (js_set_new _ _ _ Hnew), IH.
    + now rewrite <- app_assoc.
    + now rewrite <- app_assoc.
    + exact Hown'.
Qed.

(** X28. The rollback of an optimistic update restores the cache: for a
    cache that keeps every task under its own id, set_tasks of its
    Object.values is the same cache, with the same keys, values and
    order. *)
Theorem rollback_restores_cache (previousTasksById : cache) :
  by_own_id previousTasksById ->
  set_tasks (Object_values previousTasksById) = previousTasksById.
Proof.
  intros [Hnd Hown]. unfold set_tasks, Object_values.
  now rewrite (set_tasks_from previousTasksById []).
Qed.

Lemma rollback_restores_cache_witness :
  set_tasks (Object_values
               [("B", sample "B" "u" false None 1);
                ("A", sample "A" "u" false None 0)])
  = [("B", sample "B" "u" false None 1);
     ("A", sample "A" "u" false None 0)].
Proof.
  apply (rollback_restores_cache
           [("B", sample "B" "u" false None 1);
            ("A", sample "A" "u" false None 0)]).
  split.
  - repeat constructor; cbn; intuition discriminate.
  - repeat constructor.
Defined.

Lemma js_get_set (key key' : string) (v : task) (o : cache) :
  js_get key' (js_set key v o)
  = if String.eqb key key' then Some v else js_get key' o.
Proof.
  unfold js_get. induction o as [|[k x] o IH]; cbn.
  - now destruct (String.eqb key key').
  - destruct (String.eqb_spec k key) as [->|Hne]; cbn.
    + now destruct (String.eqb key key').
    + destruct (String.eqb_spec k key') as [->|_]; cbn.
      * destruct (String.eqb_spec key key') as [->|_];
          [contradiction|reflexivity].
      * exact IH.
Qed.

Lemma js_get_delete (key key' : string) (o : cache) :
  js_get key' (js_delete key o)
  = if String.eqb key key' then None else js_get key' o.
Proof.
  unfold js_get, js_delete. induction o as [|[k x] o IH]; cbn.
  - now destruct (String.eqb key key').
  - destruct (String.eqb_spec k key) as [->|Hne]; cbn.
    + rewrite IH. destruct (String.eqb_spec key key'); reflexivity.
    + destruct (String.eqb_spec k key') as [->|_]; cbn; [|exact IH].
      destruct (String.eqb_spec key key') as [->|_];
        [contradiction|reflexivity].
Qed.

Lemma map_fst_js_set (key : string) (v : task) (o : cache) :
  map fst (js_set key v o)
  = if existsb (String.eqb key) (map fst o) then map fst o
    else map fst o ++ [key].
Proof.
  induction o as [|[k x] o IH]; cbn; [reflexivity|].
  rewrite (String.eqb_sym key k).
  destruct (String.eqb_spec k key) as [->|_]; cbn; [reflexivity|].
  rewrite IH. now destruct (existsb _ (map fst o)).
Qed.

Lemma by_own_id_set (t : task) (o : cache) :
  by_own_id o -> by_own_id (js_set (id t) t o).
Proof.
  intros [Hnd Hown]. split.
  - rewrite map_fst_js_set.
    destruct (existsb _ (map fst o)) eqn:Hex; [exact Hnd|].
    apply NoDup_app; [exact Hnd | repeat constructor; now intros []|].
    intros a Ha [<-|[]].
    assert (Hex' : existsb (String.eqb (id t)) (map fst o) = true).
    { apply existsb_exists. exists (id t). split; [exact Ha|].
      apply String.eqb_refl. }
    congruence.
  - clear Hnd. induction o as [|[k x] o IH]; cbn.
    + repeat constructor.
    + inversion Hown as [|? ? Hk Hown']; subst.
      destruct (String.eqb_spec k (id t)) as [->|_].
      * constructor; [reflexivity|exact Hown'].
      * constructor; [exact Hk|now apply IH].
Qed.

Lemma set_tasks_snoc (tasks : list task) (t : task) :
  set_tasks (tasks ++ [t]) = js_set (id t) t (set_tasks tasks).
Proof. unfold set_tasks. now rewrite fold_left_app. Qed.

(** X29. What the cache holds: after set_tasks the task found under an id
    is the last task of the list with that id; add_or_update_task makes
    the task the one found under its id and remove_task leaves none
    there, both without touching what is found under the other ids; and
    all three keep every task under its own id. *)
Theorem cache_lookup (tasks : list task) (t : task) (key : string)
  (o : cache) :
  js_get key (set_tasks tasks)
  = find (fun x => String.eqb (id x) key) (rev tasks) /\
  js_get key (add_or_update_task t o)
  = (if String.eqb (id t) key then Some t else js_get key o) /\
  js_get key (remove_task (id t) o)
  = (if String.eqb (id t) key then None else js_get key o) /\
  by_own_id (set_tasks tasks) /\
  (by_own_id o ->
   by_own_id (add_or_update_task t o) /\ by_own_id (remove_task (id t) o)).
Proof.
  split; [|split; [|split; [|split]]].
  - induction tasks as [|x tasks IH] using rev_ind; [reflexivity|].
    rewrite set_tasks_snoc, js_get_set, rev_app_distr. cbn [rev app find].
    now destruct (String.eqb (id x) key).
  - apply js_get_set.
  - apply js_get_delete.
  - induction tasks as [|x tasks IH] using rev_ind.
    + split; constructor.
    + rewrite set_tasks_snoc. now apply by_own_id_set.
  - intros Hown. split; [now apply by_own_id_set|].
    destruct Hown as [Hnd Hown]. unfold remove_task, js_delete. split.
    + clear Hown. induction o as [|[k x] o IH]; cbn; [constructor|].
      inversion Hnd as [|? ? Hk Hnd']; subst.
      destruct (String.eqb k (id t)); cbn; [now apply IH|].
      constructor; [|now apply IH].
      intros Hin. apply Hk. apply in_map_iff in Hin as [e [He Hin]].
      apply filter_In in Hin as [Hin _]. rewrite <- He. now apply in_map.
    + apply Forall_forall. intros e He. apply filter_In in He as [He _].
      now apply (proj1 (Forall_forall _ _) Hown).
Qed.

Lemma cache_lookup_witness :
  by_own_id (add_or_update_task (sample "B" "u" true None 1)
               [("A", sample "A" "u" false None 0);
                ("B", sample "B" "u" false None 1)]).
Proof.
  apply (cache_lookup [] (sample "B" "u" true None 1) "B"
           [("A", sample "A" "u" false None 0);
            ("B", sample "B" "u" false None 1)]).
  split.
  - repeat constructor; cbn; intuition discriminate.
  - repeat constructor.
Defined.

